(** * An edge-triggered epoll server: model of [server.cpp] and its properties

    The program is a single-threaded TCP listener.  Everything it does goes
    through the operating system, so the development has two layers:

    - a small model of the kernel objects the program touches (descriptor
      table, listening queue, stream receive buffers, one epoll instance) and
      of the library and system calls it issues;
    - the functions of [server.cpp], transcribed one by one into a state
      monad over that model, with the outcomes a C++ program can have
      (return, uncaught exception, [std::exit], blocked in a call).

    Every call and every line written to a standard stream is appended to a
    trace, which is what the theorems talk about. *)

From Stdlib Require Import ZArith Lia List String.
From Stdlib.Strings Require Import Byte.
From stdpp Require Import gmap strings list fin_maps.
Import ListNotations.

Local Open Scope string_scope.
Local Open Scope list_scope.
Local Open Scope Z_scope.

(** ** Constants of the Linux headers used by the program *)

Module Consts.
Definition ENOENT : Z := 2.
Definition EINTR : Z := 4.
Definition EBADF : Z := 9.
Definition EAGAIN : Z := 11.
(** [asm-generic/errno.h]: [#define EWOULDBLOCK EAGAIN] *)
Definition EWOULDBLOCK : Z := EAGAIN.
Definition EEXIST : Z := 17.
Definition EINVAL : Z := 22.
Definition ENOSPC : Z := 28.
Definition ENOTSOCK : Z := 88.
Definition ENOTCONN : Z := 107.

Definition O_RDWR : Z := 2.
Definition O_NONBLOCK : Z := 2048.

Definition EPOLLIN : Z := 1.
Definition EPOLLERR : Z := 8.
Definition EPOLLHUP : Z := 16.
Definition EPOLLET : Z := 2147483648.

Definition SOMAXCONN : Z := 4096.
Definition EAI_FAMILY : Z := -6.
Definition EAI_NONAME : Z := -2.
Definition EAI_SERVICE : Z := -8.

Definition EXIT_SUCCESS : Z := 0.
Definition EXIT_FAILURE : Z := 1.
End Consts.
Import Consts.

(** ** Kernel objects *)

(** What a stream socket answers once its receive buffer is empty. *)
Inductive rx_end :=
| RxOpen              (* peer still connected, nothing to read *)
| RxEof               (* peer shut its side down *)
| RxErr (e : Z).      (* pending socket error, e.g. ECONNRESET *)

(** A peer address, as far as the program looks at it: the numeric host and
    service [getnameinfo] prints for it, if it can. *)
Definition sockaddr := option (string * string).

(** One entry of a listening socket's queue: what the next [accept] yields. *)
Inductive incoming :=
| Pending (fd : nat) (peer : sockaddr) (rx : list byte) (fin : rx_end)
| Refused (e : Z).

Record epoll_event := { events : Z; data_fd : Z }.

(** What successive [epoll_wait] calls find: a set of ready descriptors, or
    an interruption. *)
Inductive wait_item :=
| Batch (evs : list epoll_event)
| Interrupted (e : Z).

Inductive file_kind :=
| KSocket (bound : bool)
| KListener (backlog : list incoming)
| KStream (rx : list byte) (fin : rx_end)
| KEpoll (limit : nat) (interest : list (Z * Z)) (ready : list wait_item).

Record file := { flags : Z; kind : file_kind }.

Record addrinfo :=
  { ai_family : Z; ai_socktype : Z; ai_protocol : Z; ai_addr : Z }.

(** What the process finds around it: what name resolution answers (and,
    when it fails, with which [EAI_] code, a negative number in the C
    library, and whether it also sets [errno]), which descriptors [socket]
    and [epoll_create1] hand out (or the error they fail with), whether the
    port can be bound, what arrives on the listening socket and the epoll
    instance once they exist, and which bytes lie in memory right behind the
    chunk buffer of [read_input_data] when that buffer holds the given
    bytes. *)
Record startup :=
  { resolve : string -> option addrinfo;
    gai_error : string -> positive;
    gai_errno : string -> option Z;
    beyond : list byte -> list byte;
    socket_res : nat + Z;
    bind_res : option Z;
    listen_res : option Z;
    epoll_create_res : nat + Z;
    inbound : list incoming;
    watch_limit : nat;
    wakeups : list wait_item }.

(** ** Observable behaviour *)

Inductive call :=
| c_getaddrinfo (port : string)
| c_freeaddrinfo
| c_socket (family type protocol : Z)
| c_bind (fd : Z)
| c_listen (fd backlog : Z)
| c_fcntl_getfl (fd : Z)
| c_fcntl_setfl (fd fl : Z)
| c_accept (fd : Z)
| c_setsockopt_reuseport (fd : Z)
| c_getnameinfo
| c_epoll_create1
| c_epoll_ctl_add (efd fd ev : Z)
| c_epoll_wait (efd maxevents : Z)
| c_read (fd : Z) (count : nat)
| c_close (fd : Z).

Inductive out_line :=
| Accepted (host port : string) (fd : Z)
| Incoming (fd : Z) (text : list byte)
| Closed (fd : Z).

(** [Perror tag e]: the line [perror(tag)] prints while [errno] is [e].
    [Usage argv0]: the usage line; [argv0] is [None] when the program was
    started without even its own name. *)
Inductive err_line :=
| Perror (tag : string) (e : Z)
| Usage (argv0 : option string).

Inductive access := Load (i : nat) | Store (i : nat).

Inductive effect :=
| Call (c : call) (ret : Z)
| Stdout (l : out_line)
| Stderr (l : err_line)
| OutOfBounds (a : access) (size : nat).  (* access to [buf] at an index >= its size *)

Record world :=
  { files : gmap Z file;
    errno : Z;
    trace : list effect;
    boot : startup }.

(** ** Outcomes and the monad of the program *)

Inductive result (A : Type) :=
| Ret (a : A) (w : world)               (* the function returned *)
| Throw (what : string) (w : world)     (* a std::runtime_error is propagating *)
| Exit (status : Z) (w : world)         (* std::exit was called *)
| Blocked (w : world)                   (* a blocking call never returns *)
| Running (w : world).                  (* a loop is still iterating *)
Arguments Ret {A} a w.
Arguments Throw {A} what w.
Arguments Exit {A} status w.
Arguments Blocked {A} w.
Arguments Running {A} w.

Definition M (A : Type) : Type := world -> result A.

Definition ret {A} (a : A) : M A := fun w => Ret a w.

Definition bind {A B} (m : M A) (k : A -> M B) : M B := fun w =>
  match m w with
  | Ret a w' => k a w'
  | Throw s w' => Throw s w'
  | Exit c w' => Exit c w'
  | Blocked w' => Blocked w'
  | Running w' => Running w'
  end.

Declare Scope prog_scope.
Delimit Scope prog_scope with prog.
Notation "'let*' x := c1 'in' c2" := (bind c1 (fun x => c2))
  (at level 10, x pattern, c1 at level 100, c2 at level 200) : prog_scope.
Notation "c1 ;; c2" := (bind c1 (fun _ => c2))
  (at level 100, c2 at level 200, right associativity) : prog_scope.
Local Open Scope prog_scope.

Definition throw {A} (what : string) : M A := fun w => Throw what w.
Definition exit {A} (status : Z) : M A := fun w => Exit status w.
Definition block {A} : M A := fun w => Blocked w.
Definition still_running {A} : M A := fun w => Running w.

(** State updates. *)
Definition logged (w : world) (l : list effect) : world :=
  {| files := files w; errno := errno w; trace := trace w ++ l; boot := boot w |}.

Definition with_errno (w : world) (e : Z) : world :=
  {| files := files w; errno := e; trace := trace w; boot := boot w |}.

Definition with_files (w : world) (fs : gmap Z file) : world :=
  {| files := fs; errno := errno w; trace := trace w; boot := boot w |}.

Definition emit (e : effect) : M unit := fun w => Ret tt (logged w [e]).
Definition emits (l : list effect) : M unit := fun w => Ret tt (logged w l).

Definition get_errno : M Z := fun w => Ret (errno w) w.

Definition set_errno (e : Z) : M unit := fun w => Ret tt (with_errno w e).

Definition get_files : M (gmap Z file) := fun w => Ret (files w) w.

Definition set_files (fs : gmap Z file) : M unit := fun w => Ret tt (with_files w fs).

Definition get_boot : M startup := fun w => Ret (boot w) w.

(** A call that succeeds with value [r], and one that fails with [e]. *)
Definition ok (c : call) (r : Z) : M Z := emit (Call c r);; ret r.
Definition fail (c : call) (e : Z) : M Z :=
  set_errno e;; emit (Call c (-1));; ret (-1).

Definition perror (tag : string) : M unit :=
  let* e := get_errno in emit (Stderr (Perror tag e)).

Definition print (l : out_line) : M unit := emit (Stdout l).

(** ** The calls the program makes

    Each call appends itself and its return value to the trace; a failing
    call stores its error number in [errno] first. *)

Definition is_nonblocking (f : file) : bool :=
  negb (Z.land (flags f) O_NONBLOCK =? 0).

Definition with_kind (f : file) (k : file_kind) : file :=
  {| flags := flags f; kind := k |}.

(** [read] stores the bytes at the start of the caller's buffer; the cells
    behind them keep what they held. *)
Definition copy_out (data : list byte) (buf : list (option byte)) : list (option byte) :=
  (Some <$> data) ++ drop (length data) buf.

Definition sys_read (fd : Z) (buf : list (option byte)) (count : nat)
  : M (Z * list (option byte)) :=
  let c := c_read fd count in
  let* fs := get_files in
  match fs !! fd with
  | None => let* r := fail c EBADF in ret (r, buf)
  | Some f =>
    match kind f with
    | KStream [] RxOpen =>
        if is_nonblocking f then let* r := fail c EAGAIN in ret (r, buf)
        else block
    | KStream [] RxEof => let* r := ok c 0 in ret (r, buf)
    | KStream [] (RxErr e) => let* r := fail c e in ret (r, buf)
    | KStream rx fin =>
        let data := take count rx in
        set_files (<[fd := with_kind f (KStream (drop count rx) fin)]> fs);;
        let* r := ok c (Z.of_nat (length data)) in
        ret (r, copy_out data buf)
    | KSocket _ | KListener _ => let* r := fail c ENOTCONN in ret (r, buf)
    | KEpoll _ _ _ => let* r := fail c EINVAL in ret (r, buf)
    end
  end.

Definition sys_accept (fd : Z) : M (Z * sockaddr) :=
  let c := c_accept fd in
  let* fs := get_files in
  match fs !! fd with
  | None => let* r := fail c EBADF in ret (r, None)
  | Some f =>
    match kind f with
    | KListener [] =>
        if is_nonblocking f then let* r := fail c EAGAIN in ret (r, None)
        else block
    | KListener (Refused e :: q) =>
        set_files (<[fd := with_kind f (KListener q)]> fs);;
        let* r := fail c e in ret (r, None)
    | KListener (Pending n peer rx fin :: q) =>
        set_files (<[Z.of_nat n := {| flags := O_RDWR; kind := KStream rx fin |}]>
                     (<[fd := with_kind f (KListener q)]> fs));;
        let* r := ok c (Z.of_nat n) in ret (r, peer)
    | KSocket _ | KStream _ _ => let* r := fail c EINVAL in ret (r, None)
    | KEpoll _ _ _ => let* r := fail c ENOTSOCK in ret (r, None)
    end
  end.

Definition sys_getnameinfo (addr : sockaddr) : M (Z * string * string) :=
  match addr with
  | Some (h, s) => emit (Call c_getnameinfo 0);; ret (0, h, s)
  | None => emit (Call c_getnameinfo EAI_FAMILY);; ret (EAI_FAMILY, "", "")
  end.

Definition sys_fcntl_getfl (fd : Z) : M Z :=
  let* fs := get_files in
  match fs !! fd with
  | Some f => ok (c_fcntl_getfl fd) (flags f)
  | None => fail (c_fcntl_getfl fd) EBADF
  end.

Definition sys_fcntl_setfl (fd fl : Z) : M Z :=
  let* fs := get_files in
  match fs !! fd with
  | Some f =>
      set_files (<[fd := {| flags := fl; kind := kind f |}]> fs);;
      ok (c_fcntl_setfl fd fl) 0
  | None => fail (c_fcntl_setfl fd fl) EBADF
  end.

Definition sys_setsockopt_reuseport (fd : Z) : M Z :=
  let c := c_setsockopt_reuseport fd in
  let* fs := get_files in
  match fs !! fd with
  | None => fail c EBADF
  | Some f =>
    match kind f with
    | KEpoll _ _ _ => fail c ENOTSOCK
    | _ => ok c 0
    end
  end.

Definition watches (fd : Z) (interest : list (Z * Z)) : bool :=
  existsb (fun p => fst p =? fd) interest.

Definition sys_epoll_ctl_add (efd fd ev : Z) : M Z :=
  let c := c_epoll_ctl_add efd fd ev in
  let* fs := get_files in
  match fs !! efd with
  | None => fail c EBADF
  | Some e =>
    match kind e with
    | KEpoll limit interest ready =>
        match fs !! fd with
        | None => fail c EBADF
        | Some _ =>
            if fd =? efd then fail c EINVAL
            else if watches fd interest then fail c EEXIST
            else if (limit <=? length interest)%nat then fail c ENOSPC
            else
              set_files (<[efd := with_kind e (KEpoll limit (interest ++ [(fd, ev)]) ready)]> fs);;
              ok c 0
        end
    | _ => fail c EINVAL
    end
  end.

(** Closing a descriptor also drops it from every epoll interest list. *)
Definition forget (fd : Z) (f : file) : file :=
  match kind f with
  | KEpoll limit interest ready =>
      with_kind f (KEpoll limit (filter (fun p => fst p <> fd) interest) ready)
  | _ => f
  end.

Definition sys_close (fd : Z) : M Z :=
  let* fs := get_files in
  match fs !! fd with
  | None => fail (c_close fd) EBADF
  | Some _ =>
      set_files (forget fd <$> delete fd fs);;
      ok (c_close fd) 0
  end.

(** [epoll_wait] with an infinite timeout.  It hands out at most [maxevents]
    of the ready events and writes them at the start of the caller's array;
    what does not fit stays ready for the next call. *)
Definition sys_epoll_wait (efd : Z) (buffer : list epoll_event) (maxevents : Z)
  : M (Z * list epoll_event) :=
  let c := c_epoll_wait efd maxevents in
  let* fs := get_files in
  match fs !! efd with
  | None => let* r := fail c EBADF in ret (r, buffer)
  | Some e =>
    match kind e with
    | KEpoll limit interest ready =>
        if maxevents <=? 0 then let* r := fail c EINVAL in ret (r, buffer)
        else
          match ready with
          | [] => block
          | Interrupted err :: rest =>
              set_files (<[efd := with_kind e (KEpoll limit interest rest)]> fs);;
              let* r := fail c err in ret (r, buffer)
          | Batch evs :: rest =>
              let now := take (Z.to_nat maxevents) evs in
              let later := drop (Z.to_nat maxevents) evs in
              let ready' := match later with [] => rest | _ => Batch later :: rest end in
              set_files (<[efd := with_kind e (KEpoll limit interest ready')]> fs);;
              let* r := ok c (Z.of_nat (length now)) in
              ret (r, now ++ drop (length now) buffer)
          end
    | _ => let* r := fail c EINVAL in ret (r, buffer)
    end
  end.

(** [getaddrinfo] reports a failure in its return value, the negative code
    the environment gives; it may set [errno] on the way, or leave it.  On
    failure [res] is left as it was, which the program never reads. *)
Definition no_addrinfo : addrinfo :=
  {| ai_family := 0; ai_socktype := 0; ai_protocol := 0; ai_addr := 0 |}.

Definition sys_getaddrinfo (port : string) : M (Z * addrinfo) :=
  let* b := get_boot in
  match resolve b port with
  | Some ai => emit (Call (c_getaddrinfo port) 0);; ret (0, ai)
  | None =>
      let rc := Z.neg (gai_error b port) in
      match gai_errno b port with
      | Some e => set_errno e;; emit (Call (c_getaddrinfo port) rc);; ret (rc, no_addrinfo)
      | None => emit (Call (c_getaddrinfo port) rc);; ret (rc, no_addrinfo)
      end
  end.

Definition sys_freeaddrinfo : M unit := emit (Call c_freeaddrinfo 0).

Definition sys_socket (family type protocol : Z) : M Z :=
  let c := c_socket family type protocol in
  let* b := get_boot in
  match socket_res b with
  | inl n =>
      let* fs := get_files in
      set_files (<[Z.of_nat n := {| flags := O_RDWR; kind := KSocket false |}]> fs);;
      ok c (Z.of_nat n)
  | inr e => fail c e
  end.

Definition sys_bind (fd : Z) (addr : Z) : M Z :=
  let c := c_bind fd in
  let* b := get_boot in
  let* fs := get_files in
  match fs !! fd with
  | None => fail c EBADF
  | Some f =>
    match kind f with
    | KSocket false =>
        match bind_res b with
        | None => set_files (<[fd := with_kind f (KSocket true)]> fs);; ok c 0
        | Some e => fail c e
        end
    | KEpoll _ _ _ => fail c ENOTSOCK
    | _ => fail c EINVAL
    end
  end.

Definition sys_listen (fd backlog : Z) : M Z :=
  let c := c_listen fd backlog in
  let* b := get_boot in
  let* fs := get_files in
  match fs !! fd with
  | None => fail c EBADF
  | Some f =>
    match kind f with
    | KSocket _ =>
        match listen_res b with
        | None => set_files (<[fd := with_kind f (KListener (inbound b))]> fs);; ok c 0
        | Some e => fail c e
        end
    | KListener _ => ok c 0
    | KStream _ _ => fail c EINVAL
    | KEpoll _ _ _ => fail c ENOTSOCK
    end
  end.

Definition sys_epoll_create1 : M Z :=
  let* b := get_boot in
  match epoll_create_res b with
  | inl n =>
      let* fs := get_files in
      set_files (<[Z.of_nat n := {| flags := O_RDWR;
                                    kind := KEpoll (watch_limit b) [] (wakeups b) |}]> fs);;
      ok c_epoll_create1 (Z.of_nat n)
  | inr e => fail c_epoll_create1 e
  end.

(** ** The program *)

Definition AF_INET : Z := 2.
Definition SOCK_STREAM : Z := 1.

Definition make_socket_non_blocking (socket_fd : Z) : M unit :=
  let* fl := sys_fcntl_getfl socket_fd in
  let fl := Z.lor fl O_NONBLOCK in
  sys_fcntl_setfl socket_fd fl;;
  ret tt.

Definition create_server_socket (port : string) : M Z :=
  let* (rc, res) := sys_getaddrinfo port in
  if negb (rc =? 0) then
    perror "getaddrinfo";;
    throw "call to getaddrinfo failed"
  else
    let* server_fd := sys_socket (ai_family res) (ai_socktype res) (ai_protocol res) in
    if server_fd =? -1 then
      perror "socket";;
      throw "call to socket failed"
    else
      let* r := sys_bind server_fd (ai_addr res) in
      if r =? -1 then
        perror "bind";;
        throw "call to bind failed"
      else
        sys_freeaddrinfo;;
        make_socket_non_blocking server_fd;;
        ret server_fd.

(** The [while(true)] of [accept_new_connections].  Every iteration takes
    one entry off the listening queue or leaves the loop, so the number of
    iterations is bounded by the length of the queue ([accept_budget]). *)
Fixpoint accept_loop (fuel : nat) (efd server_fd : Z) : M unit :=
  match fuel with
  | O => still_running
  | S fuel =>
      let* (infd, in_addr) := sys_accept server_fd in
      if infd =? -1 then
        let* e := get_errno in
        if (e =? EAGAIN) || (e =? EWOULDBLOCK) then
          ret tt
        else
          perror "accept";;
          ret tt
      else
        sys_setsockopt_reuseport infd;;
        let* (error_code, hbuf, sbuf) := sys_getnameinfo in_addr in
        (if error_code =? 0 then print (Accepted hbuf sbuf infd) else ret tt);;
        let* fl := sys_fcntl_getfl infd in
        let fl := Z.lor fl O_NONBLOCK in
        sys_fcntl_setfl infd fl;;
        let* status := sys_epoll_ctl_add efd infd (Z.lor EPOLLIN EPOLLET) in
        if status =? -1 then
          perror "epoll_ctl";;
          throw "call to epoll_ctl failed (attempted to add new incoming connection)"
        else
          accept_loop fuel efd server_fd
  end.

Definition accept_budget (server_fd : Z) (w : world) : nat :=
  match files w !! server_fd with
  | Some f =>
      match kind f with
      | KListener q => S (length q)
      | _ => 1
      end
  | None => 1
  end.

Definition accept_new_connections (efd server_fd : Z) : M unit := fun w =>
  accept_loop (accept_budget server_fd w) efd server_fd w.

(** [char buf[512]]: a fresh array in every iteration, its cells
    indeterminate ([None]) until written. *)
Definition BUF_SIZE : nat := 512.
Definition fresh_buf : list (option byte) := replicate BUF_SIZE None.

(** [buf[count] = 0].  An index outside the array is undefined behaviour;
    the model records the access and leaves the array as it is. *)
Definition store_nul (buf : list (option byte)) (count : Z) : M (list (option byte)) :=
  let i := Z.to_nat count in
  if (i <? length buf)%nat then ret (<[i := Some x00]> buf)
  else emit (OutOfBounds (Store i) (length buf));; ret buf.

Inductive scan_end := Terminated | Indeterminate | PastEnd.

(** What [std::string(buf)] copies: the bytes before the first NUL.  The
    scan can also run into a cell never written or off the end of the
    array. *)
Fixpoint c_str (m : list (option byte)) : list byte * scan_end :=
  match m with
  | [] => ([], PastEnd)
  | None :: _ => ([], Indeterminate)
  | Some b :: m' =>
      if Byte.eqb b x00 then ([], Terminated)
      else let '(s, e) := c_str m' in (b :: s, e)
  end.

(** The bytes of a list before its first NUL. *)
Fixpoint until_nul (l : list byte) : list byte :=
  match l with
  | [] => []
  | b :: l' => if Byte.eqb b x00 then [] else b :: until_nul l'
  end.

(** The loads a scan makes outside an array of [size] cells when [n] bytes
    other than NUL lie behind it: one per such byte and one for the NUL that
    stops it. *)
Definition scan_loads (size n : nat) : list effect :=
  (fun i => OutOfBounds (Load (size + i)) size) <$> seq 0 (S n).

(** [std::string(buf)] as the program runs it.  When no NUL lies inside the
    array the scan goes on behind it, which is undefined behaviour: what it
    finds there is not the program's to say (the byte [buf[count] = 0] meant
    to store there need not be what the scan meets), so the environment
    gives it; the text is the array followed by the bytes met before the
    first NUL, and every load outside the array is recorded.  A cell that
    was never written is not reached in this program
    ([scan_meets_no_fresh_cell]). *)
Definition string_of_buf (buf : list (option byte)) : M (list byte) :=
  match c_str buf with
  | (s, Terminated) => ret s
  | (s, Indeterminate) => ret s
  | (s, PastEnd) =>
      let* b := get_boot in
      let stray := until_nul (beyond b s) in
      emits (scan_loads (length buf) (length stray));;
      ret (s ++ stray)
  end.

(** The [while(true)] of [read_input_data]; returns
    [connection_must_be_closed]. *)
Fixpoint read_loop (fuel : nat) (client_socket_fd : Z) : M bool :=
  match fuel with
  | O => still_running
  | S fuel =>
      let buf := fresh_buf in
      let* (count, buf) := sys_read client_socket_fd buf BUF_SIZE in
      if count =? -1 then
        let* e := get_errno in
        if negb (e =? EAGAIN) then
          perror "read";;
          ret true
        else
          ret false
      else if count =? 0 then
        ret true
      else
        let* buf := store_nul buf count in
        let* text := string_of_buf buf in
        print (Incoming client_socket_fd text);;
        read_loop fuel client_socket_fd
  end.

(** Every successful read takes at least one byte off the receive buffer. *)
Definition read_budget (fd : Z) (w : world) : nat :=
  match files w !! fd with
  | Some f =>
      match kind f with
      | KStream rx _ => S (length rx)
      | _ => 1
      end
  | None => 1
  end.

Definition read_input_data (client_socket_fd : Z) : M unit := fun w =>
  (let* connection_must_be_closed :=
     read_loop (read_budget client_socket_fd w) client_socket_fd in
   if connection_must_be_closed then
     print (Closed client_socket_fd);;
     sys_close client_socket_fd;;
     ret tt
   else
     ret tt) w.

Definition MAX_EVENTS : Z := 128.

Definition zero_event : epoll_event := {| events := 0; data_fd := 0 |}.

Definition abnormal (ev : Z) : bool :=
  negb (Z.land ev EPOLLERR =? 0)
  || negb (Z.land ev EPOLLHUP =? 0)
  || (Z.land ev EPOLLIN =? 0).

(** The body of the [for] loop of [event_loop] for one event. *)
Definition handle_event (server_fd efd : Z) (event : epoll_event) : M unit :=
  if abnormal (events event) then
    perror "epoll error";;
    sys_close (data_fd event);;
    ret tt
  else if server_fd =? data_fd event then
    accept_new_connections efd server_fd
  else
    read_input_data (data_fd event).

(** [for(int i = 0; i < new_events_count; i++)], with [todo] the number of
    iterations left. *)
Fixpoint for_events (todo : nat) (i : Z) (server_fd efd : Z)
    (events_buffer : list epoll_event) : M unit :=
  match todo with
  | O => ret tt
  | S todo =>
      let event := nth (Z.to_nat i) events_buffer zero_event in
      handle_event server_fd efd event;;
      for_events todo (i + 1) server_fd efd events_buffer
  end.

(** The outer [while(true)] of [event_loop], cut after [fuel] iterations. *)
Fixpoint event_loop_from (fuel : nat) (server_fd efd : Z)
    (events_buffer : list epoll_event) : M unit :=
  match fuel with
  | O => still_running
  | S fuel =>
      let* (new_events_count, events_buffer) :=
        sys_epoll_wait efd events_buffer MAX_EVENTS in
      for_events (Z.to_nat new_events_count) 0 server_fd efd events_buffer;;
      event_loop_from fuel server_fd efd events_buffer
  end.

Definition event_loop (fuel : nat) (server_fd efd : Z) : M unit :=
  event_loop_from fuel server_fd efd (replicate (Z.to_nat MAX_EVENTS) zero_event).

Definition main (fuel : nat) (argv : list string) : M Z :=
  let argc := Z.of_nat (length argv) in
  if negb (argc =? 2) then
    emit (Stderr (Usage (argv !! 0%nat)));;
    exit EXIT_FAILURE
  else
    let* server_fd := create_server_socket (nth 1 argv "") in
    let* r := sys_listen server_fd SOMAXCONN in
    if r =? -1 then
      perror "listen";;
      throw "call to listen failed"
    else
      let* efd := sys_epoll_create1 in
      if efd =? -1 then
        perror "epoll_create1";;
        throw "call to epoll_create1 failed"
      else
        let* r := sys_epoll_ctl_add efd server_fd (Z.lor EPOLLIN EPOLLET) in
        if r =? -1 then
          perror "epoll_ctl";;
          throw "call to epoll_ctl failed (attempted to add fd)"
        else
          event_loop fuel server_fd efd;;
          sys_close server_fd;;
          ret EXIT_SUCCESS.

(** ** Vocabulary of the statements

    Nothing below is executed by the program: these definitions describe
    traces and outcomes so that the theorems can be stated. *)

Definition world_of {A} (r : result A) : world :=
  match r with
  | Ret _ w | Throw _ w | Exit _ w | Blocked w | Running w => w
  end.

(** What a run starting in [w] has added to the trace. *)
Definition since {A} (w : world) (r : result A) : list effect :=
  drop (length (trace w)) (trace (world_of r)).

Fixpoint occurrences (p : effect -> bool) (l : list effect) : nat :=
  match l with
  | [] => 0
  | e :: l' => (if p e then 1 else 0) + occurrences p l'
  end.

Definition is_close (fd : Z) (e : effect) : bool :=
  match e with
  | Call (c_close fd') _ => fd' =? fd
  | _ => false
  end.

Definition is_closed_line (fd : Z) (e : effect) : bool :=
  match e with
  | Stdout (Closed fd') => fd' =? fd
  | _ => false
  end.

(** Calls that create or set up a listening socket. *)
Definition is_listener_setup (e : effect) : bool :=
  match e with
  | Call (c_socket _ _ _) _ | Call (c_bind _) _ | Call (c_listen _ _) _ => true
  | _ => false
  end.

Definition is_socket_call (e : effect) : bool :=
  match e with
  | Call (c_socket _ _ _) _ => true
  | _ => false
  end.

(** Lengths of the texts of the "incoming data" lines for [fd], in order. *)
Definition logged_sizes (fd : Z) (l : list effect) : list nat :=
  flat_map (fun e => match e with
                     | Stdout (Incoming fd' text) =>
                         if fd' =? fd then [length text] else []
                     | _ => []
                     end) l.

(** Return values of the [read] calls on [fd], in order. *)
Definition read_results (fd : Z) (l : list effect) : list Z :=
  flat_map (fun e => match e with
                     | Call (c_read fd' _) r => if fd' =? fd then [r] else []
                     | _ => []
                     end) l.

(** The texts of the "incoming data" lines for [fd], in order. *)
Definition logged_texts (fd : Z) (l : list effect) : list (list byte) :=
  flat_map (fun e => match e with
                     | Stdout (Incoming fd' text) => if fd' =? fd then [text] else []
                     | _ => []
                     end) l.


Definition has_nul (l : list byte) : bool := existsb (fun b => Byte.eqb b x00) l.

(** What the scan of a completely filled array holding [chunk] meets behind
    it before the first NUL. *)
Definition stray (b : startup) (chunk : list byte) : list byte :=
  until_nul (beyond b chunk).

(** The accesses outside [buf] made while logging a chunk: none for a chunk
    shorter than the array; for a chunk that fills it, the store of the
    terminator and, when the chunk holds no NUL of its own, the loads of the
    scan that looks for one behind the array. *)
Definition overrun (b : startup) (chunk : list byte) : list effect :=
  if (length chunk <? BUF_SIZE)%nat then []
  else OutOfBounds (Store (length chunk)) BUF_SIZE
       :: (if has_nul chunk then []
           else scan_loads BUF_SIZE (length (stray b chunk))).

(** The text logged for a chunk: the chunk up to its first NUL; for a chunk
    that fills the array and holds no NUL, the chunk and what the scan meets
    behind the array. *)
Definition logged_text (b : startup) (chunk : list byte) : list byte :=
  if (length chunk <? BUF_SIZE)%nat || has_nul chunk then until_nul chunk
  else chunk ++ stray b chunk.

(** One successful read of [chunk] and its log line. *)
Definition chunk_effects (b : startup) (fd : Z) (chunk : list byte) : list effect :=
  Call (c_read fd BUF_SIZE) (Z.of_nat (length chunk))
  :: overrun b chunk ++ [Stdout (Incoming fd (logged_text b chunk))].

(** How a read drain pass ends. *)
Inductive drain_end :=
| PeerClosed            (* a read returned 0 *)
| WouldBlock            (* a read failed with EAGAIN *)
| ReadError (e : Z)     (* a read failed with another error *)
| Stuck.                (* a read on a blocking socket never returned *)

Definition last_read (fd : Z) (o : drain_end) : list effect :=
  match o with
  | PeerClosed => [Call (c_read fd BUF_SIZE) 0]
  | WouldBlock => [Call (c_read fd BUF_SIZE) (-1)]
  | ReadError e => [Call (c_read fd BUF_SIZE) (-1); Stderr (Perror "read" e)]
  | Stuck => []
  end.

Definition marks_closure (o : drain_end) : bool :=
  match o with
  | PeerClosed | ReadError _ => true
  | WouldBlock | Stuck => false
  end.

Definition closing (fd : Z) (o : drain_end) (r : Z) : list effect :=
  if marks_closure o then [Stdout (Closed fd); Call (c_close fd) r] else [].

Definition loop_result (o : drain_end) (w : world) : result bool :=
  match o with
  | Stuck => Blocked w
  | _ => Ret (marks_closure o) w
  end.

Definition drain_result (o : drain_end) (w : world) : result unit :=
  match o with
  | Stuck => Blocked w
  | _ => Ret tt w
  end.

Definition sound_end (o : drain_end) (w : world) : Prop :=
  match o with
  | WouldBlock => errno w = EAGAIN
  | ReadError e => errno w = e /\ e <> EAGAIN
  | _ => True
  end.

Definition registration_failure : string :=
  "call to epoll_ctl failed (attempted to add new incoming connection)".

Definition greeting (peer : sockaddr) (fd : Z) : list effect :=
  match peer with
  | Some (h, s) => [Call c_getnameinfo 0; Stdout (Accepted h s fd)]
  | None => [Call c_getnameinfo EAI_FAMILY]
  end.

(** What the acceptor does for one accepted connection before it registers
    the descriptor. *)
Definition welcome (sfd : Z) (c : nat * sockaddr) : list effect :=
  let fd := Z.of_nat c.1 in
  [Call (c_accept sfd) fd; Call (c_setsockopt_reuseport fd) 0]
  ++ greeting c.2 fd
  ++ [Call (c_fcntl_getfl fd) O_RDWR;
      Call (c_fcntl_setfl fd (Z.lor O_RDWR O_NONBLOCK)) 0].

(** The same with the registration call, which returned [status]. *)
Definition accepted_effects (efd sfd : Z) (status : Z) (c : nat * sockaddr) : list effect :=
  welcome sfd c
  ++ [Call (c_epoll_ctl_add efd (Z.of_nat c.1) (Z.lor EPOLLIN EPOLLET)) status].

(** The descriptor table once descriptor [n] has been accepted from the
    listening socket [sfd] (whose file was [f], with [q] left in its queue)
    and made non-blocking. *)
Definition accepted_files (sfd : Z) (f : file) (q : list incoming)
    (n : nat) (rx : list byte) (fin : rx_end) (fs : gmap Z file) : gmap Z file :=
  <[Z.of_nat n := {| flags := Z.lor O_RDWR O_NONBLOCK; kind := KStream rx fin |}]>
    (<[Z.of_nat n := {| flags := O_RDWR; kind := KStream rx fin |}]>
       (<[sfd := with_kind f (KListener q)]> fs)).

(** What [read_input_data] does once its loop has ended. *)
Definition after_read_loop (client_socket_fd : Z) (connection_must_be_closed : bool) : M unit :=
  if connection_must_be_closed then
    print (Closed client_socket_fd);;
    sys_close client_socket_fd;;
    ret tt
  else
    ret tt.

(** How an accept drain pass ends. *)
Inductive accept_end :=
| QueueEmpty                                      (* accept failed with EAGAIN *)
| AcceptError (e : Z)                             (* accept failed with another error *)
| AcceptStuck                                     (* accept on a blocking socket never returned *)
| RegistrationFailed (c : nat * sockaddr) (e : Z). (* epoll_ctl rejected the new descriptor *)

Definition accept_tail (efd sfd : Z) (o : accept_end) : list effect :=
  match o with
  | QueueEmpty => [Call (c_accept sfd) (-1)]
  | AcceptError e => [Call (c_accept sfd) (-1); Stderr (Perror "accept" e)]
  | AcceptStuck => []
  | RegistrationFailed c e =>
      accepted_effects efd sfd (-1) c ++ [Stderr (Perror "epoll_ctl" e)]
  end.

Definition accept_result (o : accept_end) (w : world) : result unit :=
  match o with
  | QueueEmpty | AcceptError _ => Ret tt w
  | AcceptStuck => Blocked w
  | RegistrationFailed _ _ => Throw registration_failure w
  end.

Definition sound_accept_end (o : accept_end) (w : world) : Prop :=
  match o with
  | QueueEmpty => errno w = EAGAIN
  | AcceptError e => errno w = e /\ e <> EAGAIN
  | _ => True
  end.

(** The events of a batch handled one after the other, first to last. *)
Fixpoint handle_all (server_fd efd : Z) (evs : list epoll_event) : M unit :=
  match evs with
  | [] => ret tt
  | ev :: evs' => handle_event server_fd efd ev;; handle_all server_fd efd evs'
  end.

(** The computation did not come to its end: it threw, exited, blocked or
    is still looping. *)
Definition does_not_return {A} (r : result A) : Prop :=
  match r with
  | Ret _ _ => False
  | _ => True
  end.

(** The only way out of the reactor other than blocking: the exception of a
    rejected registration, raised right after its diagnostic. *)
Definition only_registration_throws {A} (efd sfd : Z) (r : result A) : Prop :=
  match r with
  | Throw what w =>
      what = registration_failure /\
      exists pre c e,
        trace w = pre ++ accepted_effects efd sfd (-1) c ++ [Stderr (Perror "epoll_ctl" e)]
  | Exit _ _ => False
  | Ret _ _ | Blocked _ | Running _ => True
  end.

(** What stays ready on the epoll instance after a wait handed out the
    first events of a batch. *)
Definition requeue (later : list epoll_event) (rest : list wait_item) : list wait_item :=
  match later with
  | [] => rest
  | _ => Batch later :: rest
  end.

(** The routing of an event as the design describes it, on the bits of the
    mask: bit 3 is error, bit 4 is hangup, bit 0 is readable. *)
Inductive route := Abnormal | ToAcceptor | ToReader.

Definition classify (server_fd : Z) (ev : epoll_event) : route :=
  if Z.testbit (events ev) 3 || Z.testbit (events ev) 4 || negb (Z.testbit (events ev) 0)
  then Abnormal
  else if decide (data_fd ev = server_fd) then ToAcceptor
  else ToReader.

(** Whatever the state, [m] only appends to the trace, and at most [n] of
    the effects it appends satisfy [p]. *)
Definition at_most {A} (p : effect -> bool) (n : nat) (m : M A) : Prop :=
  forall w, exists l,
    trace (world_of (m w)) = trace w ++ l /\ (occurrences p l <= n)%nat.

(** The effects of the steady state: everything but the calls that set a
    listening socket up and the usage message. *)
Definition steady_state_effect (e : effect) : Prop :=
  match e with
  | Call (c_getaddrinfo _) _ | Call c_freeaddrinfo _ | Call (c_socket _ _ _) _
  | Call (c_bind _) _ | Call (c_listen _ _) _ | Call c_epoll_create1 _ => False
  | Stderr (Usage _) => False
  | _ => True
  end.

(** ** Concrete situations used as examples *)

(** An environment in which nothing can be set up and nothing arrives. *)
(** What lay behind the chunk buffer in a run of the default build: the six
    low bytes of a stack address, then NUL. *)
Definition stack_bytes : list byte :=
  [xd0; x5c; xff; xff; xff; x7f; x00; x00]%byte.

Definition idle_boot : startup :=
  {| resolve := fun _ => None;
     gai_error := fun _ => 8%positive;
     gai_errno := fun _ => Some ENOENT;
     beyond := fun _ => stack_bytes;
     socket_res := inr 24;
     bind_res := None;
     listen_res := None;
     epoll_create_res := inr 24;
     inbound := [];
     watch_limit := 0;
     wakeups := [] |}.

Definition world_with (fs : gmap Z file) : world :=
  {| files := fs; errno := 0; trace := []; boot := idle_boot |}.

(** A connected, non-blocking socket. *)
Definition stream_file (rx : list byte) (fin : rx_end) : file :=
  {| flags := Z.lor O_RDWR O_NONBLOCK; kind := KStream rx fin |}.

(** Descriptor 5 holds exactly 512 bytes, all ['a']. *)
Definition full_chunk_world : world :=
  world_with {[ 5 := stream_file (replicate 512 "a"%byte) RxOpen ]}.

(** Descriptor 5 holds 1500 bytes of text. *)
Definition text_world : world :=
  world_with {[ 5 := stream_file (replicate 1500 "a"%byte) RxOpen ]}.


Definition inet_any : addrinfo :=
  {| ai_family := AF_INET; ai_socktype := SOCK_STREAM; ai_protocol := 6; ai_addr := 8080 |}.

(** An environment in which the server starts on descriptors 3 (listening
    socket) and 4 (epoll instance). *)
Definition boot_with (inb : list incoming) (limit : nat) (wk : list wait_item) : startup :=
  {| resolve := fun _ => Some inet_any;
     gai_error := fun _ => 8%positive;
     gai_errno := fun _ => None;
     beyond := fun _ => stack_bytes;
     socket_res := inl 3%nat;
     bind_res := None;
     listen_res := None;
     epoll_create_res := inl 4%nat;
     inbound := inb;
     watch_limit := limit;
     wakeups := wk |}.

Definition fresh_process (b : startup) : world :=
  {| files := ∅; errno := 0; trace := []; boot := b |}.

Definition readable (fd : Z) : epoll_event := {| events := EPOLLIN; data_fd := fd |}.
Definition hung_up (fd : Z) : epoll_event :=
  {| events := Z.lor EPOLLIN EPOLLHUP; data_fd := fd |}.

Definition listener_file (q : list incoming) : file :=
  {| flags := Z.lor O_RDWR O_NONBLOCK; kind := KListener q |}.

Definition epoll_file (limit : nat) (interest : list (Z * Z)) (ready : list wait_item) : file :=
  {| flags := O_RDWR; kind := KEpoll limit interest ready |}.

Definition a_peer : sockaddr := Some ("10.0.0.7", "40000").

(** One client connects while the epoll instance can watch a single
    descriptor, which the listening socket already is. *)
Definition crowded_boot : startup :=
  boot_with [Pending 5 a_peer [] RxOpen] 1 [Batch [readable 3]].

(** The listening socket is reported hung up, then readable. *)
Definition hangup_boot : startup :=
  boot_with [] 8 [Batch [hung_up 3]; Batch [readable 3]].

(** A running server: listening socket 3, epoll instance 4, one connection 5
    with two bytes waiting, and [rdy] ready on the epoll instance. *)
Definition serving_world (q : list incoming) (rdy : list wait_item) : world :=
  world_with (<[3 := listener_file q]>
              (<[4 := epoll_file 8 [(3, Z.lor EPOLLIN EPOLLET); (5, Z.lor EPOLLIN EPOLLET)] rdy]>
               {[ 5 := stream_file ["h"%byte; "i"%byte] RxOpen ]})).

(** ** Vocabulary of the further properties *)

(** A receive buffer cut into the chunks successive reads of [BUF_SIZE]
    bytes return; [n] bounds the number of chunks. *)
Fixpoint split_chunks (n : nat) (rx : list byte) : list (list byte) :=
  match n with
  | O => []
  | S n' =>
      match rx with
      | [] => []
      | _ => take BUF_SIZE rx :: split_chunks n' (drop BUF_SIZE rx)
      end
  end.

Definition chunks (rx : list byte) : list (list byte) := split_chunks (length rx) rx.

(** How a pass over a connected socket ends, from what the socket answers
    once it is drained. *)
Definition stream_end (f : file) (fin : rx_end) : drain_end :=
  match fin with
  | RxOpen => if is_nonblocking f then WouldBlock else Stuck
  | RxEof => PeerClosed
  | RxErr e => if e =? EAGAIN then WouldBlock else ReadError e
  end.

(** The return value of the read that ends a pass, if one returns. *)
Definition final_read (o : drain_end) : list Z :=
  match o with
  | PeerClosed => [0]
  | WouldBlock | ReadError _ => [-1]
  | Stuck => []
  end.

Definition is_out_of_bounds (e : effect) : bool :=
  match e with
  | OutOfBounds _ _ => true
  | _ => false
  end.

Definition is_overrun_store (e : effect) : bool :=
  match e with
  | OutOfBounds (Store _) _ => true
  | _ => false
  end.

Definition is_wait (e : effect) : bool :=
  match e with
  | Call (c_epoll_wait _ _) _ => true
  | _ => false
  end.

(** A connection waiting in the accept queue. *)
Record arrival :=
  { arr_fd : nat; arr_peer : sockaddr; arr_rx : list byte; arr_fin : rx_end }.

Definition to_pending (a : arrival) : incoming :=
  Pending (arr_fd a) (arr_peer a) (arr_rx a) (arr_fin a).

Definition to_conn (a : arrival) : nat * sockaddr := (arr_fd a, arr_peer a).

Definition to_watch (a : arrival) : Z * Z := (Z.of_nat (arr_fd a), Z.lor EPOLLIN EPOLLET).

(** A start-up environment in which name resolution works and the other
    set-up calls answer as given. *)
Definition boot_answering (sock : nat + Z) (bnd lst : option Z) (ep : nat + Z)
    (limit : nat) : startup :=
  {| resolve := fun _ => Some inet_any;
     gai_error := fun _ => 8%positive; gai_errno := fun _ => None;
     beyond := fun _ => stack_bytes;
     socket_res := sock; bind_res := bnd;
     listen_res := lst; epoll_create_res := ep;
     inbound := []; watch_limit := limit; wakeups := [] |}.

(** The descriptor table [main] hands to the event loop: the listening
    socket [s] with the connections waiting at start, and the epoll instance
    [e] watching [s] alone. *)
Definition serving_files (b : startup) (s e : Z) (fs : gmap Z file) : gmap Z file :=
  <[e := epoll_file (watch_limit b) [(s, Z.lor EPOLLIN EPOLLET)] (wakeups b)]>
    (<[s := listener_file (inbound b)]> fs).

(** The calls of a start-up in which [create_server_socket] succeeds. *)
Definition socket_calls (port : string) (ai : addrinfo) (s : Z) : list effect :=
  [Call (c_getaddrinfo port) 0;
   Call (c_socket (ai_family ai) (ai_socktype ai) (ai_protocol ai)) s;
   Call (c_bind s) 0;
   Call c_freeaddrinfo 0;
   Call (c_fcntl_getfl s) O_RDWR;
   Call (c_fcntl_setfl s (Z.lor O_RDWR O_NONBLOCK)) 0].

Definition startup_calls (port : string) (ai : addrinfo) (s e : Z) : list effect :=
  socket_calls port ai s ++
  [Call (c_listen s SOMAXCONN) 0;
   Call c_epoll_create1 e;
   Call (c_epoll_ctl_add e s (Z.lor EPOLLIN EPOLLET)) 0].

(** The bound, non-blocking socket [create_server_socket] leaves at [s]. *)
Definition bound_socket : file :=
  {| flags := Z.lor O_RDWR O_NONBLOCK; kind := KSocket true |}.

(** The exceptions of the program: the name each diagnostic is printed
    under, and the message thrown after it. *)
Definition failure_messages : list (string * string) :=
  [("getaddrinfo", "call to getaddrinfo failed");
   ("socket", "call to socket failed");
   ("bind", "call to bind failed");
   ("listen", "call to listen failed");
   ("epoll_create1", "call to epoll_create1 failed");
   ("epoll_ctl", "call to epoll_ctl failed (attempted to add fd)");
   ("epoll_ctl", registration_failure)].

(** An exception is diagnosed when the last thing written before it is the
    [perror] line that goes with its message. *)
Definition announced (what : string) (w : world) : Prop :=
  match last (trace w) with
  | Some (Stderr (Perror tag _)) => In (tag, what) failure_messages
  | _ => False
  end.

Definition diagnosed {A} (r : result A) : Prop :=
  match r with
  | Throw what w => announced what w
  | Exit _ _ => False
  | Ret _ _ | Blocked _ | Running _ => True
  end.

(** A computation that neither throws nor exits. *)
Definition plain {A} (m : M A) : Prop :=
  forall w, match m w with
            | Ret _ _ | Blocked _ => True
            | _ => False
            end.

(** Two connections waiting on listening socket 3, the epoll instance 4
    watching that socket only. *)
Definition two_arrivals : list arrival :=
  [ {| arr_fd := 5; arr_peer := a_peer; arr_rx := ["h"%byte; "i"%byte]; arr_fin := RxOpen |};
    {| arr_fd := 6; arr_peer := None; arr_rx := []; arr_fin := RxEof |} ].

Definition queue_world : world :=
  world_with (<[3 := listener_file (to_pending <$> two_arrivals)]>
                {[ 4 := epoll_file 8 [(3, Z.lor EPOLLIN EPOLLET)] [] ]}).

(** Whether [efd] names an epoll instance. *)
Definition is_epoll (fs : gmap Z file) (efd : Z) : bool :=
  match fs !! efd with
  | Some f => match kind f with KEpoll _ _ _ => true | _ => false end
  | None => false
  end.

(** The error of a wait on a descriptor that is no epoll instance. *)
Definition wait_errno (fs : gmap Z file) (efd : Z) : Z :=
  match fs !! efd with
  | Some _ => EINVAL
  | None => EBADF
  end.

(** A socket on which [accept] or [read] could put the process to sleep. *)
Definition may_block (f : file) : bool :=
  match kind f with
  | KListener _ | KStream _ _ => negb (is_nonblocking f)
  | _ => false
  end.

(** Every listening or connected socket of the table is non-blocking;
    the same but for descriptor [x]. *)
Definition sockets_ok (fs : gmap Z file) : Prop :=
  map_Forall (fun _ f => may_block f = false) fs.

Definition sockets_ok_but (x : Z) (fs : gmap Z file) : Prop :=
  map_Forall (fun fd f => fd <> x -> may_block f = false) fs.

Definition nonblocking_at (x : Z) (fs : gmap Z file) : Prop :=
  forall f, fs !! x = Some f -> is_nonblocking f = true.

(** Nothing is ready on the epoll instance [efd]. *)
Definition idle (efd : Z) (fs : gmap Z file) : Prop :=
  exists e lim int, fs !! efd = Some e /\ kind e = KEpoll lim int [].

(** What holds of a result: [Q] if the computation returned, [B] if it
    went to sleep in a call. *)
Definition post {A} (Q : A -> world -> Prop) (B : world -> Prop) (r : result A) : Prop :=
  match r with
  | Ret a w => Q a w
  | Blocked w => B w
  | _ => True
  end.

Definition never : world -> Prop := fun _ => False.

(** A computation that returns and leaves the descriptor table alone. *)
Definition silent {A} (m : M A) : Prop :=
  forall w, exists a w', m w = Ret a w' /\ files w' = files w.

(** The calls of the program carry the constants of the source, written
    here as the numbers they stand for: a [read] asks for 512 bytes, a wait
    for 128 events, [listen] for a backlog of 4096 ([SOMAXCONN]); a
    registration is for 2147483649, that is [EPOLLIN | EPOLLET]; flags are
    written with bit 11 set (2048, [O_NONBLOCK]); an access outside the
    chunk buffer of 512 cells is the store at index 512, or a load at an
    index from 512 on. *)
Definition expected (e : effect) : bool :=
  match e with
  | Call (c_read _ n) _ => (n =? 512)%nat
  | Call (c_epoll_wait _ m) _ => m =? 128
  | Call (c_epoll_ctl_add _ _ ev) _ => ev =? 2147483649
  | Call (c_listen _ b) _ => b =? 4096
  | Call (c_fcntl_setfl _ fl) _ => Z.testbit fl 11
  | OutOfBounds (Store i) size => (i =? 512)%nat && (size =? 512)%nat
  | OutOfBounds (Load i) size => (512 <=? i)%nat && (size =? 512)%nat
  | _ => true
  end.

Definition unexpected (e : effect) : bool := negb (expected e).



(** * Examples

    The model run on small situations. *)

(** A client sends "ping" and shuts down: the chunk is logged, then the
    closure, and the descriptor is gone. *)
Example ping_then_close :
  let w := world_with {[ 5 := stream_file ["p"; "i"; "n"; "g"]%byte RxEof ]} in
  since w (read_input_data 5 w)
  = [Call (c_read 5 512) 4; Stdout (Incoming 5 ["p"; "i"; "n"; "g"]%byte);
     Call (c_read 5 512) 0; Stdout (Closed 5); Call (c_close 5) 0]
  /\ files (world_of (read_input_data 5 w)) !! 5 = None.
Proof. split; vm_compute; reflexivity. Qed.

(** A connection reset by its peer (ECONNRESET is 104), next to another one
    that stays as it is. *)
Example reset_leaves_the_others :
  let w := world_with (<[5 := stream_file [] (RxErr 104)]>
                         {[ 6 := stream_file ["o"; "k"]%byte RxOpen ]}) in
  since w (read_input_data 5 w)
  = [Call (c_read 5 512) (-1); Stderr (Perror "read" 104);
     Stdout (Closed 5); Call (c_close 5) 0]
  /\ files (world_of (read_input_data 5 w)) !! 6
     = Some (stream_file ["o"; "k"]%byte RxOpen).
Proof. split; vm_compute; reflexivity. Qed.

(** An idle listener: the accept pass makes one call and logs nothing. *)
Example idle_listener :
  since (serving_world [] []) (accept_new_connections 4 3 (serving_world [] []))
  = [Call (c_accept 3) (-1)].
Proof. vm_compute. reflexivity. Qed.

(** A chunk of 511 bytes fits the buffer with its terminator. *)
Example chunk_of_511 :
  let w := world_with {[ 5 := stream_file (replicate 511 "a"%byte) RxOpen ]} in
  since w (read_input_data 5 w)
  = [Call (c_read 5 512) 511; Stdout (Incoming 5 (replicate 511 "a"%byte));
     Call (c_read 5 512) (-1)].
Proof. vm_compute. reflexivity. Qed.

(** A chunk of 512 bytes does not: the terminator is stored behind the
    array, and the scan for it reads on there, here through six stray bytes
    that end up in the logged text. *)
Example chunk_of_512 :
  since full_chunk_world (read_input_data 5 full_chunk_world)
  = [Call (c_read 5 512) 512;
     OutOfBounds (Store 512) 512;
     OutOfBounds (Load 512) 512; OutOfBounds (Load 513) 512; OutOfBounds (Load 514) 512;
     OutOfBounds (Load 515) 512; OutOfBounds (Load 516) 512; OutOfBounds (Load 517) 512;
     OutOfBounds (Load 518) 512;
     Stdout (Incoming 5 (replicate 512 "a"%byte ++ [xd0; x5c; xff; xff; xff; x7f]%byte));
     Call (c_read 5 512) (-1)].
Proof. vm_compute. reflexivity. Qed.

(** 1500 bytes of text, as in a run of the default build: the lines of the
    two full chunks carry six bytes more than was read. *)
Example text_of_1500 :
  read_results 5 (since text_world (read_input_data 5 text_world)) = [512; 512; 476; -1] /\
  logged_sizes 5 (since text_world (read_input_data 5 text_world)) = [518; 518; 476]%nat.
Proof. split; vm_compute; reflexivity. Qed.

(** The start of the server when everything goes well and nothing happens. *)
Example quiet_start :
  main 1 ["server"; "8080"] (fresh_process (boot_with [] 8 []))
  = Blocked
      {| files := <[4 := epoll_file 8 [(3, Z.lor EPOLLIN EPOLLET)] []]>
                    {[ 3 := listener_file [] ]};
         errno := 0;
         trace := [Call (c_getaddrinfo "8080") 0; Call (c_socket 2 1 6) 3;
                   Call (c_bind 3) 0; Call c_freeaddrinfo 0;
                   Call (c_fcntl_getfl 3) 2; Call (c_fcntl_setfl 3 2050) 0;
                   Call (c_listen 3 4096) 0; Call c_epoll_create1 4;
                   Call (c_epoll_ctl_add 4 3 2147483649) 0];
         boot := boot_with [] 8 [] |}.
Proof. vm_compute. reflexivity. Qed.

(** * Proofs *)

(** ** States and the monad *)

Lemma logged_nil w : logged w [] = w.
Proof. destruct w. unfold logged. simpl. by rewrite app_nil_r. Qed.

Lemma logged_logged w a b : logged (logged w a) b = logged w (a ++ b).
Proof. unfold logged. simpl. by rewrite app_assoc. Qed.

Lemma with_files_logged w l fs : with_files (logged w l) fs = logged (with_files w fs) l.
Proof. reflexivity. Qed.

Lemma with_errno_logged w l e : with_errno (logged w l) e = logged (with_errno w e) l.
Proof. reflexivity. Qed.

Lemma with_files_errno w e fs : with_files (with_errno w e) fs = with_errno (with_files w fs) e.
Proof. reflexivity. Qed.

Lemma with_files_files w a b : with_files (with_files w a) b = with_files w b.
Proof. reflexivity. Qed.

Lemma with_errno_errno w a b : with_errno (with_errno w a) b = with_errno w b.
Proof. reflexivity. Qed.

Create Rewrite HintDb world.
#[local] Hint Rewrite logged_logged with_files_logged with_errno_logged
  with_files_errno with_files_files with_errno_errno : world.

(** Bring a state to the form [logged (with_errno (with_files w _) _) _]. *)
Ltac wnorm := autorewrite with world; cbn [app].

(** Run the straight-line part of a program on the state it is applied to. *)
Ltac run := cbn [bind ret throw exit block still_running get_files set_files get_errno
                 set_errno get_boot emit emits ok fail perror print].

Lemma bind_Ret {A B} (m : M A) (k : A -> M B) w a w' :
  m w = Ret a w' -> bind m k w = k a w'.
Proof. unfold bind. by intros ->. Qed.

Lemma since_app {A} (w : world) (r : result A) l :
  trace (world_of r) = trace w ++ l -> since w r = l.
Proof. unfold since. intros ->. by rewrite drop_app_length. Qed.

Lemma occurrences_app p l1 l2 :
  occurrences p (l1 ++ l2) = (occurrences p l1 + occurrences p l2)%nat.
Proof. induction l1 as [|e l1 IH]; cbn [occurrences app]; lia. Qed.

Lemma occurrences_flat_map {X} p (f : X -> list effect) xs :
  (forall x, occurrences p (f x) = 0%nat) ->
  occurrences p (flat_map f xs) = 0%nat.
Proof.
  intros Hf. induction xs as [|x xs IH]; cbn [flat_map occurrences]; [done|].
  rewrite occurrences_app, Hf, IH. done.
Qed.

(** ** The chunk buffer *)

Lemma c_str_app chunk rest :
  c_str ((Some <$> chunk) ++ rest) =
  if has_nul chunk then (until_nul chunk, Terminated)
  else (until_nul chunk ++ (c_str rest).1, (c_str rest).2).
Proof.
  induction chunk as [|b chunk IH].
  - simpl. by destruct (c_str rest).
  - rewrite fmap_cons.
    change ((Some b :: (Some <$> chunk)) ++ rest) with (Some b :: ((Some <$> chunk) ++ rest)).
    cbn [c_str has_nul existsb until_nul].
    destruct (Byte.eqb b x00); cbn [orb]; [done|].
    rewrite IH. fold (has_nul chunk). by destruct (has_nul chunk).
Qed.

Lemma until_nul_id chunk : has_nul chunk = false -> until_nul chunk = chunk.
Proof.
  induction chunk as [|b chunk IH]; simpl; [done|].
  destruct (Byte.eqb b x00); simpl; [done|]. intros H. by rewrite IH.
Qed.


Lemma copy_out_fresh chunk :
  copy_out chunk fresh_buf = (Some <$> chunk) ++ replicate (BUF_SIZE - length chunk) None.
Proof. unfold copy_out, fresh_buf. by rewrite drop_replicate. Qed.

(** Storing the terminator and building the string, for a chunk that [read]
    has just put into a fresh buffer. *)
Lemma log_chunk {A} (k : list byte -> M A) chunk w :
  (length chunk <= BUF_SIZE)%nat ->
  (let* buf := store_nul (copy_out chunk fresh_buf) (Z.of_nat (length chunk)) in
   let* text := string_of_buf buf in k text) w
  = k (logged_text (boot w) chunk) (logged w (overrun (boot w) chunk)).
Proof.
  intros Hlen. rewrite copy_out_fresh. unfold store_nul, overrun, logged_text.
  rewrite Nat2Z.id, length_app, length_fmap, length_replicate.
  destruct (Nat.ltb_spec (length chunk) BUF_SIZE) as [Hlt|Hge].
  - replace (length chunk <? length chunk + (BUF_SIZE - length chunk))%nat with true
      by (symmetry; apply Nat.ltb_lt; lia).
    cbn [orb]. unfold bind at 1, ret at 1.
    rewrite insert_app_r_alt by (rewrite length_fmap; lia).
    rewrite length_fmap, Nat.sub_diag.
    destruct (BUF_SIZE - length chunk)%nat as [|n] eqn:E; [lia|].
    cbn [replicate]. cbn [insert list_insert].
    unfold string_of_buf. rewrite c_str_app.
    destruct (has_nul chunk) eqn:Hn.
    + unfold bind, ret. by rewrite logged_nil.
    + change (c_str (Some x00 :: replicate n None)) with (@nil byte, Terminated).
      cbn [fst snd]. rewrite app_nil_r. unfold bind, ret. by rewrite logged_nil.
  - assert (length chunk = BUF_SIZE) as E by lia.
    replace (length chunk <? length chunk + (BUF_SIZE - length chunk))%nat with false
      by (symmetry; apply Nat.ltb_ge; lia).
    replace (BUF_SIZE - length chunk)%nat with 0%nat by lia.
    cbn [replicate orb]. rewrite Nat.add_0_r.
    cbn [bind emit ret].
    unfold string_of_buf. rewrite c_str_app.
    destruct (has_nul chunk) eqn:Hn.
    + cbn [bind ret]. by rewrite E.
    + cbn [c_str fst snd]. rewrite app_nil_r, (until_nul_id chunk Hn).
      cbn [bind ret emits get_boot boot logged].
      rewrite ?app_nil_r, length_fmap, E, logged_logged. done.
Qed.

(** The scan never gets to a cell that [read] did not write: the terminator
    comes first, or the end of the array. *)
Lemma scan_meets_no_fresh_cell chunk w :
  (length chunk <= BUF_SIZE)%nat ->
  match store_nul (copy_out chunk fresh_buf) (Z.of_nat (length chunk)) w with
  | Ret buf _ => (c_str buf).2 <> Indeterminate
  | _ => False
  end.
Proof.
  intros Hlen. rewrite copy_out_fresh. unfold store_nul.
  rewrite Nat2Z.id, length_app, length_fmap, length_replicate.
  destruct (Nat.ltb_spec (length chunk) (length chunk + (BUF_SIZE - length chunk))) as [Hlt|Hge].
  - cbn [ret]. rewrite insert_app_r_alt by (rewrite length_fmap; lia).
    rewrite length_fmap, Nat.sub_diag.
    destruct (BUF_SIZE - length chunk)%nat as [|n] eqn:E; [lia|].
    cbn [replicate]. cbn [insert list_insert]. rewrite c_str_app.
    by destruct (has_nul chunk).
  - replace (BUF_SIZE - length chunk)%nat with 0%nat by lia.
    cbn [replicate bind emit ret]. rewrite c_str_app.
    by destruct (has_nul chunk).
Qed.

(** ** The read loop *)

Lemma take_buf_bounds (rx : list byte) :
  rx <> [] -> (0 < length (take BUF_SIZE rx) <= BUF_SIZE)%nat.
Proof.
  intros H. rewrite length_take. destruct rx; [done|].
  cbn [length]. unfold BUF_SIZE. lia.
Qed.

(** One iteration on a socket with data: a chunk is read and logged, and the
    loop goes on. *)
Lemma read_loop_data fuel fd w f rx fin :
  files w !! fd = Some f ->
  kind f = KStream rx fin ->
  rx <> [] ->
  read_loop (S fuel) fd w =
  read_loop fuel fd
    (logged (with_files w (<[fd := with_kind f (KStream (drop BUF_SIZE rx) fin)]> (files w)))
            (chunk_effects (boot w) fd (take BUF_SIZE rx))).
Proof.
  intros Hf Hk Hrx. pose proof (take_buf_bounds rx Hrx) as Hb.
  destruct rx as [|b rx]; [done|].
  cbn [read_loop]. unfold sys_read. unfold bind at 1 2, get_files. rewrite Hf, Hk. run.
  destruct (Z.eqb_spec (Z.of_nat (length (take BUF_SIZE (b :: rx)))) (-1)) as [E|_]; [lia|].
  destruct (Z.eqb_spec (Z.of_nat (length (take BUF_SIZE (b :: rx)))) 0) as [E|_]; [lia|].
  rewrite log_chunk by lia. run.
  rewrite !logged_logged. reflexivity.
Qed.

Ltac finish :=
  split; [reflexivity|];
  cbn [trace errno boot files logged with_errno with_files flat_map last_read sound_end app];
  rewrite <- ?app_assoc, ?app_nil_r;
  repeat split; try done.

Ltac enter_read Hf :=
  cbn [read_loop]; unfold sys_read; unfold bind at 1 2, get_files;
  rewrite Hf; run.

(** The loop ends, and in one of four ways; until then it only reads and
    logs chunks, and it touches no descriptor but its own. *)
Lemma read_loop_spec fuel : forall fd w,
  (read_budget fd w <= fuel)%nat ->
  exists chunks o w',
    read_loop fuel fd w = loop_result o w' /\
    trace w' = trace w ++ flat_map (chunk_effects (boot w) fd) chunks ++ last_read fd o /\
    sound_end o w' /\
    boot w' = boot w /\
    Forall (fun c => (0 < length c <= BUF_SIZE)%nat) chunks /\
    (o = WouldBlock -> is_Some (files w' !! fd)) /\
    (forall fd', fd' <> fd -> files w' !! fd' = files w !! fd').
Proof.
  induction fuel as [|fuel IH]; intros fd w Hfuel.
  { unfold read_budget in Hfuel. destruct (files w !! fd) as [f|]; [destruct (kind f)|]; lia. }
  destruct (files w !! fd) as [f|] eqn:Hf.
  2:{ exists [], (ReadError EBADF). eexists. enter_read Hf. cbn. finish. }
  destruct (kind f) as [bound|q|rx fin|lim int rdy] eqn:Hk.
  1,2,4: eexists [], (ReadError _); eexists; enter_read Hf; rewrite Hk; run; cbn; finish; by rewrite Hf.
  destruct rx as [|b rx].
  - destruct fin as [| |e].
    + destruct (is_nonblocking f) eqn:Hnb.
      * exists [], WouldBlock. eexists. enter_read Hf. rewrite Hk, Hnb. run. cbn. finish; by rewrite Hf.
      * exists [], Stuck. eexists. enter_read Hf. rewrite Hk, Hnb. run. cbn. finish; by rewrite Hf.
    + exists [], PeerClosed. eexists. enter_read Hf. rewrite Hk. run. cbn. finish; by rewrite Hf.
    + destruct (Z.eqb_spec e EAGAIN) as [E|E].
      * exists [], WouldBlock. eexists. enter_read Hf. rewrite Hk. run.
        change (-1 =? -1) with true. run. cbn [errno with_errno logged].
        rewrite (proj2 (Z.eqb_eq e EAGAIN) E). cbn [negb]. run. finish; by rewrite Hf.
      * eexists [], (ReadError e). eexists. enter_read Hf. rewrite Hk. run.
        change (-1 =? -1) with true. run. cbn [errno with_errno logged].
        rewrite (proj2 (Z.eqb_neq e EAGAIN) E). cbn [negb]. run.
        rewrite !logged_logged. finish; by rewrite Hf.
  - rewrite (read_loop_data _ _ _ _ _ _ Hf Hk) by done.
    destruct (IH fd (logged (with_files w (<[fd := with_kind f (KStream (drop BUF_SIZE (b :: rx)) fin)]> (files w)))
            (chunk_effects (boot w) fd (take BUF_SIZE (b :: rx)))))
      as (chunks & o & w' & Hr & Ht & Hs & Hb & Hc & Hopen & Hother).
    { unfold read_budget in *. cbn [files logged with_files].
      rewrite lookup_insert_eq. cbn [kind with_kind].
      rewrite Hf, Hk in Hfuel. rewrite length_drop. cbn [length] in *. unfold BUF_SIZE. lia. }
    exists (take BUF_SIZE (b :: rx) :: chunks), o, w'.
    split; [done|]. split.
    { rewrite Ht. cbn [trace logged with_files flat_map]. by rewrite <- !app_assoc. }
    split; [done|]. split; [done|].
    split; [constructor; [by apply take_buf_bounds | done]|].
    split; [done|].
    intros fd' Hne. rewrite Hother by done. cbn [files logged with_files].
      by rewrite lookup_insert_ne.
Qed.

(** ** Closing a descriptor *)

Lemma sys_close_cases fd w :
  exists r w',
    sys_close fd w = Ret r w' /\
    trace w' = trace w ++ [Call (c_close fd) r] /\
    boot w' = boot w /\
    files w' !! fd = None /\
    (forall fd', fd' <> fd -> files w' !! fd' = forget fd <$> files w !! fd' \/
                              files w' !! fd' = files w !! fd') /\
    (is_Some (files w !! fd) -> r = 0).
Proof.
  unfold sys_close. unfold bind at 1, get_files.
  destruct (files w !! fd) as [f|] eqn:Hf.
  - exists 0. eexists. run. split; [reflexivity|].
    cbn [trace boot files logged with_files].
    split; [done|]. split; [done|].
    split; [by rewrite lookup_fmap, lookup_delete_eq|].
    split; [|done].
    intros fd' Hne. left. by rewrite lookup_fmap, lookup_delete_ne.
  - exists (-1). eexists. run. split; [reflexivity|].
    cbn [trace boot files logged with_files with_errno].
    split; [done|]. split; [done|]. split; [done|].
    split; [intros fd' Hne; by right|].
    by intros [? ?].
Qed.

(** ** The read drain routine *)

Lemma read_input_data_unfold fd w :
  read_input_data fd w
  = (let* b := read_loop (read_budget fd w) fd in after_read_loop fd b) w.
Proof. reflexivity. Qed.

Lemma read_then_close fuel fd w :
  (read_budget fd w <= fuel)%nat ->
  exists chunks o r w',
    (let* b := read_loop fuel fd in after_read_loop fd b) w = drain_result o w' /\
    trace w' = trace w ++ flat_map (chunk_effects (boot w) fd) chunks
                       ++ last_read fd o ++ closing fd o r /\
    Forall (fun c => (0 < length c <= BUF_SIZE)%nat) chunks /\
    boot w' = boot w /\
    match o with
    | PeerClosed => files w' !! fd = None
    | WouldBlock => errno w' = EAGAIN /\ is_Some (files w' !! fd)
    | ReadError e => e <> EAGAIN /\ files w' !! fd = None
    | Stuck => True
    end.
Proof.
  intros Hfuel.
  destruct (read_loop_spec fuel fd w Hfuel)
    as (chunks & o & w1 & Hr & Ht & Hs & Hb & Hc & Hopen & Hother).
  destruct (sys_close_cases fd (logged w1 [Stdout (Closed fd)]))
    as (r & w2 & Hcl & Htc & Hbc & Hgone & _ & _).
  unfold bind at 1. rewrite Hr.
  destruct o as [| |e|]; cbn [loop_result marks_closure after_read_loop drain_result].
  - exists chunks, PeerClosed, r, w2. run. rewrite (bind_Ret _ _ _ _ _ Hcl). run.
    split; [done|]. split.
    { rewrite Htc. cbn [trace logged]. rewrite Ht. unfold closing. cbn [marks_closure last_read].
      rewrite <- !app_assoc. reflexivity. }
    split; [done|]. split; [by rewrite Hbc|]. done.
  - exists chunks, WouldBlock, 0, w1. run.
    split; [done|]. split.
    { rewrite Ht. unfold closing. cbn [marks_closure last_read]. by rewrite ?app_nil_r. }
    split; [done|]. split; [done|]. split; [done|]. by apply Hopen.
  - exists chunks, (ReadError e), r, w2. run. rewrite (bind_Ret _ _ _ _ _ Hcl). run.
    split; [done|]. split.
    { rewrite Htc. cbn [trace logged]. rewrite Ht. unfold closing. cbn [marks_closure last_read].
      rewrite <- !app_assoc. reflexivity. }
    split; [done|]. split; [by rewrite Hbc|]. split; [apply Hs | done].
  - exists chunks, Stuck, 0, w1.
    split; [done|]. split.
    { rewrite Ht. unfold closing. cbn [marks_closure last_read]. by rewrite ?app_nil_r. }
    split; [done|]. split; [done|]. done.
Qed.

Lemma flat_map_scan_loads {X} (f : effect -> list X) size n :
  (forall a, f (OutOfBounds a size) = []) -> flat_map f (scan_loads size n) = [].
Proof.
  intros Hf. unfold scan_loads. induction (seq 0 (S n)) as [|i l IH]; [done|].
  rewrite fmap_cons. cbn [flat_map]. by rewrite Hf, IH.
Qed.

Lemma occurrences_scan_loads p size n :
  (forall i, p (OutOfBounds (Load i) size) = false) ->
  occurrences p (scan_loads size n) = 0%nat.
Proof.
  intros Hp. unfold scan_loads. induction (seq 0 (S n)) as [|i l IH]; [done|].
  rewrite fmap_cons. cbn [occurrences]. by rewrite Hp, IH.
Qed.

Lemma occurrences_chunks p b fd chunks :
  (forall n, p (Call (c_read fd BUF_SIZE) n) = false) ->
  (forall a, p (OutOfBounds a BUF_SIZE) = false) ->
  (forall t, p (Stdout (Incoming fd t)) = false) ->
  occurrences p (flat_map (chunk_effects b fd) chunks) = 0%nat.
Proof.
  intros Hr Ho Hl. apply occurrences_flat_map. intros c.
  unfold chunk_effects, overrun. cbn [occurrences]. rewrite Hr, occurrences_app.
  cbn [occurrences]. rewrite Hl.
  destruct (length c <? BUF_SIZE)%nat; [done|].
  cbn [occurrences]. rewrite Ho.
  destruct (has_nul c); cbn [occurrences]; [done|].
  by rewrite occurrences_scan_loads.
Qed.

(** ** The accept loop *)

Lemma accept_loop_pending fuel efd sfd w f n peer rx fin q :
  files w !! sfd = Some f ->
  kind f = KListener (Pending n peer rx fin :: q) ->
  accept_loop (S fuel) efd sfd w =
  (let* status := sys_epoll_ctl_add efd (Z.of_nat n) (Z.lor EPOLLIN EPOLLET) in
   if status =? -1 then
     perror "epoll_ctl";; throw registration_failure
   else accept_loop fuel efd sfd)
    (logged (with_files w (accepted_files sfd f q n rx fin (files w)))
       (welcome sfd (n, peer))).
Proof.
  intros Hf Hk. cbn [accept_loop]. unfold sys_accept.
  unfold bind at 1 2, get_files. rewrite Hf, Hk. run.
  destruct (Z.eqb_spec (Z.of_nat n) (-1)) as [E|_]; [lia|].
  unfold sys_setsockopt_reuseport. unfold bind at 1 2, get_files.
  cbn [files logged with_files]. rewrite lookup_insert_eq. cbn [kind]. run.
  assert (forall w0 : world,
    files w0 !! Z.of_nat n = Some {| flags := O_RDWR; kind := KStream rx fin |} ->
    (let* fl := sys_fcntl_getfl (Z.of_nat n) in
     sys_fcntl_setfl (Z.of_nat n) (Z.lor fl O_NONBLOCK);;
     let* status := sys_epoll_ctl_add efd (Z.of_nat n) (Z.lor EPOLLIN EPOLLET) in
     if status =? -1 then
       perror "epoll_ctl";;
       throw "call to epoll_ctl failed (attempted to add new incoming connection)"
     else accept_loop fuel efd sfd) w0
    = (let* status := sys_epoll_ctl_add efd (Z.of_nat n) (Z.lor EPOLLIN EPOLLET) in
       if status =? -1 then
         perror "epoll_ctl";; throw registration_failure
       else accept_loop fuel efd sfd)
        (logged (with_files w0
                   (<[Z.of_nat n := {| flags := Z.lor O_RDWR O_NONBLOCK;
                                       kind := KStream rx fin |}]> (files w0)))
           [Call (c_fcntl_getfl (Z.of_nat n)) O_RDWR;
            Call (c_fcntl_setfl (Z.of_nat n) (Z.lor O_RDWR O_NONBLOCK)) 0])) as Hrest.
  { intros w0 H0. unfold sys_fcntl_getfl at 1. unfold bind at 1 2, get_files.
    rewrite H0. run. unfold sys_fcntl_setfl at 1. unfold bind at 1 2 3, get_files.
    cbn [files logged]. rewrite H0. run. cbn [flags kind].
    by wnorm. }
  unfold welcome. cbn [fst snd].
  destruct peer as [[h s]|]; cbn [sys_getnameinfo greeting]; run.
  - change (0 =? 0) with true. run. rewrite Hrest.
    + unfold accepted_files. cbn [files logged with_files]. by wnorm.
    + cbn [files logged with_files]. apply lookup_insert_eq.
  - change (EAI_FAMILY =? 0) with false. run. rewrite Hrest.
    + unfold accepted_files. cbn [files logged with_files]. by wnorm.
    + cbn [files logged with_files]. apply lookup_insert_eq.
Qed.

(** [epoll_ctl] either fails, leaving the table alone, or adds the
    descriptor to the interest list of a valid epoll instance with room. *)
Lemma epoll_ctl_add_cases efd fd ev w :
  (exists e, sys_epoll_ctl_add efd fd ev w
             = Ret (-1) (logged (with_errno w e) [Call (c_epoll_ctl_add efd fd ev) (-1)]))
  \/ (exists f lim int rdy,
        files w !! efd = Some f /\ kind f = KEpoll lim int rdy /\
        fd <> efd /\ is_Some (files w !! fd) /\
        watches fd int = false /\ (length int < lim)%nat /\
        sys_epoll_ctl_add efd fd ev w
        = Ret 0 (logged (with_files w
                           (<[efd := with_kind f (KEpoll lim (int ++ [(fd, ev)]) rdy)]> (files w)))
                   [Call (c_epoll_ctl_add efd fd ev) 0])).
Proof.
  remember (sys_epoll_ctl_add efd fd ev w) as r eqn:Hr.
  unfold sys_epoll_ctl_add in Hr. unfold bind at 1 in Hr. unfold get_files in Hr.
  destruct (files w !! efd) as [f|] eqn:Hf;
    [|left; eexists; rewrite Hr; run; wnorm; reflexivity].
  destruct (kind f) as [?|?|? ?|lim int rdy] eqn:Hk;
    try (left; eexists; rewrite Hr; run; wnorm; reflexivity).
  destruct (files w !! fd) as [g|] eqn:Hg;
    [|left; eexists; rewrite Hr; run; wnorm; reflexivity].
  destruct (Z.eqb_spec fd efd) as [E|E];
    [left; eexists; rewrite Hr; run; wnorm; reflexivity|].
  destruct (watches fd int) eqn:Hw;
    [left; eexists; rewrite Hr; run; wnorm; reflexivity|].
  destruct (Nat.leb_spec lim (length int)) as [Hl|Hl];
    [left; eexists; rewrite Hr; run; wnorm; reflexivity|].
  right. exists f, lim, int, rdy. rewrite Hr. repeat split; try done.
Qed.

Lemma accept_budget_after sfd efd n f q rx fin h w fs :
  (forall b, kind h <> KListener b) ->
  files w = <[efd := h]> (accepted_files sfd f q n rx fin fs) ->
  (accept_budget sfd w <= S (length q))%nat.
Proof.
  intros Hh Hw. unfold accept_budget, accepted_files in *. rewrite Hw.
  rewrite lookup_insert. case_decide.
  { destruct (kind h) eqn:E; try lia. by destruct (Hh backlog). }
  rewrite lookup_insert. case_decide; [cbn [kind]; lia|].
  rewrite lookup_insert_ne, lookup_insert by done.
  case_decide; [cbn [kind with_kind]; lia|].
  destruct (fs !! sfd) as [x|]; [destruct (kind x)|]; lia.
Qed.

Ltac enter_accept Hf :=
  cbn [accept_loop]; unfold sys_accept; unfold bind at 1 2, get_files;
  rewrite Hf; run.

Ltac finish_accept :=
  split; [reflexivity|];
  cbn [trace errno boot logged with_errno with_files flat_map accept_tail
       sound_accept_end app];
  rewrite <- ?app_assoc, ?app_nil_r;
  repeat split; try done.

(** The accept loop ends, and in one of four ways; until then it accepts,
    configures and registers one connection after the other. *)
Lemma accept_loop_spec efd sfd fuel : forall w,
  (accept_budget sfd w <= fuel)%nat ->
  exists conns o w',
    accept_loop fuel efd sfd w = accept_result o w' /\
    trace w' = trace w ++ flat_map (accepted_effects efd sfd 0) conns
                       ++ accept_tail efd sfd o /\
    sound_accept_end o w' /\
    boot w' = boot w.
Proof.
  induction fuel as [|fuel IH]; intros w Hfuel.
  { unfold accept_budget in Hfuel. destruct (files w !! sfd) as [f|]; [destruct (kind f)|]; lia. }
  destruct (files w !! sfd) as [f|] eqn:Hf.
  2:{ exists [], (AcceptError EBADF). eexists. enter_accept Hf. cbn. finish_accept. }
  destruct (kind f) as [bound|q|rx fin|lim int rdy] eqn:Hk.
  1,3,4: eexists [], (AcceptError _); eexists; enter_accept Hf; rewrite Hk; run; cbn;
         finish_accept.
  destruct q as [|[n peer rx fin|e] q].
  - destruct (is_nonblocking f) eqn:Hnb.
    + exists [], QueueEmpty. eexists. enter_accept Hf. rewrite Hk, Hnb. run. cbn. finish_accept.
    + exists [], AcceptStuck. eexists. enter_accept Hf. rewrite Hk, Hnb. run. cbn. finish_accept.
  - rewrite (accept_loop_pending _ _ _ _ _ _ _ _ _ _ Hf Hk).
    set (w1 := logged _ _).
    destruct (epoll_ctl_add_cases efd (Z.of_nat n) (Z.lor EPOLLIN EPOLLET) w1)
      as [[e He]|(g & lim & int & rdy & Hg & Hgk & Hne & _ & _ & _ & Hok)].
    + exists [], (RegistrationFailed (n, peer) e). eexists.
      rewrite (bind_Ret _ _ _ _ _ He). change (-1 =? -1) with true. run.
      subst w1. wnorm. split; [reflexivity|]. split; [|done].
      cbn [trace logged with_errno with_files flat_map accept_tail].
      unfold accepted_effects. cbn [fst snd].
      rewrite <- ?app_assoc. cbn [app]. reflexivity.
    + rewrite (bind_Ret _ _ _ _ _ Hok). change (0 =? -1) with false. cbv iota.
      match goal with |- context [accept_loop fuel efd sfd ?w2] =>
        destruct (IH w2) as (conns & o & w' & Hr & Ht & Hs & Hb) end.
      { etransitivity.
        - eapply (accept_budget_after sfd efd n f q rx fin _ _ (files w)); [|reflexivity].
          intros b. by cbn [kind with_kind].
        - unfold accept_budget in Hfuel. rewrite Hf, Hk in Hfuel.
          cbn [length] in Hfuel. lia. }
      exists ((n, peer) :: conns), o, w'.
      split; [done|]. split.
      { rewrite Ht. subst w1. unfold accepted_effects.
        cbn [trace logged with_files flat_map fst snd].
        rewrite <- !app_assoc. reflexivity. }
      split; [done|]. rewrite Hb. by subst w1.
  - destruct (Z.eqb_spec e EAGAIN) as [E|E].
    + exists [], QueueEmpty. eexists. enter_accept Hf. rewrite Hk. run.
      change (-1 =? -1) with true. run. cbn [errno with_errno with_files logged].
      rewrite (proj2 (Z.eqb_eq e EAGAIN) E). cbn [orb]. run. finish_accept.
    + eexists [], (AcceptError e). eexists. enter_accept Hf. rewrite Hk. run.
      change (-1 =? -1) with true. run. cbn [errno with_errno with_files logged].
      change EWOULDBLOCK with EAGAIN.
      rewrite (proj2 (Z.eqb_neq e EAGAIN) E). cbn [orb]. run.
      wnorm. finish_accept.
Qed.

Lemma accept_new_connections_spec efd sfd w :
  exists conns o w',
    accept_new_connections efd sfd w = accept_result o w' /\
    trace w' = trace w ++ flat_map (accepted_effects efd sfd 0) conns
                       ++ accept_tail efd sfd o /\
    sound_accept_end o w' /\
    boot w' = boot w.
Proof. apply accept_loop_spec. done. Qed.

Lemma read_loop_eagain fuel fd w f :
  files w !! fd = Some f ->
  kind f = KStream [] RxOpen ->
  is_nonblocking f = true ->
  read_loop (S fuel) fd w
  = Ret false (logged (with_errno w EAGAIN) [Call (c_read fd BUF_SIZE) (-1)]).
Proof.
  intros Hf Hk Hnb. enter_read Hf. rewrite Hk, Hnb. run. reflexivity.
Qed.

Lemma read_results_chunk b fd c :
  read_results fd (chunk_effects b fd c) = [Z.of_nat (length c)].
Proof.
  unfold read_results, chunk_effects, overrun. cbn [flat_map]. rewrite Z.eqb_refl.
  rewrite flat_map_app.
  destruct (length c <? BUF_SIZE)%nat; [reflexivity|].
  destruct (has_nul c); cbn [flat_map app]; [reflexivity|].
  by rewrite flat_map_scan_loads.
Qed.

Lemma logged_sizes_chunk b fd c :
  logged_sizes fd (chunk_effects b fd c) = [length (logged_text b c)].
Proof.
  unfold logged_sizes, chunk_effects, overrun. cbn [flat_map].
  rewrite flat_map_app. cbn [flat_map]. rewrite Z.eqb_refl.
  destruct (length c <? BUF_SIZE)%nat; [reflexivity|].
  destruct (has_nul c); cbn [flat_map app]; [reflexivity|].
  by rewrite flat_map_scan_loads.
Qed.

Lemma read_results_app fd a b :
  read_results fd (a ++ b) = read_results fd a ++ read_results fd b.
Proof. apply flat_map_app. Qed.

Lemma logged_sizes_app fd a b :
  logged_sizes fd (a ++ b) = logged_sizes fd a ++ logged_sizes fd b.
Proof. apply flat_map_app. Qed.


Lemma logged_texts_app fd a b :
  logged_texts fd (a ++ b) = logged_texts fd a ++ logged_texts fd b.
Proof. apply flat_map_app. Qed.

Lemma logged_texts_chunk b fd c :
  logged_texts fd (chunk_effects b fd c) = [logged_text b c].
Proof.
  unfold logged_texts, chunk_effects, overrun. cbn [flat_map].
  rewrite flat_map_app. cbn [flat_map]. rewrite Z.eqb_refl.
  destruct (length c <? BUF_SIZE)%nat; [reflexivity|].
  destruct (has_nul c); cbn [flat_map app]; [reflexivity|].
  by rewrite flat_map_scan_loads.
Qed.





Lemma logged_text_full b c :
  length c = BUF_SIZE -> has_nul c = false -> logged_text b c = c ++ stray b c.
Proof. intros Hl Hn. unfold logged_text. by rewrite Hl, Nat.ltb_irrefl, Hn. Qed.




(** ** The event loop *)

Lemma land_bit (a k : Z) :
  0 <= k -> (Z.land a (2 ^ k) =? 0) = negb (Z.testbit a k).
Proof.
  intros Hk. destruct (Z.testbit a k) eqn:E; cbn [negb].
  - apply Z.eqb_neq. intros H.
    assert (Z.testbit (Z.land a (2 ^ k)) k = true) as Hb
      by (rewrite Z.land_spec, E, Z.pow2_bits_true; done).
    rewrite H, Z.bits_0 in Hb. discriminate.
  - apply Z.eqb_eq. apply Z.bits_inj'. intros n Hn.
    rewrite Z.land_spec, Z.bits_0.
    destruct (Z.eq_dec n k) as [->|Hne].
    + by rewrite E.
    + rewrite (Z.pow2_bits_false k n) by lia. apply andb_false_r.
Qed.

(** The test on the mask and the routing by bits agree. *)
Lemma abnormal_bits (ev : Z) :
  abnormal ev = Z.testbit ev 3 || Z.testbit ev 4 || negb (Z.testbit ev 0).
Proof.
  unfold abnormal.
  change EPOLLERR with (2 ^ 3). change EPOLLHUP with (2 ^ 4). change EPOLLIN with (2 ^ 0).
  rewrite !land_bit by lia. by rewrite !negb_involutive.
Qed.

Lemma handle_abnormal sfd efd ev w :
  abnormal (events ev) = true ->
  exists r w',
    handle_event sfd efd ev w = Ret tt w' /\
    trace w' = trace w ++ [Stderr (Perror "epoll error" (errno w)); Call (c_close (data_fd ev)) r] /\
    boot w' = boot w /\
    files w' !! data_fd ev = None.
Proof.
  intros Hab. unfold handle_event. rewrite Hab. run.
  destruct (sys_close_cases (data_fd ev) (logged w [Stderr (Perror "epoll error" (errno w))]))
    as (r & w' & Hcl & Ht & Hb & Hgone & _).
  exists r, w'. rewrite (bind_Ret _ _ _ _ _ Hcl). run.
  split; [done|]. split; [|done].
  rewrite Ht. cbn [trace logged]. by rewrite <- app_assoc.
Qed.

Lemma for_events_handle_all sfd efd evs : forall pre post w,
  for_events (length evs) (Z.of_nat (length pre)) sfd efd (pre ++ evs ++ post) w
  = handle_all sfd efd evs w.
Proof.
  induction evs as [|ev evs IH]; intros pre post w; [reflexivity|].
  cbn [length for_events handle_all]. rewrite Nat2Z.id.
  change (pre ++ (ev :: evs) ++ post) with (pre ++ ev :: (evs ++ post)).
  rewrite nth_middle. unfold bind.
  destruct (handle_event sfd efd ev w) as [[] w'| | | |]; try reflexivity.
  replace (Z.of_nat (length pre) + 1) with (Z.of_nat (length (pre ++ [ev])))
    by (rewrite length_app; cbn [length]; lia).
  replace (pre ++ ev :: evs ++ post) with ((pre ++ [ev]) ++ evs ++ post)
    by (by rewrite <- app_assoc).
  apply IH.
Qed.

Lemma for_events_from_start sfd efd evs post w :
  for_events (length evs) 0 sfd efd (evs ++ post) w = handle_all sfd efd evs w.
Proof. exact (for_events_handle_all sfd efd evs [] post w). Qed.

Lemma handle_all_app sfd efd l1 l2 w :
  handle_all sfd efd (l1 ++ l2) w = (handle_all sfd efd l1;; handle_all sfd efd l2) w.
Proof.
  revert w. induction l1 as [|ev l1 IH]; intros w; [reflexivity|].
  cbn [app handle_all]. unfold bind.
  destruct (handle_event sfd efd ev w) as [[] w'| | | |]; try reflexivity.
  rewrite IH. reflexivity.
Qed.

Lemma epoll_wait_batch efd buf w e lim int evs rest :
  files w !! efd = Some e ->
  kind e = KEpoll lim int (Batch evs :: rest) ->
  let now := take (Z.to_nat MAX_EVENTS) evs in
  sys_epoll_wait efd buf MAX_EVENTS w
  = Ret (Z.of_nat (length now), now ++ drop (length now) buf)
      (logged (with_files w
                 (<[efd := with_kind e
                             (KEpoll lim int (requeue (drop (Z.to_nat MAX_EVENTS) evs) rest))]>
                    (files w)))
         [Call (c_epoll_wait efd MAX_EVENTS) (Z.of_nat (length now))]).
Proof.
  intros Hf Hk now. unfold sys_epoll_wait. unfold bind at 1, get_files.
  rewrite Hf, Hk. change (MAX_EVENTS <=? 0) with false. run.
  by wnorm.
Qed.

Lemma epoll_wait_interrupted efd buf w e lim int err rest :
  files w !! efd = Some e ->
  kind e = KEpoll lim int (Interrupted err :: rest) ->
  sys_epoll_wait efd buf MAX_EVENTS w
  = Ret (-1, buf)
      (logged (with_errno (with_files w (<[efd := with_kind e (KEpoll lim int rest)]> (files w)))
                 err)
         [Call (c_epoll_wait efd MAX_EVENTS) (-1)]).
Proof.
  intros Hf Hk. unfold sys_epoll_wait. unfold bind at 1, get_files.
  rewrite Hf, Hk. change (MAX_EVENTS <=? 0) with false. run.
  by wnorm.
Qed.

(** One iteration of the event loop on a batch of ready events. *)
Lemma event_loop_batch fuel sfd efd buf w e lim int evs rest :
  files w !! efd = Some e ->
  kind e = KEpoll lim int (Batch evs :: rest) ->
  let now := take (Z.to_nat MAX_EVENTS) evs in
  event_loop_from (S fuel) sfd efd buf w
  = (handle_all sfd efd now;;
     event_loop_from fuel sfd efd (now ++ drop (length now) buf))
      (logged (with_files w
                 (<[efd := with_kind e
                             (KEpoll lim int (requeue (drop (Z.to_nat MAX_EVENTS) evs) rest))]>
                    (files w)))
         [Call (c_epoll_wait efd MAX_EVENTS) (Z.of_nat (length now))]).
Proof.
  intros Hf Hk now. cbn [event_loop_from].
  rewrite (bind_Ret _ _ _ _ _ (epoll_wait_batch efd buf w e lim int evs rest Hf Hk)).
  fold now. rewrite Nat2Z.id. unfold bind.
  rewrite for_events_from_start. reflexivity.
Qed.

(** A wait that returns no event is followed by the next wait at once. *)
Lemma event_loop_no_event fuel sfd efd buf w r buf' w' :
  sys_epoll_wait efd buf MAX_EVENTS w = Ret (r, buf') w' ->
  r <= 0 ->
  event_loop_from (S fuel) sfd efd buf w = event_loop_from fuel sfd efd buf' w'.
Proof.
  intros Hwait Hr. cbn [event_loop_from]. rewrite (bind_Ret _ _ _ _ _ Hwait).
  replace (Z.to_nat r) with 0%nat by lia. reflexivity.
Qed.

(** ** What can end the reactor *)

Lemma only_registration_throws_bind {A B} efd sfd (m : M A) (k : A -> M B) w :
  only_registration_throws efd sfd (m w) ->
  (forall a w', only_registration_throws efd sfd (k a w')) ->
  only_registration_throws efd sfd (bind m k w).
Proof. unfold bind. destruct (m w); cbn; auto. Qed.

Lemma handle_event_outcome sfd efd ev w :
  only_registration_throws efd sfd (handle_event sfd efd ev w).
Proof.
  destruct (abnormal (events ev)) eqn:Hab.
  { destruct (handle_abnormal sfd efd ev w Hab) as (r & w' & -> & _). exact I. }
  unfold handle_event. rewrite Hab.
  destruct (Z.eqb_spec sfd (data_fd ev)) as [E|E].
  - destruct (accept_new_connections_spec efd sfd w) as (conns & o & w' & -> & Ht & _).
    destruct o as [| | |c e]; cbn [accept_result only_registration_throws]; try done.
    split; [done|].
    exists (trace w ++ flat_map (accepted_effects efd sfd 0) conns), c, e.
    rewrite Ht. cbn [accept_tail]. by rewrite <- !app_assoc.
  - rewrite read_input_data_unfold.
    destruct (read_then_close (read_budget (data_fd ev) w) (data_fd ev) w (le_n _))
      as (chunks & o & r & w' & -> & _).
    by destruct o.
Qed.

Lemma for_events_outcome sfd efd buf todo : forall i w,
  only_registration_throws efd sfd (for_events todo i sfd efd buf w).
Proof.
  induction todo as [|todo IH]; intros i w; [exact I|].
  cbn [for_events]. apply only_registration_throws_bind.
  - apply handle_event_outcome.
  - intros _ w'. apply IH.
Qed.

Lemma epoll_wait_outcome efd buf m w :
  match sys_epoll_wait efd buf m w with
  | Ret _ _ | Blocked _ => True
  | _ => False
  end.
Proof.
  unfold sys_epoll_wait. unfold bind at 1, get_files.
  destruct (files w !! efd) as [e|]; [|exact I].
  destruct (kind e) as [?|?|? ?|lim int [|[evs|err] rest]]; try exact I.
  all: destruct (m <=? 0); exact I.
Qed.

Lemma event_loop_outcome sfd efd fuel : forall buf w,
  only_registration_throws efd sfd (event_loop_from fuel sfd efd buf w).
Proof.
  induction fuel as [|fuel IH]; intros buf w; [exact I|].
  cbn [event_loop_from]. apply only_registration_throws_bind.
  - pose proof (epoll_wait_outcome efd buf MAX_EVENTS w) as H.
    by destruct (sys_epoll_wait efd buf MAX_EVENTS w).
  - intros [n buf'] w'. apply only_registration_throws_bind.
    + apply for_events_outcome.
    + intros _ w''. apply IH.
Qed.

Lemma does_not_return_bind {A B} (m : M A) (k : A -> M B) w :
  (forall a w', does_not_return (k a w')) -> does_not_return (bind m k w).
Proof. intros H. unfold bind. destruct (m w); cbn; auto. Qed.

Lemma event_loop_never_returns sfd efd fuel : forall buf w,
  does_not_return (event_loop_from fuel sfd efd buf w).
Proof.
  induction fuel as [|fuel IH]; intros buf w; [exact I|].
  cbn [event_loop_from]. apply does_not_return_bind. intros [n buf'] w1.
  apply does_not_return_bind. intros _ w2. apply IH.
Qed.

Lemma read_error_closes fd w f e :
  files w !! fd = Some f ->
  kind f = KStream [] (RxErr e) ->
  e <> EAGAIN ->
  read_input_data fd w
  = Ret tt (logged (with_errno (with_files w (forget fd <$> delete fd (files w))) e)
              [Call (c_read fd BUF_SIZE) (-1); Stderr (Perror "read" e);
               Stdout (Closed fd); Call (c_close fd) 0]).
Proof.
  intros Hf Hk He. rewrite read_input_data_unfold. unfold read_budget. rewrite Hf, Hk.
  cbn [length]. unfold bind at 1. enter_read Hf. rewrite Hk. run.
  change (-1 =? -1) with true. run. cbn [errno with_errno logged].
  rewrite (proj2 (Z.eqb_neq e EAGAIN) He). cbn [negb]. run.
  cbn [after_read_loop]. run. unfold sys_close. unfold bind at 1 2, get_files.
  cbn [files logged with_errno]. rewrite Hf. run. by wnorm.
Qed.

Lemma accept_error_returns efd sfd w f e q :
  files w !! sfd = Some f ->
  kind f = KListener (Refused e :: q) ->
  e <> EAGAIN ->
  accept_new_connections efd sfd w
  = Ret tt (logged (with_errno (with_files w (<[sfd := with_kind f (KListener q)]> (files w))) e)
              [Call (c_accept sfd) (-1); Stderr (Perror "accept" e)]).
Proof.
  intros Hf Hk He. unfold accept_new_connections, accept_budget. rewrite Hf, Hk.
  enter_accept Hf. rewrite Hk. run.
  change (-1 =? -1) with true. run. cbn [errno with_errno with_files logged].
  change EWOULDBLOCK with EAGAIN.
  rewrite (proj2 (Z.eqb_neq e EAGAIN) He). cbn [orb]. run. by wnorm.
Qed.

(** Accepting a connection when the epoll instance has no room left. *)
Lemma registration_rejected efd sfd w f g n peer rx fin q lim int rdy :
  files w !! sfd = Some f ->
  kind f = KListener (Pending n peer rx fin :: q) ->
  files w !! efd = Some g ->
  kind g = KEpoll lim int rdy ->
  efd <> sfd -> Z.of_nat n <> efd ->
  watches (Z.of_nat n) int = false ->
  (lim <= length int)%nat ->
  accept_new_connections efd sfd w
  = Throw registration_failure
      (logged (with_errno (with_files w (accepted_files sfd f q n rx fin (files w))) ENOSPC)
         (accepted_effects efd sfd (-1) (n, peer) ++ [Stderr (Perror "epoll_ctl" ENOSPC)])).
Proof.
  intros Hf Hk Hg Hgk Hne1 Hne2 Hw Hfull.
  unfold accept_new_connections, accept_budget. rewrite Hf, Hk.
  rewrite (accept_loop_pending _ _ _ _ _ _ _ _ _ _ Hf Hk).
  unfold sys_epoll_ctl_add. unfold bind at 1 2, get_files.
  cbn [files logged with_files]. unfold accepted_files at 1.
  rewrite !lookup_insert_ne by done. rewrite Hg, Hgk.
  unfold accepted_files at 1. rewrite lookup_insert_eq.
  rewrite (proj2 (Z.eqb_neq _ _) Hne2), Hw, (proj2 (Nat.leb_le _ _) Hfull).
  run. change (-1 =? -1) with true. run. wnorm.
  unfold accepted_effects. cbn [fst snd]. by rewrite <- !app_assoc.
Qed.

(** Accepting one connection when the epoll instance takes it: the new
    descriptor ends up non-blocking and in the interest list, the listening
    socket has one entry less in its queue, and the pass goes on. *)
Lemma accept_one efd sfd w f g n peer rx fin q lim int rdy :
  files w !! sfd = Some f ->
  kind f = KListener (Pending n peer rx fin :: q) ->
  files w !! efd = Some g ->
  kind g = KEpoll lim int rdy ->
  efd <> sfd -> Z.of_nat n <> efd -> Z.of_nat n <> sfd ->
  watches (Z.of_nat n) int = false ->
  (length int < lim)%nat ->
  let fd := Z.of_nat n in
  let fs' := <[efd := with_kind g (KEpoll lim (int ++ [(fd, Z.lor EPOLLIN EPOLLET)]) rdy)]>
               (accepted_files sfd f q n rx fin (files w)) in
  let w1 := logged (with_files w fs') (accepted_effects efd sfd 0 (n, peer)) in
  accept_new_connections efd sfd w = accept_new_connections efd sfd w1 /\
  files w1 !! fd = Some (stream_file rx fin) /\
  files w1 !! efd
  = Some (with_kind g (KEpoll lim (int ++ [(fd, Z.lor EPOLLIN EPOLLET)]) rdy)) /\
  files w1 !! sfd = Some (with_kind f (KListener q)).
Proof.
  intros Hf Hk Hg Hgk Hne1 Hne2 Hne3 Hw Hroom fd fs' w1.
  assert (files w1 !! sfd = Some (with_kind f (KListener q))) as Hsfd.
  { subst w1 fs'. cbn [files logged with_files]. unfold accepted_files.
    rewrite !lookup_insert_ne by done. apply lookup_insert_eq. }
  split; [|split; [|split]].
  - unfold accept_new_connections at 1. unfold accept_budget at 1. rewrite Hf, Hk.
    rewrite (accept_loop_pending _ _ _ _ _ _ _ _ _ _ Hf Hk).
    unfold sys_epoll_ctl_add. unfold bind at 1 2, get_files.
    cbn [files logged with_files]. unfold accepted_files at 1.
    rewrite !lookup_insert_ne by done. rewrite Hg, Hgk.
    unfold accepted_files at 1. rewrite lookup_insert_eq.
    rewrite (proj2 (Z.eqb_neq _ _) Hne2), Hw, (proj2 (Nat.leb_gt _ _) Hroom).
    run. change (0 =? -1) with false. cbv iota. wnorm.
    unfold accept_new_connections, accept_budget. rewrite Hsfd.
    cbn [kind with_kind length]. reflexivity.
  - subst w1 fs'. cbn [files logged with_files]. unfold accepted_files.
    rewrite lookup_insert_ne by done. apply lookup_insert_eq.
  - subst w1 fs'. cbn [files logged with_files]. apply lookup_insert_eq.
  - exact Hsfd.
Qed.

Lemma accept_queue_empty efd sfd w f :
  files w !! sfd = Some f ->
  kind f = KListener [] ->
  is_nonblocking f = true ->
  accept_new_connections efd sfd w
  = Ret tt (logged (with_errno w EAGAIN) [Call (c_accept sfd) (-1)]).
Proof.
  intros Hf Hk Hnb. unfold accept_new_connections, accept_budget. rewrite Hf, Hk.
  enter_accept Hf. rewrite Hk, Hnb. run. reflexivity.
Qed.

(** ** Counting effects through the program *)

Lemma at_most_ret {A} p n (a : A) : at_most p n (ret a).
Proof. intros w. exists []. cbn. rewrite app_nil_r. split; [done|lia]. Qed.

Lemma at_most_silent {A} p n (m : M A) :
  (forall w, trace (world_of (m w)) = trace w) -> at_most p n m.
Proof. intros H w. exists []. rewrite H, app_nil_r. cbn. split; [done|lia]. Qed.

Lemma at_most_emit (p : effect -> bool) n e :
  ((if p e then 1 else 0) <= n)%nat -> at_most p n (emit e).
Proof. intros H w. exists [e]. cbn. split; [done|lia]. Qed.

Lemma at_most_emits (p : effect -> bool) n l :
  (occurrences p l <= n)%nat -> at_most p n (emits l).
Proof. intros H w. exists l. cbn. split; [done|lia]. Qed.

Lemma at_most_bind {A B} p n1 n2 n (m : M A) (k : A -> M B) :
  at_most p n1 m ->
  (forall a, at_most p n2 (k a)) ->
  (n1 + n2 <= n)%nat ->
  at_most p n (bind m k).
Proof.
  intros Hm Hk Hn w. destruct (Hm w) as (l1 & H1 & C1). unfold bind.
  destruct (m w) as [a w1|s w1|c w1|w1|w1]; cbn [world_of] in *;
    try (exists l1; split; [done|lia]).
  destruct (Hk a w1) as (l2 & H2 & C2). exists (l1 ++ l2).
  rewrite H2, H1, occurrences_app, app_assoc. split; [done|lia].
Qed.

Lemma at_most_pointwise {A} p n (m : M A) (m' : world -> M A) :
  (forall w, m w = m' w w) -> (forall w0, at_most p n (m' w0)) -> at_most p n m.
Proof. intros E H w. rewrite E. apply H. Qed.

(** Solve [at_most p 0 m] for straight-line [m], given a tactic [tac] that
    proves [p e = false] for the effects [m] emits. *)
Ltac not_counted tac :=
  match goal with
  | |- ((if ?b then _ else _) <= _)%nat => replace b with false by (symmetry; tac); lia
  end.

Ltac quiet tac :=
  repeat first
    [ apply at_most_ret
    | apply at_most_emit; not_counted tac
    | apply at_most_silent; intros ?; reflexivity
    | match goal with
      | |- at_most _ _ (bind _ _) => eapply (at_most_bind _ 0 0 0); [| intros ? | lia]
      | |- at_most _ _ (ok _ _) => unfold ok
      | |- at_most _ _ (fail _ _) => unfold fail
      | |- at_most _ _ (perror _) => unfold perror
      | |- at_most _ _ (print _) => unfold print
      | |- at_most _ _ (match ?x with _ => _ end) => destruct x
      end ].

Section Steady.
Variable p : effect -> bool.
Hypothesis Hp : forall e, steady_state_effect e -> p e = false.

Local Ltac steady := quiet ltac:(apply Hp; exact I).

Lemma steady_sys_read fd buf n : at_most p 0 (sys_read fd buf n).
Proof. unfold sys_read. cbv zeta. steady. Qed.

Lemma steady_sys_accept fd : at_most p 0 (sys_accept fd).
Proof. unfold sys_accept. cbv zeta. steady. Qed.

Lemma steady_sys_getnameinfo a : at_most p 0 (sys_getnameinfo a).
Proof. unfold sys_getnameinfo. steady. Qed.

Lemma steady_sys_fcntl_getfl fd : at_most p 0 (sys_fcntl_getfl fd).
Proof. unfold sys_fcntl_getfl. steady. Qed.

Lemma steady_sys_fcntl_setfl fd fl : at_most p 0 (sys_fcntl_setfl fd fl).
Proof. unfold sys_fcntl_setfl. steady. Qed.

Lemma steady_sys_setsockopt fd : at_most p 0 (sys_setsockopt_reuseport fd).
Proof. unfold sys_setsockopt_reuseport. cbv zeta. steady. Qed.

Lemma steady_sys_epoll_ctl_add efd fd ev : at_most p 0 (sys_epoll_ctl_add efd fd ev).
Proof. unfold sys_epoll_ctl_add. cbv zeta. steady. Qed.

Lemma steady_sys_close fd : at_most p 0 (sys_close fd).
Proof. unfold sys_close. steady. Qed.

Lemma steady_sys_epoll_wait efd buf m : at_most p 0 (sys_epoll_wait efd buf m).
Proof. unfold sys_epoll_wait. cbv zeta. steady. Qed.

Lemma steady_store_nul buf count : at_most p 0 (store_nul buf count).
Proof. unfold store_nul. cbv zeta. steady. Qed.

Lemma steady_string_of_buf buf : at_most p 0 (string_of_buf buf).
Proof.
  unfold string_of_buf. destruct (c_str buf) as [s []]; [steady..|].
  eapply (at_most_bind _ 0 0 0); [steady| |lia]. intros b. cbv zeta.
  eapply (at_most_bind _ 0 0 0); [|intros _; steady|lia].
  apply at_most_emits. rewrite occurrences_scan_loads; [lia|].
  intros a. apply Hp. exact I.
Qed.

Lemma steady_read_loop fd fuel : at_most p 0 (read_loop fuel fd).
Proof.
  induction fuel as [|fuel IH]; cbn [read_loop]; [steady|]. cbv zeta.
  eapply (at_most_bind _ 0 0 0); [apply steady_sys_read| |lia].
  intros [count buf]. destruct (count =? -1); [steady|].
  destruct (count =? 0); [steady|].
  eapply (at_most_bind _ 0 0 0); [apply steady_store_nul| |lia]. intros buf'.
  eapply (at_most_bind _ 0 0 0); [apply steady_string_of_buf| |lia]. intros text.
  eapply (at_most_bind _ 0 0 0); [steady| |lia]. intros _. apply IH.
Qed.

Lemma steady_read_input_data fd : at_most p 0 (read_input_data fd).
Proof.
  apply (at_most_pointwise p 0 _
           (fun w0 => let* b := read_loop (read_budget fd w0) fd in after_read_loop fd b)).
  { intros w. apply read_input_data_unfold. }
  intros w0. eapply (at_most_bind _ 0 0 0); [apply steady_read_loop| |lia].
  intros [|]; cbn [after_read_loop]; [|steady].
  eapply (at_most_bind _ 0 0 0); [steady| |lia]. intros _.
  eapply (at_most_bind _ 0 0 0); [apply steady_sys_close| |lia]. intros _. steady.
Qed.

Lemma steady_accept_loop efd sfd fuel : at_most p 0 (accept_loop fuel efd sfd).
Proof.
  induction fuel as [|fuel IH]; cbn [accept_loop]; [steady|].
  eapply (at_most_bind _ 0 0 0); [apply steady_sys_accept| |lia].
  intros [infd addr]. destruct (infd =? -1); [steady|].
  eapply (at_most_bind _ 0 0 0); [apply steady_sys_setsockopt| |lia]. intros _.
  eapply (at_most_bind _ 0 0 0); [apply steady_sys_getnameinfo| |lia].
  intros [[rc h] s].
  eapply (at_most_bind _ 0 0 0); [destruct (rc =? 0); steady| |lia]. intros _.
  eapply (at_most_bind _ 0 0 0); [apply steady_sys_fcntl_getfl| |lia]. intros fl.
  eapply (at_most_bind _ 0 0 0); [apply steady_sys_fcntl_setfl| |lia]. intros _.
  eapply (at_most_bind _ 0 0 0); [apply steady_sys_epoll_ctl_add| |lia].
  intros status. destruct (status =? -1); [steady|apply IH].
Qed.

Lemma steady_accept_new_connections efd sfd : at_most p 0 (accept_new_connections efd sfd).
Proof.
  apply (at_most_pointwise p 0 _ (fun w0 => accept_loop (accept_budget sfd w0) efd sfd)).
  { reflexivity. }
  intros w0. apply steady_accept_loop.
Qed.

Lemma steady_handle_event sfd efd ev : at_most p 0 (handle_event sfd efd ev).
Proof.
  unfold handle_event. destruct (abnormal (events ev)).
  - eapply (at_most_bind _ 0 0 0); [steady| |lia]. intros _.
    eapply (at_most_bind _ 0 0 0); [apply steady_sys_close| |lia]. intros _. steady.
  - destruct (sfd =? data_fd ev);
      [apply steady_accept_new_connections | apply steady_read_input_data].
Qed.

Lemma steady_for_events sfd efd buf todo : forall i, at_most p 0 (for_events todo i sfd efd buf).
Proof.
  induction todo as [|todo IH]; intros i; cbn [for_events]; [steady|]. cbv zeta.
  eapply (at_most_bind _ 0 0 0); [apply steady_handle_event| |lia]. intros _. apply IH.
Qed.

Lemma steady_event_loop_from sfd efd fuel : forall buf,
  at_most p 0 (event_loop_from fuel sfd efd buf).
Proof.
  induction fuel as [|fuel IH]; intros buf; cbn [event_loop_from]; [steady|].
  eapply (at_most_bind _ 0 0 0); [apply steady_sys_epoll_wait| |lia].
  intros [n buf'].
  eapply (at_most_bind _ 0 0 0); [apply steady_for_events| |lia]. intros _. apply IH.
Qed.

End Steady.

Lemma steady_no_setup e : steady_state_effect e -> is_listener_setup e = false.
Proof. destruct e as [[] ?|?|?|? ?]; cbn; done. Qed.

Lemma steady_no_socket e : steady_state_effect e -> is_socket_call e = false.
Proof. destruct e as [[] ?|?|?|? ?]; cbn; done. Qed.

Ltac calm := quiet ltac:(reflexivity).

(** The whole program creates at most one socket. *)
Lemma main_one_socket fuel argv : at_most is_socket_call 1 (main fuel argv).
Proof.
  unfold main. cbv zeta. destruct (negb _).
  { eapply (at_most_bind _ 0 0); [calm| |lia]. intros _. calm. }
  eapply (at_most_bind _ 1 0); [| |lia].
  - unfold create_server_socket.
    eapply (at_most_bind _ 0 1); [unfold sys_getaddrinfo; calm| |lia].
    intros [rc res]. destruct (negb _); [eapply (at_most_bind _ 0 0); [calm|intros _; calm|lia]|].
    eapply (at_most_bind _ 1 0); [| |lia].
    + unfold sys_socket. cbv zeta.
      eapply (at_most_bind _ 0 1); [calm| |lia]. intros b.
      destruct (socket_res b).
      * eapply (at_most_bind _ 0 1); [calm| |lia]. intros fs.
        eapply (at_most_bind _ 0 1); [calm| |lia]. intros _.
        unfold ok. eapply (at_most_bind _ 1 0); [|intros _; calm|lia].
        apply at_most_emit. cbn. lia.
      * unfold fail. eapply (at_most_bind _ 0 1); [calm| |lia]. intros _.
        eapply (at_most_bind _ 1 0); [|intros _; calm|lia].
        apply at_most_emit. cbn. lia.
    + intros server_fd. destruct (server_fd =? -1); [calm|].
      eapply (at_most_bind _ 0 0); [unfold sys_bind; cbv zeta; calm| |lia].
      intros r. destruct (r =? -1); [calm|].
      eapply (at_most_bind _ 0 0); [unfold sys_freeaddrinfo; calm| |lia].
      intros _.
      eapply (at_most_bind _ 0 0); [| intros _; calm |lia].
      unfold make_socket_non_blocking. cbv zeta.
      eapply (at_most_bind _ 0 0); [apply steady_sys_fcntl_getfl, steady_no_socket| |lia].
      intros fl.
      eapply (at_most_bind _ 0 0);
        [apply steady_sys_fcntl_setfl, steady_no_socket|intros _; calm|lia].
  - intros server_fd.
    eapply (at_most_bind _ 0 0); [unfold sys_listen; cbv zeta; calm| |lia].
    intros r. destruct (r =? -1); [calm|].
    eapply (at_most_bind _ 0 0); [unfold sys_epoll_create1; calm| |lia].
    intros efd. destruct (efd =? -1); [calm|].
    eapply (at_most_bind _ 0 0); [apply steady_sys_epoll_ctl_add, steady_no_socket| |lia].
    intros r'. destruct (r' =? -1); [calm|].
    eapply (at_most_bind _ 0 0); [apply steady_event_loop_from, steady_no_socket| |lia].
    intros _.
    eapply (at_most_bind _ 0 0);
      [apply steady_sys_close, steady_no_socket|intros _; calm|lia].
Qed.

(** [main] never gets past the event loop: the [close(server_fd)] written
    after it is not reached. *)
Lemma main_never_returns fuel argv w : does_not_return (main fuel argv w).
Proof.
  unfold main. cbv zeta. destruct (negb _); [exact I|].
  apply does_not_return_bind. intros sfd w1.
  apply does_not_return_bind. intros r w2. destruct (r =? -1); [exact I|].
  apply does_not_return_bind. intros efd w3. destruct (efd =? -1); [exact I|].
  apply does_not_return_bind. intros r' w4. destruct (r' =? -1); [exact I|].
  unfold bind at 1.
  pose proof (event_loop_never_returns sfd efd fuel
                (replicate (Z.to_nat MAX_EVENTS) zero_event) w4) as H.
  unfold event_loop. by destruct (event_loop_from fuel sfd efd _ w4).
Qed.


Lemma occurrences_accept_pass p efd sfd conns o :
  (forall st c, occurrences p (accepted_effects efd sfd st c) = 0%nat) ->
  (forall r, p (Call (c_accept sfd) r) = false) ->
  (forall tag e, p (Stderr (Perror tag e)) = false) ->
  occurrences p (flat_map (accepted_effects efd sfd 0) conns ++ accept_tail efd sfd o) = 0%nat.
Proof.
  intros Hc Ha He. rewrite occurrences_app, occurrences_flat_map by done.
  destruct o; cbn [accept_tail occurrences]; rewrite ?occurrences_app, ?Hc, ?Ha;
    cbn [occurrences]; by rewrite ?He.
Qed.

Lemma occurrences_read_pass p b fd chunks o r :
  (forall n, p (Call (c_read fd BUF_SIZE) n) = false) ->
  (forall a, p (OutOfBounds a BUF_SIZE) = false) ->
  (forall l, p (Stdout l) = false) ->
  (forall tag e, p (Stderr (Perror tag e)) = false) ->
  p (Call (c_close fd) r) = false ->
  occurrences p (flat_map (chunk_effects b fd) chunks ++ last_read fd o ++ closing fd o r) = 0%nat.
Proof.
  intros Hr Ho Hl He Hc. rewrite !occurrences_app, occurrences_chunks by done.
  unfold closing.
  destruct o; cbn [last_read marks_closure occurrences]; by rewrite ?Hr, ?He, ?Hl, ?Hc.
Qed.


(** ** Chunks of a receive buffer *)

Lemma split_chunks_fuel n : forall m rx,
  (length rx <= n)%nat -> (length rx <= m)%nat -> split_chunks n rx = split_chunks m rx.
Proof.
  induction n as [|n IH]; intros m rx Hn Hm.
  - destruct rx; [by destruct m|]. cbn [length] in Hn. lia.
  - destruct rx as [|b rx]; [by destruct m|].
    destruct m as [|m]; [cbn [length] in Hm; lia|].
    cbn [split_chunks]. f_equal.
    apply IH; rewrite length_drop; cbn [length] in *; unfold BUF_SIZE; lia.
Qed.

Lemma split_chunks_enough n rx :
  (length rx <= n)%nat -> split_chunks n rx = chunks rx.
Proof. intros Hn. by apply split_chunks_fuel. Qed.

Lemma chunks_nil : chunks [] = [].
Proof. reflexivity. Qed.

Lemma chunks_cons rx :
  rx <> [] -> chunks rx = take BUF_SIZE rx :: chunks (drop BUF_SIZE rx).
Proof.
  intros Hne. destruct rx as [|b rx]; [done|].
  unfold chunks at 1. cbn [length split_chunks]. f_equal.
  apply split_chunks_enough. rewrite length_drop. cbn [length]. unfold BUF_SIZE. lia.
Qed.

(** Induction on a receive buffer, chunk by chunk. *)
Lemma chunk_ind (P : list byte -> Prop) :
  P [] ->
  (forall rx, rx <> [] -> P (drop BUF_SIZE rx) -> P rx) ->
  forall rx, P rx.
Proof.
  intros Hnil Hstep rx.
  remember (length rx) as n eqn:Hn. revert rx Hn.
  induction n as [n IH] using lt_wf_ind. intros rx Hn.
  destruct rx as [|b rx]; [exact Hnil|].
  apply Hstep; [done|].
  apply (IH (length (drop BUF_SIZE (b :: rx)))); [|reflexivity].
  rewrite Hn, length_drop. cbn [length]. unfold BUF_SIZE. lia.
Qed.

Lemma concat_chunks rx : concat (chunks rx) = rx.
Proof.
  induction rx as [|rx Hne IH] using chunk_ind; [reflexivity|].
  rewrite chunks_cons by done. cbn [concat]. rewrite IH. apply take_drop.
Qed.

Lemma chunks_bounds rx :
  Forall (fun c => (0 < length c <= BUF_SIZE)%nat) (chunks rx).
Proof.
  induction rx as [|rx Hne IH] using chunk_ind; [constructor|].
  rewrite chunks_cons by done. constructor; [by apply take_buf_bounds|done].
Qed.

Lemma length_chunks rx : length (chunks rx) = ((length rx + 511) / 512)%nat.
Proof.
  induction rx as [|rx Hne IH] using chunk_ind; [reflexivity|].
  rewrite chunks_cons by done. cbn [length]. rewrite IH, length_drop.
  assert (0 < length rx)%nat as Hpos by (destruct rx; [done|cbn [length]; lia]).
  change BUF_SIZE with 512%nat.
  destruct (Nat.le_gt_cases (length rx) 512) as [Hle|Hgt].
  - replace (length rx - 512 + 511)%nat with 511%nat by lia.
    rewrite (Nat.div_small 511 512) by lia.
    apply (Nat.div_unique _ 512 1 (length rx - 1)); lia.
  - replace (length rx + 511)%nat with ((length rx - 512 + 511) + 1 * 512)%nat by lia.
    rewrite Nat.div_add by lia. lia.
Qed.

Lemma full_chunks rx :
  length (List.filter (fun c => (length c =? BUF_SIZE)%nat) (chunks rx))
  = (length rx / 512)%nat.
Proof.
  induction rx as [|rx Hne IH] using chunk_ind; [reflexivity|].
  rewrite chunks_cons by done. cbn [List.filter]. rewrite length_take.
  revert IH. rewrite length_drop. change BUF_SIZE with 512%nat. intros IH.
  destruct (Nat.le_gt_cases 512 (length rx)) as [Hge|Hlt].
  - replace (512 `min` length rx)%nat with 512%nat by lia.
    rewrite Nat.eqb_refl. cbn [length]. rewrite IH.
    replace (length rx) with ((length rx - 512) + 1 * 512)%nat at 2 by lia.
    rewrite Nat.div_add by lia. lia.
  - replace (512 `min` length rx)%nat with (length rx) by lia.
    replace (length rx =? 512)%nat with false by (symmetry; apply Nat.eqb_neq; lia).
    rewrite IH. replace (length rx - 512)%nat with 0%nat by lia.
    rewrite (Nat.div_small (length rx)) by lia. reflexivity.
Qed.

(** ** A whole read pass over a connected socket *)

Lemma with_kind_id f : with_kind f (kind f) = f.
Proof. by destruct f. Qed.

Lemma read_loop_stream fd fuel : forall w f rx fin,
  files w !! fd = Some f ->
  kind f = KStream rx fin ->
  (length rx < fuel)%nat ->
  exists w',
    read_loop fuel fd w = loop_result (stream_end f fin) w' /\
    trace w' = trace w ++ flat_map (chunk_effects (boot w) fd) (chunks rx)
                       ++ last_read fd (stream_end f fin) /\
    files w' = <[fd := with_kind f (KStream [] fin)]> (files w) /\
    boot w' = boot w.
Proof.
  induction fuel as [|fuel IH]; intros w f rx fin Hf Hk Hfuel; [lia|].
  destruct rx as [|b rx].
  - assert (<[fd := with_kind f (KStream [] fin)]> (files w) = files w) as Hid.
    { apply insert_id. by rewrite <- Hk, with_kind_id. }
    rewrite Hid, chunks_nil. cbn [flat_map app]. unfold stream_end.
    destruct fin as [| |e].
    + destruct (is_nonblocking f) eqn:Hnb.
      * eexists. rewrite (read_loop_eagain _ _ _ _ Hf Hk Hnb). by finish.
      * eexists. enter_read Hf. rewrite Hk, Hnb. run. by finish.
    + eexists. enter_read Hf. rewrite Hk. run. change (0 =? -1) with false.
      change (0 =? 0) with true. run. by finish.
    + destruct (Z.eqb_spec e EAGAIN) as [E|E].
      * eexists. enter_read Hf. rewrite Hk. run.
        change (-1 =? -1) with true. run. cbn [errno with_errno logged].
        rewrite (proj2 (Z.eqb_eq e EAGAIN) E). cbn [negb]. run. by finish.
      * eexists. enter_read Hf. rewrite Hk. run.
        change (-1 =? -1) with true. run. cbn [errno with_errno logged].
        rewrite (proj2 (Z.eqb_neq e EAGAIN) E). cbn [negb]. run.
        rewrite !logged_logged. by finish.
  - rewrite (read_loop_data _ _ _ _ _ _ Hf Hk) by done.
    set (f1 := with_kind f (KStream (drop BUF_SIZE (b :: rx)) fin)).
    set (w1 := logged _ _).
    destruct (IH w1 f1 (drop BUF_SIZE (b :: rx)) fin) as (w' & Hr & Ht & Hfs & Hb).
    { subst w1. cbn [files logged with_files]. apply lookup_insert_eq. }
    { reflexivity. }
    { rewrite length_drop. cbn [length] in *. unfold BUF_SIZE. lia. }
    exists w'. split; [exact Hr|]. split; [|split].
    + rewrite Ht. subst w1. cbn [trace logged with_files].
      rewrite (chunks_cons (b :: rx)) by done. cbn [flat_map].
      by rewrite <- !app_assoc.
    + rewrite Hfs. subst w1 f1. cbn [files logged with_files].
      unfold with_kind. cbn [flags]. by rewrite insert_insert_eq.
    + by rewrite Hb.
Qed.

(** What a pass of [read_input_data] over a connected socket does, in full:
    the chunks read, the way it ends, and the descriptor table it leaves. *)
Lemma read_pass_stream fd w f rx fin :
  files w !! fd = Some f ->
  kind f = KStream rx fin ->
  let o := stream_end f fin in
  exists w',
    read_input_data fd w = drain_result o w' /\
    trace w' = trace w ++ flat_map (chunk_effects (boot w) fd) (chunks rx)
                       ++ last_read fd o ++ closing fd o 0 /\
    files w' = (if marks_closure o then forget fd <$> delete fd (files w)
                else <[fd := with_kind f (KStream [] fin)]> (files w)) /\
    boot w' = boot w.
Proof.
  intros Hf Hk o. rewrite read_input_data_unfold. unfold read_budget. rewrite Hf, Hk.
  destruct (read_loop_stream fd (S (length rx)) w f rx fin Hf Hk (Nat.lt_succ_diag_r _))
    as (w1 & Hr & Ht & Hfs & Hb).
  fold o in Hr, Ht. unfold bind at 1. rewrite Hr.
  assert (marks_closure o = true ->
          exists w', (let* _ := print (Closed fd) in let* _ := sys_close fd in ret tt) w1
                     = Ret tt w' /\
                     trace w' = trace w1 ++ [Stdout (Closed fd); Call (c_close fd) 0] /\
                     files w' = forget fd <$> delete fd (files w) /\
                     boot w' = boot w) as Hclose.
  { intros _. eexists. run. unfold sys_close. unfold bind at 1 2, get_files.
    cbn [files logged]. rewrite Hfs, lookup_insert_eq. run.
    split; [reflexivity|]. cbn [trace files boot logged with_files].
    rewrite <- app_assoc, delete_insert_eq. done. }
  destruct o eqn:Eo; cbn [loop_result marks_closure after_read_loop drain_result last_read];
    unfold closing; cbn [marks_closure].
  - destruct (Hclose eq_refl) as (w' & Hc & Htc & Hfc & Hbc).
    exists w'. split; [exact Hc|]. split; [|done].
    rewrite Htc, Ht. by rewrite <- !app_assoc.
  - exists w1. split; [reflexivity|]. by rewrite app_nil_r.
  - destruct (Hclose eq_refl) as (w' & Hc & Htc & Hfc & Hbc).
    exists w'. split; [exact Hc|]. split; [|done].
    rewrite Htc, Ht. by rewrite <- !app_assoc.
  - exists w1. split; [reflexivity|]. split; [|done].
    rewrite Ht. cbn [last_read]. by rewrite !app_nil_r.
Qed.

Lemma read_pass_since fd w f rx fin :
  files w !! fd = Some f ->
  kind f = KStream rx fin ->
  since w (read_input_data fd w)
  = flat_map (chunk_effects (boot w) fd) (chunks rx)
    ++ last_read fd (stream_end f fin) ++ closing fd (stream_end f fin) 0.
Proof.
  intros Hf Hk. destruct (read_pass_stream fd w f rx fin Hf Hk) as (w' & Hr & Ht & _).
  apply since_app. rewrite Hr. by destruct (stream_end f fin).
Qed.

Lemma logged_texts_chunks b fd cs :
  logged_texts fd (flat_map (chunk_effects b fd) cs) = logged_text b <$> cs.
Proof.
  induction cs as [|c cs IH]; [reflexivity|].
  cbn [flat_map]. by rewrite logged_texts_app, IH, fmap_cons, logged_texts_chunk.
Qed.

Lemma logged_texts_end fd o r :
  logged_texts fd (last_read fd o ++ closing fd o r) = [].
Proof. unfold closing. by destruct o. Qed.


Lemma occurrences_overrun_chunks b fd cs :
  Forall (fun c => (0 < length c <= BUF_SIZE)%nat) cs ->
  occurrences is_overrun_store (flat_map (chunk_effects b fd) cs)
  = length (List.filter (fun c => (length c =? BUF_SIZE)%nat) cs).
Proof.
  induction 1 as [|c cs Hc _ IH]; [reflexivity|].
  cbn [flat_map List.filter]. rewrite occurrences_app, IH.
  unfold chunk_effects, overrun. cbn [occurrences is_overrun_store].
  rewrite occurrences_app. cbn [occurrences is_overrun_store].
  destruct (Nat.ltb_spec (length c) BUF_SIZE) as [Hlt|Hge].
  - replace (length c =? BUF_SIZE)%nat with false by (symmetry; apply Nat.eqb_neq; lia).
    reflexivity.
  - replace (length c =? BUF_SIZE)%nat with true by (symmetry; apply Nat.eqb_eq; lia).
    cbn [occurrences is_overrun_store].
    destruct (has_nul c); [reflexivity|].
    by rewrite occurrences_scan_loads.
Qed.

Lemma chunks_le rx : Forall (fun c => (length c <= length rx)%nat) (chunks rx).
Proof.
  induction rx as [|rx Hne IH] using chunk_ind; [constructor|].
  rewrite chunks_cons by done. constructor.
  - rewrite length_take. lia.
  - eapply Forall_impl; [exact IH|]. intros c Hc. cbn beta in Hc.
    rewrite length_drop in Hc. lia.
Qed.

Lemma occurrences_bounds_chunks b fd cs :
  Forall (fun c => (length c < BUF_SIZE)%nat) cs ->
  occurrences is_out_of_bounds (flat_map (chunk_effects b fd) cs) = 0%nat.
Proof.
  induction 1 as [|c cs Hc _ IH]; [reflexivity|].
  cbn [flat_map]. rewrite occurrences_app, IH.
  unfold chunk_effects, overrun.
  replace (length c <? BUF_SIZE)%nat with true by (symmetry; by apply Nat.ltb_lt).
  reflexivity.
Qed.

Lemma read_results_chunks b fd cs :
  read_results fd (flat_map (chunk_effects b fd) cs) = (fun c => Z.of_nat (length c)) <$> cs.
Proof.
  induction cs as [|c cs IH]; [reflexivity|].
  cbn [flat_map]. by rewrite read_results_app, IH, read_results_chunk.
Qed.


Lemma until_nul_all cs :
  Forall (fun c => has_nul c = false) cs -> until_nul <$> cs = cs.
Proof.
  induction 1 as [|c cs Hc _ IH]; [reflexivity|].
  by rewrite fmap_cons, IH, until_nul_id.
Qed.

(** ** A pass of the acceptor over a whole queue *)

Lemma watches_app fd l1 l2 : watches fd (l1 ++ l2) = watches fd l1 || watches fd l2.
Proof. unfold watches. apply existsb_app. Qed.

Lemma accept_pass_queue efd sfd lim rdy : forall cs w f g int,
  files w !! sfd = Some f ->
  kind f = KListener (to_pending <$> cs) ->
  is_nonblocking f = true ->
  files w !! efd = Some g ->
  kind g = KEpoll lim int rdy ->
  efd <> sfd ->
  NoDup (arr_fd <$> cs) ->
  (forall c, c ∈ cs ->
     files w !! Z.of_nat (arr_fd c) = None /\ watches (Z.of_nat (arr_fd c)) int = false) ->
  (length int + length cs <= lim)%nat ->
  exists w',
    accept_new_connections efd sfd w = Ret tt w' /\
    trace w' = trace w ++ flat_map (accepted_effects efd sfd 0) (to_conn <$> cs)
                       ++ [Call (c_accept sfd) (-1)] /\
    errno w' = EAGAIN /\
    files w' !! sfd = Some (with_kind f (KListener [])) /\
    files w' !! efd = Some (with_kind g (KEpoll lim (int ++ (to_watch <$> cs)) rdy)) /\
    (forall c, c ∈ cs ->
       files w' !! Z.of_nat (arr_fd c) = Some (stream_file (arr_rx c) (arr_fin c))) /\
    (forall fd, fd <> sfd -> fd <> efd -> (forall c, c ∈ cs -> fd <> Z.of_nat (arr_fd c)) ->
       files w' !! fd = files w !! fd).
Proof.
  induction cs as [|c cs IH]; intros w f g int Hf Hk Hnb Hg Hgk Hne Hnd Hfresh Hroom.
  - eexists. split; [by apply (accept_queue_empty efd sfd w f)|].
    cbn [trace errno files logged with_errno fmap list_fmap flat_map app].
    rewrite app_nil_r. repeat split; try done.
    + rewrite Hf. f_equal. destruct f as [fl k]. cbn in Hk. by subst k.
    + rewrite Hg. f_equal. destruct g as [fl k]. cbn in Hgk. by subst k.
    + intros c Hc. by apply elem_of_nil in Hc.
  - rewrite fmap_cons in Hk. rewrite (fmap_cons arr_fd) in Hnd.
    apply NoDup_cons in Hnd as [Hnotin Hnd].
    destruct (Hfresh c (list_elem_of_here _ _)) as [Hclosed Hunwatched].
    set (n := arr_fd c) in *.
    assert (Z.of_nat n <> efd) as Hne2 by (intros E; rewrite E in Hclosed; congruence).
    assert (Z.of_nat n <> sfd) as Hne3 by (intros E; rewrite E in Hclosed; congruence).
    cbn [length] in Hroom.
    destruct (accept_one efd sfd w f g n (arr_peer c) (arr_rx c) (arr_fin c)
                (to_pending <$> cs) lim int rdy Hf Hk Hg Hgk Hne Hne2 Hne3 Hunwatched
                ltac:(lia)) as (Hacc & Hn & He & Hs).
    set (w1 := logged _ _) in *.
    assert (forall fd, fd <> sfd -> fd <> efd -> fd <> Z.of_nat n ->
              files w1 !! fd = files w !! fd) as Hframe.
    { intros fd H1 H2 H3. subst w1. cbn [files logged with_files].
      unfold accepted_files. by rewrite !lookup_insert_ne. }
    assert (forall c', c' ∈ cs -> Z.of_nat (arr_fd c') <> Z.of_nat n) as Hother.
    { intros c' Hc' E. apply Hnotin. apply Nat2Z.inj in E. rewrite <- E.
      by apply list_elem_of_fmap_2. }
    assert (forall c', c' ∈ cs -> Z.of_nat (arr_fd c') <> sfd /\ Z.of_nat (arr_fd c') <> efd)
      as Hclosed'.
    { intros c' Hc'. destruct (Hfresh c' (list_elem_of_further _ _ _ Hc')) as [Hcl _].
      split; intros E; rewrite E in Hcl; congruence. }
    destruct (IH w1 (with_kind f (KListener (to_pending <$> cs)))
                (with_kind g (KEpoll lim (int ++ [(Z.of_nat n, Z.lor EPOLLIN EPOLLET)]) rdy))
                (int ++ [(Z.of_nat n, Z.lor EPOLLIN EPOLLET)]))
      as (w' & Hr & Ht & Herr & Hs' & He' & Hcs & Hfr); try done.
    { intros c' Hc'. destruct (Hfresh c' (list_elem_of_further _ _ _ Hc')) as [Hcl Hw].
      destruct (Hclosed' c' Hc'). split.
      - rewrite Hframe; auto.
      - rewrite watches_app, Hw. cbn [watches existsb fst orb].
        apply orb_false_intro; [|done]. apply Z.eqb_neq. intros E.
        by apply (Hother c' Hc'). }
    { rewrite length_app. cbn [length]. lia. }
    exists w'. split; [by rewrite Hacc|]. split.
    { rewrite Ht. subst w1. cbn [trace logged with_files fmap list_fmap flat_map].
      rewrite <- !app_assoc. reflexivity. }
    split; [done|]. split; [done|]. split.
    { rewrite He'. cbn [with_kind flags fmap list_fmap]. rewrite <- app_assoc. reflexivity. }
    split.
    + intros c' [->|Hc']%elem_of_cons.
      * rewrite Hfr; auto. intros c' Hc' E. by apply (Hother c' Hc').
      * by apply Hcs.
    + intros fd H1 H2 H3. rewrite Hfr; auto.
      * apply Hframe; auto. apply (H3 c). apply list_elem_of_here.
      * intros c' Hc'. apply H3. by apply list_elem_of_further.
Qed.



(** * The claims *)

(** ** C1: a chunk that fills the buffer *)

(** C1 (what the code does).  When at least 512 bytes are waiting, the first
    read returns 512 and the next thing the routine does is store the
    terminator at index 512 of its 512-byte array. *)
Theorem full_chunk_overruns (w : world) (fd : Z) (f : file) (rx : list byte) (fin : rx_end) :
  files w !! fd = Some f ->
  kind f = KStream rx fin ->
  (BUF_SIZE <= length rx)%nat ->
  exists rest,
    since w (read_input_data fd w)
    = Call (c_read fd BUF_SIZE) 512
      :: OutOfBounds (Store BUF_SIZE) BUF_SIZE :: rest.
Proof.
  intros Hf Hk Hlen.
  assert (rx <> []) as Hne by (intros ->; cbn in Hlen; unfold BUF_SIZE in Hlen; lia).
  assert (length (take BUF_SIZE rx) = BUF_SIZE) as Hfull by (rewrite length_take; lia).
  set (w1 := logged (with_files w (<[fd := with_kind f (KStream (drop BUF_SIZE rx) fin)]>
                                     (files w)))
               (chunk_effects (boot w) fd (take BUF_SIZE rx))).
  assert (read_input_data fd w
          = (let* b := read_loop (length rx) fd in after_read_loop fd b) w1) as Hstep.
  { rewrite read_input_data_unfold. unfold read_budget. rewrite Hf, Hk.
    unfold bind. by rewrite (read_loop_data _ _ _ _ _ _ Hf Hk Hne). }
  destruct (read_then_close (length rx) fd w1)
    as (chunks & o & r & w' & Hr & Ht & _).
  { unfold read_budget. subst w1. cbn [files logged with_files].
    rewrite lookup_insert_eq. cbn [kind with_kind]. rewrite length_drop.
    unfold BUF_SIZE in *. lia. }
  rewrite Hstep, Hr. eexists. apply since_app.
  replace (world_of (drain_result o w')) with w' by (by destruct o).
  rewrite Ht. subst w1. cbn [trace logged with_files].
  unfold chunk_effects, overrun. rewrite Hfull, Nat.ltb_irrefl.
  rewrite <- !app_assoc. cbn [app]. reflexivity.
Qed.

Lemma full_chunk_overruns_witness :
  exists rest,
    since full_chunk_world (read_input_data 5 full_chunk_world)
    = Call (c_read 5 BUF_SIZE) 512 :: OutOfBounds (Store BUF_SIZE) BUF_SIZE :: rest.
Proof.
  apply (full_chunk_overruns full_chunk_world 5
           (stream_file (replicate 512 "a"%byte) RxOpen)
           (replicate 512 "a"%byte) RxOpen).
  - reflexivity.
  - reflexivity.
  - vm_compute. lia.
Defined.


(** ** C2: failures of single connections *)

(** C2 as stated fails: when the epoll instance has no room for one newly
    accepted connection, the exception raised by [accept_new_connections]
    leaves [event_loop] and [main], and the process ends. *)
Lemma registration_failure_ends_process_counterexample :
  exists w',
    main 5 ["server"; "8080"] (fresh_process crowded_boot) = Throw registration_failure w' /\
    since (fresh_process crowded_boot) (main 5 ["server"; "8080"] (fresh_process crowded_boot))
    = [Call (c_getaddrinfo "8080") 0; Call (c_socket 2 1 6) 3; Call (c_bind 3) 0;
       Call c_freeaddrinfo 0; Call (c_fcntl_getfl 3) 2; Call (c_fcntl_setfl 3 2050) 0;
       Call (c_listen 3 4096) 0; Call c_epoll_create1 4;
       Call (c_epoll_ctl_add 4 3 2147483649) 0; Call (c_epoll_wait 4 128) 1;
       Call (c_accept 3) 5; Call (c_setsockopt_reuseport 5) 0; Call c_getnameinfo 0;
       Stdout (Accepted "10.0.0.7" "40000" 5);
       Call (c_fcntl_getfl 5) 2; Call (c_fcntl_setfl 5 2050) 0;
       Call (c_epoll_ctl_add 4 5 2147483649) (-1); Stderr (Perror "epoll_ctl" ENOSPC)] /\
    is_Some (files w' !! 5).
Proof.
  eexists. split; [vm_compute; reflexivity|]. split; [vm_compute; reflexivity|].
  vm_compute. eexists. reflexivity.
Qed.

(** C2 (as the code has it).  The event loop never returns and never exits;
    the only exception that leaves it is the one raised when registering a
    newly accepted descriptor fails, right after its diagnostic.  The other
    failures are handled where they occur and the loop goes on: an event
    flagged error or hangup (or not readable) is reported and its descriptor
    closed; a failed read is reported and its descriptor closed, the other
    descriptors staying as they are; a failed accept is reported and ends the
    accept pass, no descriptor being closed. *)
Theorem failures_and_the_reactor :
  (forall fuel sfd efd buf w,
     only_registration_throws efd sfd (event_loop_from fuel sfd efd buf w) /\
     does_not_return (event_loop_from fuel sfd efd buf w))
  /\ (forall sfd efd ev w,
        abnormal (events ev) = true ->
        exists r w',
          handle_event sfd efd ev w = Ret tt w' /\
          since w (handle_event sfd efd ev w)
          = [Stderr (Perror "epoll error" (errno w)); Call (c_close (data_fd ev)) r] /\
          files w' !! data_fd ev = None)
  /\ (forall fd w f e,
        files w !! fd = Some f ->
        kind f = KStream [] (RxErr e) ->
        e <> EAGAIN ->
        exists w',
          read_input_data fd w = Ret tt w' /\
          since w (read_input_data fd w)
          = [Call (c_read fd BUF_SIZE) (-1); Stderr (Perror "read" e);
             Stdout (Closed fd); Call (c_close fd) 0] /\
          files w' !! fd = None /\
          forall fd', fd' <> fd -> files w' !! fd' = forget fd <$> files w !! fd')
  /\ (forall efd sfd w f e q,
        files w !! sfd = Some f ->
        kind f = KListener (Refused e :: q) ->
        e <> EAGAIN ->
        exists w',
          accept_new_connections efd sfd w = Ret tt w' /\
          since w (accept_new_connections efd sfd w)
          = [Call (c_accept sfd) (-1); Stderr (Perror "accept" e)] /\
          files w' = <[sfd := with_kind f (KListener q)]> (files w))
  /\ (forall efd sfd w f g n peer rx fin q lim int rdy,
        files w !! sfd = Some f ->
        kind f = KListener (Pending n peer rx fin :: q) ->
        files w !! efd = Some g ->
        kind g = KEpoll lim int rdy ->
        efd <> sfd -> Z.of_nat n <> efd ->
        watches (Z.of_nat n) int = false ->
        (lim <= length int)%nat ->
        exists w',
          accept_new_connections efd sfd w = Throw registration_failure w' /\
          since w (accept_new_connections efd sfd w)
          = accepted_effects efd sfd (-1) (n, peer) ++ [Stderr (Perror "epoll_ctl" ENOSPC)] /\
          is_Some (files w' !! Z.of_nat n)).
Proof.
  split; [|split; [|split; [|split]]].
  - intros fuel sfd efd buf w. split.
    + apply event_loop_outcome.
    + apply event_loop_never_returns.
  - intros sfd efd ev w Hab.
    destruct (handle_abnormal sfd efd ev w Hab) as (r & w' & Hr & Ht & _ & Hgone).
    exists r, w'. split; [done|]. split; [|done]. apply since_app. by rewrite Hr.
  - intros fd w f e Hf Hk He. eexists.
    rewrite (read_error_closes fd w f e Hf Hk He).
    split; [reflexivity|]. split; [by apply since_app|].
    cbn [files logged with_errno with_files]. split.
    + by rewrite lookup_fmap, lookup_delete_eq.
    + intros fd' Hne. by rewrite lookup_fmap, lookup_delete_ne.
  - intros efd sfd w f e q Hf Hk He. eexists.
    rewrite (accept_error_returns efd sfd w f e q Hf Hk He).
    split; [reflexivity|]. split; [by apply since_app|]. reflexivity.
  - intros efd sfd w f g n peer rx fin q lim int rdy Hf Hk Hg Hgk Hne1 Hne2 Hw Hfull.
    eexists.
    rewrite (registration_rejected efd sfd w f g n peer rx fin q lim int rdy
               Hf Hk Hg Hgk Hne1 Hne2 Hw Hfull).
    split; [reflexivity|]. split; [by apply since_app|].
    cbn [files logged with_errno with_files]. unfold accepted_files.
    rewrite lookup_insert_eq. by eexists.
Qed.

Lemma failures_and_the_reactor_witness :
  (exists r w',
     handle_event 3 4 (hung_up 5) (serving_world [] []) = Ret tt w' /\
     since (serving_world [] []) (handle_event 3 4 (hung_up 5) (serving_world [] []))
     = [Stderr (Perror "epoll error" 0); Call (c_close 5) r] /\
     files w' !! 5 = None)
  /\ (exists w',
        read_input_data 5 (world_with {[ 5 := stream_file [] (RxErr 104) ]}) = Ret tt w' /\
        since (world_with {[ 5 := stream_file [] (RxErr 104) ]})
          (read_input_data 5 (world_with {[ 5 := stream_file [] (RxErr 104) ]}))
        = [Call (c_read 5 BUF_SIZE) (-1); Stderr (Perror "read" 104);
           Stdout (Closed 5); Call (c_close 5) 0] /\
        files w' !! 5 = None /\
        forall fd', fd' <> 5 ->
          files w' !! fd'
          = forget 5 <$> files (world_with {[ 5 := stream_file [] (RxErr 104) ]}) !! fd')
  /\ (exists w',
        accept_new_connections 4 3 (serving_world [Refused 24] []) = Ret tt w' /\
        since (serving_world [Refused 24] [])
          (accept_new_connections 4 3 (serving_world [Refused 24] []))
        = [Call (c_accept 3) (-1); Stderr (Perror "accept" 24)] /\
        files w' = <[3 := with_kind (listener_file [Refused 24]) (KListener [])]>
                     (files (serving_world [Refused 24] [])))
  /\ (exists w',
        accept_new_connections 4 3
          (world_with (<[3 := listener_file [Pending 5 a_peer [] RxOpen]]>
                         {[ 4 := epoll_file 1 [(3, Z.lor EPOLLIN EPOLLET)] [] ]}))
        = Throw registration_failure w' /\
        since (world_with (<[3 := listener_file [Pending 5 a_peer [] RxOpen]]>
                             {[ 4 := epoll_file 1 [(3, Z.lor EPOLLIN EPOLLET)] [] ]}))
          (accept_new_connections 4 3
             (world_with (<[3 := listener_file [Pending 5 a_peer [] RxOpen]]>
                            {[ 4 := epoll_file 1 [(3, Z.lor EPOLLIN EPOLLET)] [] ]})))
        = accepted_effects 4 3 (-1) (5%nat, a_peer) ++ [Stderr (Perror "epoll_ctl" ENOSPC)] /\
        is_Some (files w' !! Z.of_nat 5)).
Proof.
  destruct failures_and_the_reactor as (_ & Hev & Hrd & Hac & Hreg).
  split; [|split; [|split]].
  - apply (Hev 3 4 (hung_up 5) (serving_world [] [])). reflexivity.
  - apply (Hrd 5 (world_with {[ 5 := stream_file [] (RxErr 104) ]})
             (stream_file [] (RxErr 104)) 104); [reflexivity|reflexivity|discriminate].
  - apply (Hac 4 3 (serving_world [Refused 24] []) (listener_file [Refused 24]) 24 []);
      [reflexivity|reflexivity|discriminate].
  - apply (Hreg 4 3 _ (listener_file [Pending 5 a_peer [] RxOpen])
             (epoll_file 1 [(3, Z.lor EPOLLIN EPOLLET)] []) 5%nat a_peer [] RxOpen []
             1%nat [(3, Z.lor EPOLLIN EPOLLET)] []);
      [reflexivity|reflexivity|reflexivity|reflexivity|discriminate|discriminate
      |reflexivity|cbn [length]; lia].
Defined.


(** ** C3: 1500 bytes against the 512-byte buffer *)



(** ** C4: how a read drain pass ends *)

(** C4.  Whatever the descriptor and the state of the system, a pass of
    [read_input_data] is a sequence of successful reads, each followed by its
    log line, and then exactly one of: a read returning 0, after which the
    closure line is printed and the descriptor closed; a read failing with
    EAGAIN, after which nothing is closed and the descriptor stays open; a
    read failing with another error, after which the diagnostic and the
    closure line are printed and the descriptor closed; a read that blocks.
    When the connection is marked for closure the pass makes exactly one
    [close] call on the descriptor and prints exactly one closure line for
    it; otherwise none. *)
Theorem read_drain_ends (fd : Z) (w : world) :
  exists chunks o r w',
    read_input_data fd w = drain_result o w' /\
    since w (read_input_data fd w)
    = flat_map (chunk_effects (boot w) fd) chunks ++ last_read fd o ++ closing fd o r /\
    Forall (fun c => (0 < length c <= BUF_SIZE)%nat) chunks /\
    occurrences (is_close fd) (since w (read_input_data fd w))
    = (if marks_closure o then 1 else 0)%nat /\
    occurrences (is_closed_line fd) (since w (read_input_data fd w))
    = (if marks_closure o then 1 else 0)%nat /\
    match o with
    | PeerClosed => files w' !! fd = None
    | WouldBlock => errno w' = EAGAIN /\ is_Some (files w' !! fd)
    | ReadError e => e <> EAGAIN /\ files w' !! fd = None
    | Stuck => True
    end.
Proof.
  rewrite read_input_data_unfold.
  destruct (read_then_close (read_budget fd w) fd w (le_n _))
    as (chunks & o & r & w' & Hr & Ht & Hc & Hb & Hend).
  exists chunks, o, r, w'.
  assert (since w ((let* b := read_loop (read_budget fd w) fd in after_read_loop fd b) w)
          = flat_map (chunk_effects (boot w) fd) chunks ++ last_read fd o ++ closing fd o r) as Hs.
  { apply since_app. rewrite Hr. by destruct o. }
  rewrite Hs. split; [done|]. split; [done|]. split; [done|].
  split; [|split; [|done]].
  - rewrite !occurrences_app, occurrences_chunks by done.
    unfold closing. destruct o; cbn; by rewrite ?Z.eqb_refl.
  - rewrite !occurrences_app, occurrences_chunks by done.
    unfold closing. destruct o; cbn; by rewrite ?Z.eqb_refl.
Qed.

(** ** C5: how an accept drain pass ends *)

(** C5.  Whatever the state of the system, a pass of
    [accept_new_connections] accepts connections one after the other; for
    each it sets SO_REUSEPORT, looks the peer up, makes the descriptor
    non-blocking ([F_SETFL] with [O_NONBLOCK] set) and registers it with
    [EPOLLIN | EPOLLET]; every registration but possibly the last succeeds.
    The pass ends in one of four ways: [accept] fails with EAGAIN and the
    routine returns without printing anything; [accept] fails with another
    error, [perror("accept")] prints it and the routine returns; [accept]
    blocks; or a registration is rejected, which is reported and raised.
    In the descriptor table: an accepted descriptor that the epoll instance
    takes ends up non-blocking and in the interest list with
    [EPOLLIN | EPOLLET], and the pass goes on; on an empty queue the routine
    returns at once; on any other error of [accept] it returns after the
    diagnostic. *)
Theorem accept_drain_ends (efd sfd : Z) :
  (forall w, exists conns o w',
     accept_new_connections efd sfd w = accept_result o w' /\
     since w (accept_new_connections efd sfd w)
     = flat_map (accepted_effects efd sfd 0) conns ++ accept_tail efd sfd o /\
     sound_accept_end o w')
  /\ (forall w f g n peer rx fin q lim int rdy,
        files w !! sfd = Some f ->
        kind f = KListener (Pending n peer rx fin :: q) ->
        files w !! efd = Some g ->
        kind g = KEpoll lim int rdy ->
        efd <> sfd -> Z.of_nat n <> efd -> Z.of_nat n <> sfd ->
        watches (Z.of_nat n) int = false ->
        (length int < lim)%nat ->
        let fd := Z.of_nat n in
        let fs' := <[efd := with_kind g
                              (KEpoll lim (int ++ [(fd, Z.lor EPOLLIN EPOLLET)]) rdy)]>
                     (accepted_files sfd f q n rx fin (files w)) in
        let w1 := logged (with_files w fs') (accepted_effects efd sfd 0 (n, peer)) in
        accept_new_connections efd sfd w = accept_new_connections efd sfd w1 /\
        files w1 !! fd = Some (stream_file rx fin) /\
        is_nonblocking (stream_file rx fin) = true /\
        files w1 !! efd
        = Some (with_kind g (KEpoll lim (int ++ [(fd, Z.lor EPOLLIN EPOLLET)]) rdy)) /\
        files w1 !! sfd = Some (with_kind f (KListener q)))
  /\ (forall w f,
        files w !! sfd = Some f ->
        kind f = KListener [] ->
        is_nonblocking f = true ->
        accept_new_connections efd sfd w
        = Ret tt (logged (with_errno w EAGAIN) [Call (c_accept sfd) (-1)]))
  /\ (forall w f e q,
        files w !! sfd = Some f ->
        kind f = KListener (Refused e :: q) ->
        e <> EAGAIN ->
        accept_new_connections efd sfd w
        = Ret tt (logged (with_errno
                            (with_files w (<[sfd := with_kind f (KListener q)]> (files w))) e)
                    [Call (c_accept sfd) (-1); Stderr (Perror "accept" e)])).
Proof.
  split; [|split; [|split]].
  - intros w.
    destruct (accept_new_connections_spec efd sfd w) as (conns & o & w' & Hr & Ht & Hs & _).
    exists conns, o, w'. split; [done|]. split; [|done].
    apply since_app. rewrite Hr. by destruct o.
  - intros w f g n peer rx fin q lim int rdy Hf Hk Hg Hgk Hne1 Hne2 Hne3 Hw Hroom fd fs' w1.
    destruct (accept_one efd sfd w f g n peer rx fin q lim int rdy
                Hf Hk Hg Hgk Hne1 Hne2 Hne3 Hw Hroom) as (Hstep & Hfd & Hefd & Hsfd).
    done.
  - intros w f. apply accept_queue_empty.
  - intros w f e q. apply accept_error_returns.
Qed.

Lemma accept_drain_ends_witness :
  since (serving_world [Pending 6 a_peer ["x"%byte] RxOpen] [])
    (accept_new_connections 4 3 (serving_world [Pending 6 a_peer ["x"%byte] RxOpen] []))
  = [Call (c_accept 3) 6; Call (c_setsockopt_reuseport 6) 0;
     Call c_getnameinfo 0; Stdout (Accepted "10.0.0.7" "40000" 6);
     Call (c_fcntl_getfl 6) O_RDWR;
     Call (c_fcntl_setfl 6 (Z.lor O_RDWR O_NONBLOCK)) 0;
     Call (c_epoll_ctl_add 4 6 (Z.lor EPOLLIN EPOLLET)) 0;
     Call (c_accept 3) (-1)]
  /\ accept_new_connections 4 3 (serving_world [] [])
     = Ret tt (logged (with_errno (serving_world [] []) EAGAIN) [Call (c_accept 3) (-1)])
  /\ accept_new_connections 4 3 (serving_world [Refused 24] [])
     = Ret tt (logged (with_errno
                         (with_files (serving_world [Refused 24] [])
                            (<[3 := with_kind (listener_file [Refused 24]) (KListener [])]>
                               (files (serving_world [Refused 24] [])))) 24)
                 [Call (c_accept 3) (-1); Stderr (Perror "accept" 24)]).
Proof.
  destruct (accept_drain_ends 4 3) as (_ & Hone & Hempty & Herr).
  split; [|split].
  - rewrite (proj1 (Hone (serving_world [Pending 6 a_peer ["x"%byte] RxOpen] [])
                      (listener_file [Pending 6 a_peer ["x"%byte] RxOpen])
                      (epoll_file 8 [(3, Z.lor EPOLLIN EPOLLET); (5, Z.lor EPOLLIN EPOLLET)] [])
                      6%nat a_peer ["x"%byte] RxOpen [] 8%nat
                      [(3, Z.lor EPOLLIN EPOLLET); (5, Z.lor EPOLLIN EPOLLET)] []
                      eq_refl eq_refl eq_refl eq_refl
                      ltac:(discriminate) ltac:(discriminate) ltac:(discriminate)
                      eq_refl ltac:(cbn [length]; lia))).
    vm_compute. reflexivity.
  - apply (Hempty (serving_world [] []) (listener_file [])); reflexivity.
  - apply (Herr (serving_world [Refused 24] []) (listener_file [Refused 24]) 24 []);
      [reflexivity|reflexivity|discriminate].
Defined.

(** ** C6: the listening socket *)

(** C6 as stated fails: a hangup event on the listening descriptor makes the
    event loop close the listening socket, and the loop keeps running; the
    next readable event on that descriptor finds it closed. *)
Lemma listener_closed_by_event_counterexample :
  exists w',
    main 2 ["server"; "8080"] (fresh_process hangup_boot) = Running w' /\
    since (fresh_process hangup_boot) (main 2 ["server"; "8080"] (fresh_process hangup_boot))
    = [Call (c_getaddrinfo "8080") 0; Call (c_socket 2 1 6) 3; Call (c_bind 3) 0;
       Call c_freeaddrinfo 0; Call (c_fcntl_getfl 3) 2; Call (c_fcntl_setfl 3 2050) 0;
       Call (c_listen 3 4096) 0; Call c_epoll_create1 4;
       Call (c_epoll_ctl_add 4 3 2147483649) 0;
       Call (c_epoll_wait 4 128) 1;
       Stderr (Perror "epoll error" 0); Call (c_close 3) 0;
       Call (c_epoll_wait 4 128) 1;
       Call (c_accept 3) (-1); Stderr (Perror "accept" EBADF)] /\
    files w' !! 3 = None.
Proof.
  eexists. split; [vm_compute; reflexivity|]. split; vm_compute; reflexivity.
Qed.

Lemma close_count_of_event sfd efd ev w :
  occurrences (is_close sfd) (since w (handle_event sfd efd ev w))
  = (if abnormal (events ev) && (data_fd ev =? sfd) then 1%nat else 0%nat).
Proof.
  destruct (abnormal (events ev)) eqn:Hab.
  { destruct (handle_abnormal sfd efd ev w Hab) as (r & w' & Hr & Ht & _).
    rewrite (since_app w (handle_event sfd efd ev w)
               [Stderr (Perror "epoll error" (errno w)); Call (c_close (data_fd ev)) r])
      by (by rewrite Hr).
    cbn [occurrences is_close andb]. by destruct (data_fd ev =? sfd). }
  cbn [andb]. unfold handle_event. rewrite Hab.
  destruct (Z.eqb_spec sfd (data_fd ev)) as [E|E].
  - destruct (accept_new_connections_spec efd sfd w) as (conns & o & w' & Hr & Ht & _).
    rewrite (since_app w (accept_new_connections efd sfd w)
               (flat_map (accepted_effects efd sfd 0) conns ++ accept_tail efd sfd o))
      by (rewrite Hr; by destruct o).
    apply occurrences_accept_pass; try done. by intros st [n [[h s]|]].
  - rewrite read_input_data_unfold.
    destruct (read_then_close (read_budget (data_fd ev) w) (data_fd ev) w (le_n _))
      as (chunks & o & r & w' & Hr & Ht & _).
    rewrite (since_app w _ (flat_map (chunk_effects (boot w) (data_fd ev)) chunks
                            ++ last_read (data_fd ev) o ++ closing (data_fd ev) o r))
      by (rewrite Hr; by destruct o).
    apply occurrences_read_pass; try done.
    cbn [is_close]. apply Z.eqb_neq. congruence.
Qed.

Lemma close_count_of_batch sfd efd evs :
  at_most (is_close sfd)
    (length (List.filter (fun ev => abnormal (events ev) && (data_fd ev =? sfd)) evs))
    (handle_all sfd efd evs).
Proof.
  induction evs as [|ev evs IH]; cbn [handle_all List.filter]; [apply at_most_ret|].
  eapply (at_most_bind _ (if abnormal (events ev) && (data_fd ev =? sfd) then 1%nat else 0%nat));
    [|intros _; apply IH|].
  - intros w.
    destruct (steady_handle_event (fun _ => false) (fun _ _ => eq_refl) sfd efd ev w)
      as (l & Hl & _).
    exists l. split; [done|].
    rewrite <- (since_app w _ l Hl), close_count_of_event. lia.
  - destruct (abnormal (events ev) && (data_fd ev =? sfd)); cbn [length]; lia.
Qed.

(** C6 (as the code has it).  Handling an event closes the listening
    descriptor exactly when the event is for that descriptor and its mask has
    the error or hangup bit or lacks the readable bit, and then once; so a
    batch closes it at most as often as it holds such events.  The event
    loop never creates, binds or listens on a socket; a run of the program
    creates at most one socket; and [main] never gets past the event loop to
    the [close(server_fd)] written after it. *)
Theorem listener_closed_only_by_abnormal_event (sfd efd : Z) :
  (forall ev w,
     occurrences (is_close sfd) (since w (handle_event sfd efd ev w))
     = (if abnormal (events ev) && (data_fd ev =? sfd) then 1%nat else 0%nat))
  /\ (forall evs,
        at_most (is_close sfd)
          (length (List.filter (fun ev => abnormal (events ev) && (data_fd ev =? sfd)) evs))
          (handle_all sfd efd evs))
  /\ (forall fuel buf, at_most is_listener_setup 0 (event_loop_from fuel sfd efd buf))
  /\ (forall fuel argv, at_most is_socket_call 1 (main fuel argv))
  /\ (forall fuel argv w, does_not_return (main fuel argv w)).
Proof.
  split; [|split; [|split; [|split]]].
  - apply close_count_of_event.
  - apply close_count_of_batch.
  - intros fuel buf. apply steady_event_loop_from, steady_no_setup.
  - apply main_one_socket.
  - apply main_never_returns.
Qed.

(** ** C7: the events of a batch, in order *)

Lemma classify_spec sfd efd ev w :
  match classify sfd ev with
  | Abnormal => abnormal (events ev) = true
  | ToAcceptor => handle_event sfd efd ev w = accept_new_connections efd sfd w
  | ToReader => handle_event sfd efd ev w = read_input_data (data_fd ev) w
  end.
Proof.
  unfold classify, handle_event. rewrite <- abnormal_bits.
  destruct (abnormal (events ev)); [done|].
  case_decide as E.
  - by rewrite (proj2 (Z.eqb_eq sfd (data_fd ev)) (eq_sym E)).
  - by rewrite (proj2 (Z.eqb_neq sfd (data_fd ev)) (fun H => E (eq_sym H))).
Qed.

(** C7.  Whatever batch a wait returns, the iteration handles exactly the
    returned events, first to last, each in the state the previous one left,
    and then waits again.  An event whose mask has the error or the hangup
    bit, or lacks the readable bit, gets its descriptor closed and nothing
    else; any other event on the listening descriptor runs the acceptor
    drain, and any other event runs the reader drain on its descriptor. *)
Theorem batch_dispatched_in_order (fuel : nat) (sfd efd : Z) (buf : list epoll_event)
    (w : world) (e : file) (lim : nat) (int : list (Z * Z))
    (evs : list epoll_event) (rest : list wait_item) :
  files w !! efd = Some e ->
  kind e = KEpoll lim int (Batch evs :: rest) ->
  let returned := take (Z.to_nat MAX_EVENTS) evs in
  event_loop_from (S fuel) sfd efd buf w
  = (handle_all sfd efd returned;;
     event_loop_from fuel sfd efd (returned ++ drop (length returned) buf))
      (logged (with_files w
                 (<[efd := with_kind e
                             (KEpoll lim int (requeue (drop (Z.to_nat MAX_EVENTS) evs) rest))]>
                    (files w)))
         [Call (c_epoll_wait efd MAX_EVENTS) (Z.of_nat (length returned))])
  /\ (forall l1 l2 w0,
        handle_all sfd efd (l1 ++ l2) w0
        = (handle_all sfd efd l1;; handle_all sfd efd l2) w0)
  /\ (forall ev w0,
        match classify sfd ev with
        | Abnormal =>
            exists r w',
              handle_event sfd efd ev w0 = Ret tt w' /\
              since w0 (handle_event sfd efd ev w0)
              = [Stderr (Perror "epoll error" (errno w0)); Call (c_close (data_fd ev)) r]
        | ToAcceptor => handle_event sfd efd ev w0 = accept_new_connections efd sfd w0
        | ToReader => handle_event sfd efd ev w0 = read_input_data (data_fd ev) w0
        end).
Proof.
  intros Hf Hk returned. split; [|split].
  - apply (event_loop_batch fuel sfd efd buf w e lim int evs rest Hf Hk).
  - intros l1 l2 w0. apply handle_all_app.
  - intros ev w0. pose proof (classify_spec sfd efd ev w0) as H.
    destruct (classify sfd ev); [|done..].
    destruct (handle_abnormal sfd efd ev w0 H) as (r & w' & Hr & Ht & _).
    exists r, w'. split; [done|]. apply since_app. by rewrite Hr.
Qed.

Lemma batch_dispatched_in_order_witness :
  since (serving_world [] [Batch [readable 5; hung_up 5; readable 3]])
    (event_loop 1 3 4 (serving_world [] [Batch [readable 5; hung_up 5; readable 3]]))
  = [Call (c_epoll_wait 4 128) 3;
     Call (c_read 5 512) 2; Stdout (Incoming 5 ["h"%byte; "i"%byte]);
     Call (c_read 5 512) (-1);
     Stderr (Perror "epoll error" EAGAIN); Call (c_close 5) 0;
     Call (c_accept 3) (-1)].
Proof.
  unfold event_loop.
  rewrite (proj1 (batch_dispatched_in_order 0 3 4
                    (replicate (Z.to_nat MAX_EVENTS) zero_event)
                    (serving_world [] [Batch [readable 5; hung_up 5; readable 3]])
                    (epoll_file 8 [(3, Z.lor EPOLLIN EPOLLET); (5, Z.lor EPOLLIN EPOLLET)]
                       [Batch [readable 5; hung_up 5; readable 3]])
                    8 [(3, Z.lor EPOLLIN EPOLLET); (5, Z.lor EPOLLIN EPOLLET)]
                    [readable 5; hung_up 5; readable 3] [] eq_refl eq_refl)).
  vm_compute. reflexivity.
Defined.

(** ** C8: the command line *)

(** C8.  Started with anything but exactly one argument after the program
    name, [main] writes the usage line to standard error and exits with
    [EXIT_FAILURE]; it makes no call at all, so no socket is created and the
    event loop is not entered. *)
Theorem wrong_argument_count (fuel : nat) (argv : list string) (w : world) :
  length argv <> 2%nat ->
  main fuel argv w = Exit EXIT_FAILURE (logged w [Stderr (Usage (argv !! 0%nat))]).
Proof.
  intros Hargc. unfold main.
  destruct (Z.eqb_spec (Z.of_nat (length argv)) 2) as [E|_]; [lia|].
  reflexivity.
Qed.

Lemma wrong_argument_count_witness :
  main 7 ["server"] (fresh_process crowded_boot)
  = Exit EXIT_FAILURE (logged (fresh_process crowded_boot) [Stderr (Usage (Some "server"))])
  /\ main 7 ["server"; "8080"; "extra"] (fresh_process crowded_boot)
     = Exit EXIT_FAILURE (logged (fresh_process crowded_boot) [Stderr (Usage (Some "server"))]).
Proof.
  split.
  - apply (wrong_argument_count 7 ["server"] (fresh_process crowded_boot)). cbn [length]. lia.
  - apply (wrong_argument_count 7 ["server"; "8080"; "extra"] (fresh_process crowded_boot)).
    cbn [length]. lia.
Defined.

(** ** C9: a peer whose address cannot be printed *)

(** C9.  A pass of the acceptor over a queue whose first connection comes
    from a peer whose address [getnameinfo] cannot print.  The pass accepts
    that connection, makes its descriptor non-blocking and adds it to the
    interest list with [EPOLLIN | EPOLLET], printing no "accepted" line for
    it, and goes on with the rest of the queue until [accept] reports that
    it is empty.  Afterwards the descriptor is open, non-blocking and
    watched, a readable event for it is handled by the reader, and that pass
    reads everything the peer sent.  Had the address printed, the calls
    would be the same with the "accepted" line after [getnameinfo], and
    every descriptor would end up the same. *)
Theorem unprintable_peer_still_served (efd sfd : Z) (w : world) (f g : file) (n : nat)
    (rx : list byte) (fin : rx_end) (cs : list arrival)
    (lim : nat) (int : list (Z * Z)) (rdy : list wait_item) :
  files w !! sfd = Some f ->
  kind f = KListener (Pending n None rx fin :: (to_pending <$> cs)) ->
  is_nonblocking f = true ->
  files w !! efd = Some g ->
  kind g = KEpoll lim int rdy ->
  efd <> sfd ->
  NoDup (n :: (arr_fd <$> cs)) ->
  files w !! Z.of_nat n = None ->
  watches (Z.of_nat n) int = false ->
  (forall c, c ∈ cs ->
     files w !! Z.of_nat (arr_fd c) = None /\ watches (Z.of_nat (arr_fd c)) int = false) ->
  (length int + S (length cs) <= lim)%nat ->
  let fd := Z.of_nat n in
  let r := accept_new_connections efd sfd w in
  let rest := flat_map (accepted_effects efd sfd 0) (to_conn <$> cs)
              ++ [Call (c_accept sfd) (-1)] in
  r = Ret tt (world_of r) /\
  since w r
  = [Call (c_accept sfd) fd; Call (c_setsockopt_reuseport fd) 0;
     Call c_getnameinfo EAI_FAMILY;
     Call (c_fcntl_getfl fd) O_RDWR;
     Call (c_fcntl_setfl fd (Z.lor O_RDWR O_NONBLOCK)) 0;
     Call (c_epoll_ctl_add efd fd (Z.lor EPOLLIN EPOLLET)) 0] ++ rest /\
  (exists s, files (world_of r) !! fd = Some s /\
             kind s = KStream rx fin /\ is_nonblocking s = true) /\
  files (world_of r) !! efd
  = Some (with_kind g (KEpoll lim (int ++ (fd, Z.lor EPOLLIN EPOLLET) :: (to_watch <$> cs))
                         rdy)) /\
  handle_event sfd efd (readable fd) (world_of r) = read_input_data fd (world_of r) /\
  read_results fd (since (world_of r) (read_input_data fd (world_of r)))
  = ((fun c => Z.of_nat (length c)) <$> chunks rx)
    ++ final_read (stream_end (stream_file rx fin) fin) /\
  (forall h p,
     let named := with_kind f (KListener (Pending n (Some (h, p)) rx fin
                                           :: (to_pending <$> cs))) in
     let wn := with_files w (<[sfd := named]> (files w)) in
     let rn := accept_new_connections efd sfd wn in
     since wn rn
     = [Call (c_accept sfd) fd; Call (c_setsockopt_reuseport fd) 0;
        Call c_getnameinfo 0; Stdout (Accepted h p fd);
        Call (c_fcntl_getfl fd) O_RDWR;
        Call (c_fcntl_setfl fd (Z.lor O_RDWR O_NONBLOCK)) 0;
        Call (c_epoll_ctl_add efd fd (Z.lor EPOLLIN EPOLLET)) 0] ++ rest /\
     files (world_of rn) = files (world_of r)).
Proof.
  intros Hf Hk Hnb Hg Hgk Hne Hnd Hfresh Hunw Hcs Hroom fd r rest.
  set (a := {| arr_fd := n; arr_peer := None; arr_rx := rx; arr_fin := fin |}).
  assert (forall peer c,
            c ∈ {| arr_fd := n; arr_peer := peer; arr_rx := rx; arr_fin := fin |} :: cs ->
            files w !! Z.of_nat (arr_fd c) = None /\
            watches (Z.of_nat (arr_fd c)) int = false) as Hall.
  { intros peer c [->|Hc]%elem_of_cons; [by split|by apply Hcs]. }
  destruct (accept_pass_queue efd sfd lim rdy (a :: cs) w f g int Hf Hk Hnb Hg Hgk Hne Hnd
              (Hall None) ltac:(cbn [length]; lia))
    as (w' & Hr & Ht & _ & Hs' & He' & Hfds & Hframe).
  assert (sfd <> fd) as Hsf by (intros E; subst fd; rewrite <- E in Hfresh; congruence).
  assert (r = Ret tt w') as Hrw by exact Hr.
  rewrite Hrw. cbn [world_of].
  pose proof (Hfds a (list_elem_of_here _ _)) as Hfd. cbn [arr_fd arr_rx arr_fin a] in Hfd.
  fold fd in Hfd.
  split; [reflexivity|]. split.
  { rewrite <- Hrw. apply since_app. rewrite Hrw. cbn [world_of]. rewrite Ht.
    rewrite fmap_cons. cbn [flat_map]. by rewrite <- app_assoc. }
  split; [by exists (stream_file rx fin)|].
  split; [exact He'|].
  split.
  { unfold handle_event. cbn [events data_fd readable].
    change (abnormal EPOLLIN) with false. cbv iota.
    by rewrite (proj2 (Z.eqb_neq sfd fd) Hsf). }
  split.
  { rewrite (read_pass_since fd w' (stream_file rx fin) rx fin Hfd eq_refl).
    rewrite read_results_app, read_results_chunks. f_equal.
    unfold closing. destruct (stream_end (stream_file rx fin) fin);
      cbn [last_read marks_closure final_read read_results flat_map app];
      by rewrite ?Z.eqb_refl. }
  intros h p. cbv zeta.
  set (named := with_kind f (KListener (Pending n (Some (h, p)) rx fin
                                         :: (to_pending <$> cs)))).
  set (wn := with_files w (<[sfd := named]> (files w))).
  set (rn := accept_new_connections efd sfd wn).
  set (an := {| arr_fd := n; arr_peer := Some (h, p); arr_rx := rx; arr_fin := fin |}).
  destruct (accept_pass_queue efd sfd lim rdy (an :: cs) wn named g int)
    as (wn' & Hrn & Htn & _ & Hsn & Hen & Hfdsn & Hframen).
  { subst wn. cbn [files with_files]. apply lookup_insert_eq. }
  { reflexivity. }
  { exact Hnb. }
  { subst wn. cbn [files with_files]. by rewrite lookup_insert_ne. }
  { exact Hgk. }
  { exact Hne. }
  { exact Hnd. }
  { intros c Hc. destruct (Hall (Some (h, p)) c Hc) as [Hc1 Hc2]. split; [|done].
    subst wn. cbn [files with_files]. rewrite lookup_insert_ne; [done|].
    intros E. rewrite <- E in Hc1. congruence. }
  { cbn [length]. lia. }
  assert (rn = Ret tt wn') as Hrnw by exact Hrn.
  rewrite Hrnw. cbn [world_of]. split.
  { rewrite <- Hrnw. apply since_app. rewrite Hrnw. cbn [world_of]. rewrite Htn.
    rewrite fmap_cons. cbn [flat_map]. by rewrite <- app_assoc. }
  apply map_eq. intros x.
  destruct (decide (x = sfd)) as [->|Hx1]; [by rewrite Hsn, Hs'|].
  destruct (decide (x = efd)) as [->|Hx2]; [by rewrite Hen, He'|].
  destruct (decide (x = fd)) as [->|Hx3].
  { rewrite Hfd. apply (Hfdsn an (list_elem_of_here _ _)). }
  destruct (decide (x ∈ ((fun c => Z.of_nat (arr_fd c)) <$> cs))) as [Hin|Hx4].
  { apply list_elem_of_fmap_1 in Hin as (c & -> & Hc).
    rewrite (Hfds c (list_elem_of_further _ _ _ Hc)).
    by rewrite (Hfdsn c (list_elem_of_further _ _ _ Hc)). }
  assert (forall c, c ∈ cs -> x <> Z.of_nat (arr_fd c)) as Hx5.
  { intros c Hc ->. apply Hx4.
    by apply (list_elem_of_fmap_2 (fun c => Z.of_nat (arr_fd c))). }
  rewrite Hframen, Hframe; try done.
  - subst wn. cbn [files with_files]. by rewrite lookup_insert_ne.
  - intros c [->|Hc]%elem_of_cons; [done|]. by apply Hx5.
  - intros c [->|Hc]%elem_of_cons; [done|]. by apply Hx5.
Qed.

Lemma unprintable_peer_still_served_witness :
  let w := serving_world [Pending 6 None ["x"%byte] RxOpen] [] in
  since w (accept_new_connections 4 3 w)
  = [Call (c_accept 3) 6; Call (c_setsockopt_reuseport 6) 0;
     Call c_getnameinfo EAI_FAMILY;
     Call (c_fcntl_getfl 6) O_RDWR;
     Call (c_fcntl_setfl 6 (Z.lor O_RDWR O_NONBLOCK)) 0;
     Call (c_epoll_ctl_add 4 6 (Z.lor EPOLLIN EPOLLET)) 0;
     Call (c_accept 3) (-1)] /\
  read_results 6 (since (world_of (accept_new_connections 4 3 w))
                    (read_input_data 6 (world_of (accept_new_connections 4 3 w))))
  = [1; -1].
Proof.
  intros w.
  destruct (unprintable_peer_still_served 4 3 w
              (listener_file [Pending 6 None ["x"%byte] RxOpen])
              (epoll_file 8 [(3, Z.lor EPOLLIN EPOLLET); (5, Z.lor EPOLLIN EPOLLET)] [])
              6%nat ["x"%byte] RxOpen [] 8%nat
              [(3, Z.lor EPOLLIN EPOLLET); (5, Z.lor EPOLLIN EPOLLET)] [])
    as (_ & Hs & _ & _ & _ & Hreads & _).
  - reflexivity.
  - reflexivity.
  - reflexivity.
  - reflexivity.
  - reflexivity.
  - discriminate.
  - apply NoDup_singleton.
  - reflexivity.
  - reflexivity.
  - intros c Hc. by apply elem_of_nil in Hc.
  - cbn [length]. lia.
  - split; [exact Hs|exact Hreads].
Defined.
(** ** C10: at most 128 events per wait *)

(** C10.  Every iteration of the event loop asks [epoll_wait] for at most
    128 events.  Of a ready batch it handles the first 128, in order, and
    leaves the others ready for the next wait; when the wait fails it
    handles no event, prints nothing and waits again; when nothing is ever
    ready it stays blocked in the wait. *)
Theorem wait_bounded_by_max_events (fuel : nat) (sfd efd : Z) (buf : list epoll_event)
    (w : world) (e : file) (lim : nat) (int : list (Z * Z)) (rdy : list wait_item) :
  files w !! efd = Some e ->
  kind e = KEpoll lim int rdy ->
  match rdy with
  | Batch evs :: rest =>
      let now := take 128 evs in
      let later := drop 128 evs in
      (length now <= 128)%nat /\
      evs = now ++ later /\
      ((128 < length evs)%nat -> later <> [] /\ requeue later rest = Batch later :: rest) /\
      event_loop_from (S fuel) sfd efd buf w
      = (handle_all sfd efd now;;
         event_loop_from fuel sfd efd (now ++ drop (length now) buf))
          (logged (with_files w
                     (<[efd := with_kind e (KEpoll lim int (requeue later rest))]> (files w)))
             [Call (c_epoll_wait efd 128) (Z.of_nat (length now))])
  | Interrupted err :: rest =>
      event_loop_from (S fuel) sfd efd buf w
      = event_loop_from fuel sfd efd buf
          (logged (with_errno
                     (with_files w (<[efd := with_kind e (KEpoll lim int rest)]> (files w)))
                     err)
             [Call (c_epoll_wait efd 128) (-1)])
  | [] => event_loop_from (S fuel) sfd efd buf w = Blocked w
  end.
Proof.
  intros Hf Hk. destruct rdy as [|[evs|err] rest].
  - cbn [event_loop_from]. unfold sys_epoll_wait. unfold bind at 1 2, get_files.
    rewrite Hf, Hk. reflexivity.
  - cbn zeta. split; [rewrite length_take; lia|].
    split; [by rewrite take_drop|]. split.
    + intros Hlong.
      assert (drop 128 evs <> []) as Hne.
      { intros E. apply (f_equal length) in E. rewrite length_drop in E.
        cbn [length] in E. lia. }
      split; [done|]. unfold requeue. by destruct (drop 128 evs).
    + apply (event_loop_batch fuel sfd efd buf w e lim int evs rest Hf Hk).
  - apply event_loop_no_event with (r := -1); [|lia].
    apply (epoll_wait_interrupted efd buf w e lim int err rest Hf Hk).
Qed.

Lemma wait_bounded_by_max_events_witness :
  since (serving_world [] [Interrupted EINTR; Batch (replicate 130 (readable 5))])
    (event_loop 3 3 4
       (serving_world [] [Interrupted EINTR; Batch (replicate 130 (readable 5))]))
  = [Call (c_epoll_wait 4 128) (-1); Call (c_epoll_wait 4 128) 128;
     Call (c_read 5 512) 2; Stdout (Incoming 5 ["h"%byte; "i"%byte])]
    ++ replicate 128 (Call (c_read 5 512) (-1))
    ++ [Call (c_epoll_wait 4 128) 2]
    ++ replicate 2 (Call (c_read 5 512) (-1)).
Proof.
  unfold event_loop.
  rewrite (wait_bounded_by_max_events 2 3 4
             (replicate (Z.to_nat MAX_EVENTS) zero_event)
             (serving_world [] [Interrupted EINTR; Batch (replicate 130 (readable 5))])
             (epoll_file 8 [(3, Z.lor EPOLLIN EPOLLET); (5, Z.lor EPOLLIN EPOLLET)]
                [Interrupted EINTR; Batch (replicate 130 (readable 5))])
             8 [(3, Z.lor EPOLLIN EPOLLET); (5, Z.lor EPOLLIN EPOLLET)]
             [Interrupted EINTR; Batch (replicate 130 (readable 5))] eq_refl eq_refl).
  vm_compute. reflexivity.
Defined.


(** * Further properties *)

(** ** X1-X3: what a read pass reads, logs and leaves *)

(** X1.  A pass over a connected socket leaves nothing unread.  It reads the
    receive buffer in chunks of up to 512 bytes until the buffer is empty,
    and the read after that decides how it ends: the descriptor is then
    either closed, or still open with an empty receive buffer.  A pass that
    does not close leaves every other descriptor as it was; one that closes
    takes the descriptor out of the table (and out of epoll interest lists)
    and changes nothing else. *)
Theorem read_pass_drains (w : world) (fd : Z) (f : file) (rx : list byte) (fin : rx_end) :
  files w !! fd = Some f ->
  kind f = KStream rx fin ->
  let r := read_input_data fd w in
  let o := stream_end f fin in
  r = drain_result o (world_of r) /\
  read_results fd (since w r)
  = ((fun c => Z.of_nat (length c)) <$> chunks rx) ++ final_read o /\
  concat (chunks rx) = rx /\
  files (world_of r) !! fd
  = (if marks_closure o then None else Some (with_kind f (KStream [] fin))) /\
  (forall fd', fd' <> fd ->
     files (world_of r) !! fd'
     = if marks_closure o then forget fd <$> files w !! fd' else files w !! fd').
Proof.
  intros Hf Hk r o.
  destruct (read_pass_stream fd w f rx fin Hf Hk) as (w' & Hr & Ht & Hfs & _).
  fold o in Hr, Ht, Hfs. fold r in Hr.
  assert (world_of r = w') as Hw by (rewrite Hr; by destruct o).
  rewrite Hw. split; [exact Hr|]. split; [|split; [apply concat_chunks|]].
  - subst r. rewrite (read_pass_since fd w f rx fin Hf Hk). fold o.
    rewrite read_results_app, read_results_chunks. f_equal.
    unfold closing. destruct o; cbn; by rewrite ?Z.eqb_refl.
  - rewrite Hfs. destruct (marks_closure o); split.
    + by rewrite lookup_fmap, lookup_delete_eq.
    + intros fd' Hne. by rewrite lookup_fmap, lookup_delete_ne.
    + apply lookup_insert_eq.
    + intros fd' Hne. by rewrite lookup_insert_ne.
Qed.

Lemma read_pass_drains_witness :
  let w := world_with {[ 5 := stream_file (replicate 600 "a"%byte) RxOpen ]} in
  read_results 5 (since w (read_input_data 5 w)) = [512; 88; -1]
  /\ files (world_of (read_input_data 5 w)) !! 5 = Some (stream_file [] RxOpen).
Proof.
  intros w.
  destruct (read_pass_drains w 5 (stream_file (replicate 600 "a"%byte) RxOpen)
              (replicate 600 "a"%byte) RxOpen eq_refl eq_refl)
    as (_ & Hreads & _ & Hfd & _).
  split.
  - rewrite Hreads. vm_compute. reflexivity.
  - rewrite Hfd. reflexivity.
Defined.





(** X3.  A pass over [n] waiting bytes prints [ceil(n / 512)] lines and
    stores a terminator outside its buffer [n / 512] times, once for every
    chunk that fills the buffer; with fewer than 512 bytes waiting it makes
    no access outside the buffer at all. *)
Theorem read_pass_counts (w : world) (fd : Z) (f : file) (rx : list byte) (fin : rx_end) :
  files w !! fd = Some f ->
  kind f = KStream rx fin ->
  let new := since w (read_input_data fd w) in
  length (logged_texts fd new) = ((length rx + 511) / 512)%nat /\
  occurrences is_overrun_store new = (length rx / 512)%nat /\
  ((length rx < 512)%nat -> occurrences is_out_of_bounds new = 0%nat).
Proof.
  intros Hf Hk new. subst new. rewrite (read_pass_since fd w f rx fin Hf Hk).
  split; [|split].
  - rewrite logged_texts_app, logged_texts_chunks, logged_texts_end, app_nil_r.
    by rewrite length_fmap, length_chunks.
  - rewrite occurrences_app, (occurrences_overrun_chunks _ fd _ (chunks_bounds rx)), full_chunks.
    unfold closing. destruct (stream_end f fin); cbn; lia.
  - intros Hshort. rewrite occurrences_app, occurrences_bounds_chunks.
    + unfold closing. by destruct (stream_end f fin).
    + eapply Forall_impl; [apply chunks_le|]. intros c Hc. cbn beta in Hc.
      unfold BUF_SIZE. lia.
Qed.

Lemma read_pass_counts_witness :
  let w := world_with {[ 5 := stream_file (replicate 1100 "a"%byte) RxOpen ]} in
  length (logged_texts 5 (since w (read_input_data 5 w))) = 3%nat
  /\ occurrences is_overrun_store (since w (read_input_data 5 w)) = 2%nat.
Proof.
  intros w.
  destruct (read_pass_counts w 5 (stream_file (replicate 1100 "a"%byte) RxOpen)
              (replicate 1100 "a"%byte) RxOpen eq_refl eq_refl) as (Hlines & Hstores & _).
  split.
  - rewrite Hlines. vm_compute. reflexivity.
  - rewrite Hstores. vm_compute. reflexivity.
Defined.

(** ** X4-X5: [make_socket_non_blocking] *)

Lemma lor_nonblock_bits (fl k : Z) :
  Z.testbit (Z.lor fl O_NONBLOCK) k = Z.testbit fl k || (k =? 11).
Proof.
  rewrite Z.lor_spec. f_equal. change O_NONBLOCK with (2 ^ 11).
  destruct (Z.eqb_spec k 11) as [->|Hne].
  - by apply Z.pow2_bits_true.
  - apply Z.pow2_bits_false. congruence.
Qed.

Lemma is_nonblocking_bit (f : file) : is_nonblocking f = Z.testbit (flags f) 11.
Proof.
  unfold is_nonblocking. change O_NONBLOCK with (2 ^ 11).
  rewrite land_bit by lia. apply negb_involutive.
Qed.

Lemma make_socket_non_blocking_open (w : world) (fd : Z) (f : file) :
  files w !! fd = Some f ->
  make_socket_non_blocking fd w
  = Ret tt (logged (with_files w (<[fd := {| flags := Z.lor (flags f) O_NONBLOCK;
                                             kind := kind f |}]> (files w)))
              [Call (c_fcntl_getfl fd) (flags f);
               Call (c_fcntl_setfl fd (Z.lor (flags f) O_NONBLOCK)) 0]).
Proof.
  intros Hf.
  unfold make_socket_non_blocking, sys_fcntl_getfl. unfold bind at 1 2, get_files.
  rewrite Hf. run. unfold sys_fcntl_setfl. unfold bind at 1 2 3, get_files.
  cbn [files logged]. rewrite Hf. run. by wnorm.
Qed.

(** X4.  On an open descriptor [make_socket_non_blocking] reads the status
    flags and writes them back with [O_NONBLOCK] added: afterwards the
    descriptor is non-blocking, every other flag bit and the object behind
    the descriptor are as before, and no other descriptor is touched.  On a
    descriptor that is non-blocking already the table does not change. *)
Theorem make_socket_non_blocking_sets_the_flag (w : world) (fd : Z) (f : file) :
  files w !! fd = Some f ->
  let f' := {| flags := Z.lor (flags f) O_NONBLOCK; kind := kind f |} in
  make_socket_non_blocking fd w
  = Ret tt (logged (with_files w (<[fd := f']> (files w)))
              [Call (c_fcntl_getfl fd) (flags f);
               Call (c_fcntl_setfl fd (Z.lor (flags f) O_NONBLOCK)) 0]) /\
  is_nonblocking f' = true /\
  (forall k, k <> 11 -> Z.testbit (flags f') k = Z.testbit (flags f) k) /\
  (is_nonblocking f = true -> <[fd := f']> (files w) = files w).
Proof.
  intros Hf f'. split; [|split; [|split]].
  - by apply make_socket_non_blocking_open.
  - rewrite is_nonblocking_bit. cbn [flags f']. rewrite lor_nonblock_bits.
    apply orb_true_r.
  - intros k Hk. cbn [flags f']. rewrite lor_nonblock_bits.
    rewrite (proj2 (Z.eqb_neq k 11) Hk). apply orb_false_r.
  - intros Hnb. apply insert_id. rewrite Hf. f_equal.
    rewrite is_nonblocking_bit in Hnb.
    assert (Z.lor (flags f) O_NONBLOCK = flags f) as E.
    { apply Z.bits_inj'. intros k _. rewrite lor_nonblock_bits.
      destruct (Z.eqb_spec k 11) as [->|_]; [by rewrite Hnb|apply orb_false_r]. }
    subst f'. rewrite E. by destruct f.
Qed.

Lemma make_socket_non_blocking_sets_the_flag_witness :
  let w := world_with {[ 3 := {| flags := O_RDWR; kind := KSocket true |} ]} in
  files (world_of (make_socket_non_blocking 3 w)) !! 3
  = Some {| flags := 2050; kind := KSocket true |}.
Proof.
  intros w.
  rewrite (proj1 (make_socket_non_blocking_sets_the_flag w 3
                    {| flags := O_RDWR; kind := KSocket true |} eq_refl)).
  reflexivity.
Defined.

(** X5.  [make_socket_non_blocking] checks neither call.  On a descriptor
    that is not open, [F_GETFL] fails and its -1 is used as the flags:
    [F_SETFL] is still called, with -1 (all bits set), and fails too; the
    function returns normally, the descriptor table unchanged and [errno]
    left at EBADF. *)
Theorem make_socket_non_blocking_ignores_failure (w : world) (fd : Z) :
  files w !! fd = None ->
  make_socket_non_blocking fd w
  = Ret tt (logged (with_errno w EBADF)
              [Call (c_fcntl_getfl fd) (-1); Call (c_fcntl_setfl fd (-1)) (-1)]).
Proof.
  intros Hf. unfold make_socket_non_blocking, sys_fcntl_getfl.
  unfold bind at 1 2, get_files. rewrite Hf. run.
  unfold sys_fcntl_setfl. unfold bind at 1 2 3, get_files.
  cbn [files logged with_errno]. rewrite Hf. run. by wnorm.
Qed.

Lemma make_socket_non_blocking_ignores_failure_witness :
  make_socket_non_blocking 9 (world_with ∅)
  = Ret tt (logged (with_errno (world_with ∅) EBADF)
              [Call (c_fcntl_getfl 9) (-1); Call (c_fcntl_setfl 9 (-1)) (-1)]).
Proof. apply make_socket_non_blocking_ignores_failure. reflexivity. Defined.

(** ** X6-X7: [create_server_socket] *)

(** X6.  The three ways [create_server_socket] fails.  Each prints a
    diagnostic with the name of the call and throws; none releases what was
    acquired before.  When name resolution fails no socket is created; the
    code [getaddrinfo] returned, where the error is, is not reported: the
    number [perror] prints is [errno] as the call left it, the value it set
    or, when it set none, whatever [errno] held before.  When [socket] fails
    the address list is not freed.  When [bind] fails the address list is
    not freed and the new socket is left open. *)
Theorem create_server_socket_failures (port : string) (w : world) :
  (resolve (boot w) port = None ->
   let w1 := match gai_errno (boot w) port with
             | Some e => with_errno w e
             | None => w
             end in
   create_server_socket port w
   = Throw "call to getaddrinfo failed"
       (logged w1 [Call (c_getaddrinfo port) (Z.neg (gai_error (boot w) port));
                   Stderr (Perror "getaddrinfo" (errno w1))]))
  /\ (forall ai e,
        resolve (boot w) port = Some ai ->
        socket_res (boot w) = inr e ->
        create_server_socket port w
        = Throw "call to socket failed"
            (logged (with_errno w e)
               [Call (c_getaddrinfo port) 0;
                Call (c_socket (ai_family ai) (ai_socktype ai) (ai_protocol ai)) (-1);
                Stderr (Perror "socket" e)]))
  /\ (forall ai n e,
        resolve (boot w) port = Some ai ->
        socket_res (boot w) = inl n ->
        bind_res (boot w) = Some e ->
        create_server_socket port w
        = Throw "call to bind failed"
            (logged (with_errno
                       (with_files w (<[Z.of_nat n := {| flags := O_RDWR;
                                                         kind := KSocket false |}]>
                                        (files w))) e)
               [Call (c_getaddrinfo port) 0;
                Call (c_socket (ai_family ai) (ai_socktype ai) (ai_protocol ai)) (Z.of_nat n);
                Call (c_bind (Z.of_nat n)) (-1);
                Stderr (Perror "bind" e)])).
Proof.
  split; [|split].
  - intros Hres w1. unfold create_server_socket, sys_getaddrinfo.
    unfold bind at 1 2, get_boot. rewrite Hres. cbv zeta. subst w1.
    destruct (gai_errno (boot w) port) as [e|]; run;
      change (negb (Z.neg (gai_error (boot w) port) =? 0)) with true; run; by wnorm.
  - intros ai e Hres Hsock. unfold create_server_socket, sys_getaddrinfo.
    unfold bind at 1 2, get_boot. rewrite Hres. run.
    change (negb (0 =? 0)) with false. cbv iota.
    unfold sys_socket. unfold bind at 1 2, get_boot. cbn [boot logged].
    rewrite Hsock. run. change (-1 =? -1) with true. run. by wnorm.
  - intros ai n e Hres Hsock Hbind. unfold create_server_socket, sys_getaddrinfo.
    unfold bind at 1 2, get_boot. rewrite Hres. run.
    change (negb (0 =? 0)) with false. cbv iota.
    unfold sys_socket. unfold bind at 1 2, get_boot. cbn [boot logged].
    rewrite Hsock. run.
    destruct (Z.eqb_spec (Z.of_nat n) (-1)) as [E|_]; [lia|].
    unfold sys_bind. unfold bind at 1 2 3, get_boot, get_files.
    cbn [boot files logged with_files]. rewrite lookup_insert_eq. cbn [kind].
    rewrite Hbind. run. change (-1 =? -1) with true. run. by wnorm.
Qed.

Lemma create_server_socket_failures_witness :
  create_server_socket "nosuchport" (fresh_process idle_boot)
  = Throw "call to getaddrinfo failed"
      (logged (with_errno (fresh_process idle_boot) ENOENT)
         [Call (c_getaddrinfo "nosuchport") EAI_SERVICE; Stderr (Perror "getaddrinfo" ENOENT)])
  /\ create_server_socket "8080"
       (fresh_process (boot_answering (inr 24) None None (inr 24) 0))
     = Throw "call to socket failed"
         (logged (with_errno
                    (fresh_process (boot_answering (inr 24) None None (inr 24) 0)) 24)
            [Call (c_getaddrinfo "8080") 0; Call (c_socket 2 1 6) (-1);
             Stderr (Perror "socket" 24)])
  /\ files (world_of (create_server_socket "8080"
              (fresh_process (boot_answering (inl 3%nat) (Some 98) None (inr 24) 0)))) !! 3
     = Some {| flags := O_RDWR; kind := KSocket false |}.
Proof.
  split; [|split].
  - apply (proj1 (create_server_socket_failures "nosuchport" (fresh_process idle_boot))).
    reflexivity.
  - apply (proj1 (proj2 (create_server_socket_failures "8080"
             (fresh_process (boot_answering (inr 24) None None (inr 24) 0))))
             inet_any 24); reflexivity.
  - rewrite (proj2 (proj2 (create_server_socket_failures "8080"
               (fresh_process (boot_answering (inl 3%nat) (Some 98) None (inr 24) 0))))
               inet_any 3%nat 98 eq_refl eq_refl eq_refl).
    reflexivity.
Defined.

Lemma create_server_socket_ok (port : string) (w : world) (ai : addrinfo) (n : nat) :
  resolve (boot w) port = Some ai ->
  socket_res (boot w) = inl n ->
  bind_res (boot w) = None ->
  create_server_socket port w
  = Ret (Z.of_nat n)
      (logged (with_files w (<[Z.of_nat n := {| flags := Z.lor O_RDWR O_NONBLOCK;
                                                kind := KSocket true |}]> (files w)))
         [Call (c_getaddrinfo port) 0;
          Call (c_socket (ai_family ai) (ai_socktype ai) (ai_protocol ai)) (Z.of_nat n);
          Call (c_bind (Z.of_nat n)) 0;
          Call c_freeaddrinfo 0;
          Call (c_fcntl_getfl (Z.of_nat n)) O_RDWR;
          Call (c_fcntl_setfl (Z.of_nat n) (Z.lor O_RDWR O_NONBLOCK)) 0]).
Proof.
  intros Hres Hsock Hbind. set (s := Z.of_nat n).
  unfold create_server_socket, sys_getaddrinfo.
  unfold bind at 1 2, get_boot. rewrite Hres. run.
  change (negb (0 =? 0)) with false. cbv iota.
  unfold sys_socket. unfold bind at 1 2, get_boot. cbn [boot logged].
  rewrite Hsock. run. fold s.
  destruct (Z.eqb_spec s (-1)) as [E|_]; [subst s; lia|].
  unfold sys_bind. unfold bind at 1 2 3, get_boot, get_files.
  cbn [boot files logged with_files]. rewrite lookup_insert_eq. cbn [kind].
  rewrite Hbind. run. change (0 =? -1) with false. cbv iota.
  unfold sys_freeaddrinfo. run.
  match goal with |- (_ ;; _)%prog ?w1 = _ =>
    pose proof (make_socket_non_blocking_open w1 s
                  (with_kind {| flags := O_RDWR; kind := KSocket false |} (KSocket true)))
      as Hnb end.
  rewrite (bind_Ret _ _ _ _ _ (Hnb ltac:(cbn [files logged with_files];
                                         apply lookup_insert_eq))).
  run. wnorm.
  cbn [files logged with_files flags kind with_kind].
  by rewrite !insert_insert_eq.
Qed.

(** X7.  When resolution, [socket] and [bind] succeed, [create_server_socket]
    returns the new descriptor: a bound socket, made non-blocking and not yet
    listening; the address list has been freed and nothing else in the
    descriptor table has changed. *)
Theorem create_server_socket_success (port : string) (w : world) (ai : addrinfo) (n : nat) :
  resolve (boot w) port = Some ai ->
  socket_res (boot w) = inl n ->
  bind_res (boot w) = None ->
  let s := Z.of_nat n in
  let sock := {| flags := Z.lor O_RDWR O_NONBLOCK; kind := KSocket true |} in
  create_server_socket port w
  = Ret s (logged (with_files w (<[s := sock]> (files w)))
             [Call (c_getaddrinfo port) 0;
              Call (c_socket (ai_family ai) (ai_socktype ai) (ai_protocol ai)) s;
              Call (c_bind s) 0;
              Call c_freeaddrinfo 0;
              Call (c_fcntl_getfl s) O_RDWR;
              Call (c_fcntl_setfl s (Z.lor O_RDWR O_NONBLOCK)) 0]) /\
  is_nonblocking sock = true /\
  (forall fd, fd <> s ->
     files (world_of (create_server_socket port w)) !! fd = files w !! fd).
Proof.
  intros Hres Hsock Hbind s sock.
  pose proof (create_server_socket_ok port w ai n Hres Hsock Hbind) as E.
  split; [exact E|split; [reflexivity|]].
  intros fd Hfd. rewrite E. cbn [world_of files logged with_files].
  by apply lookup_insert_ne.
Qed.

Lemma create_server_socket_success_witness :
  create_server_socket "8080" (fresh_process (boot_with [] 8 []))
  = Ret 3 (logged (with_files (fresh_process (boot_with [] 8 []))
                     (<[3 := {| flags := Z.lor O_RDWR O_NONBLOCK; kind := KSocket true |}]>
                        (files (fresh_process (boot_with [] 8 [])))))
             [Call (c_getaddrinfo "8080") 0; Call (c_socket 2 1 6) 3; Call (c_bind 3) 0;
              Call c_freeaddrinfo 0; Call (c_fcntl_getfl 3) O_RDWR;
              Call (c_fcntl_setfl 3 (Z.lor O_RDWR O_NONBLOCK)) 0]).
Proof.
  apply (proj1 (create_server_socket_success "8080" (fresh_process (boot_with [] 8 []))
                  inet_any 3%nat eq_refl eq_refl eq_refl)).
Defined.

(** ** X8-X9: the start-up sequence of [main] *)

Lemma main_with_port (fuel : nat) (argv : list string) (w : world) :
  length argv = 2%nat ->
  main fuel argv w
  = (let* server_fd := create_server_socket (nth 1 argv "") in
     let* r := sys_listen server_fd SOMAXCONN in
     if r =? -1 then perror "listen";; throw "call to listen failed"
     else
       let* efd := sys_epoll_create1 in
       if efd =? -1 then perror "epoll_create1";; throw "call to epoll_create1 failed"
       else
         let* r := sys_epoll_ctl_add efd server_fd (Z.lor EPOLLIN EPOLLET) in
         if r =? -1 then
           perror "epoll_ctl";; throw "call to epoll_ctl failed (attempted to add fd)"
         else event_loop fuel server_fd efd;; sys_close server_fd;; ret EXIT_SUCCESS)%prog w.
Proof. intros Hlen. unfold main. cbv zeta. by rewrite Hlen. Qed.

(** The listening step on the socket [create_server_socket] returned. *)
Lemma listen_step (w : world) (s : Z) (f : file) (b : bool) :
  files w !! s = Some f -> kind f = KSocket b ->
  sys_listen s SOMAXCONN w
  = match listen_res (boot w) with
    | None => Ret 0 (logged (with_files w (<[s := with_kind f (KListener (inbound (boot w)))]>
                                             (files w)))
                       [Call (c_listen s SOMAXCONN) 0])
    | Some e => Ret (-1) (logged (with_errno w e) [Call (c_listen s SOMAXCONN) (-1)])
    end.
Proof.
  intros Hf Hk. unfold sys_listen. unfold bind at 1 2 3, get_boot, get_files.
  rewrite Hf, Hk. destruct (listen_res (boot w)); run; by wnorm.
Qed.

(** The start-up sequence when every call succeeds. *)
Lemma main_startup (fuel : nat) (argv : list string) (w : world)
    (ai : addrinfo) (sn en : nat) :
  length argv = 2%nat ->
  resolve (boot w) (nth 1 argv "") = Some ai ->
  socket_res (boot w) = inl sn ->
  bind_res (boot w) = None ->
  listen_res (boot w) = None ->
  epoll_create_res (boot w) = inl en ->
  sn <> en ->
  (0 < watch_limit (boot w))%nat ->
  let s := Z.of_nat sn in
  let e := Z.of_nat en in
  main fuel argv w
  = (event_loop fuel s e;; sys_close s;; ret EXIT_SUCCESS)%prog
      (logged (with_files w (serving_files (boot w) s e (files w)))
         (startup_calls (nth 1 argv "") ai s e)).
Proof.
  intros Hlen Hres Hsock Hbind Hlisten Hep Hne Hlim s e.
  rewrite main_with_port by done.
  rewrite (bind_Ret _ _ _ _ _ (create_server_socket_ok _ w ai sn Hres Hsock Hbind)).
  fold s.
  match goal with |- (let* _ := _ in _)%prog ?w1 = _ =>
    pose proof (listen_step w1 s _ true
                  ltac:(cbn [files logged with_files]; apply lookup_insert_eq) eq_refl) as Hl
  end.
  cbn [boot logged with_files] in Hl. rewrite Hlisten in Hl.
  rewrite (bind_Ret _ _ _ _ _ Hl). clear Hl.
  change (0 =? -1) with false. cbv iota.
  unfold sys_epoll_create1. unfold bind at 1 2, get_boot. cbn [boot logged with_files].
  rewrite Hep. run. fold e.
  destruct (Z.eqb_spec e (-1)) as [E|_]; [subst e; lia|].
  unfold sys_epoll_ctl_add. unfold bind at 1 2, get_files.
  cbn [files logged with_files]. rewrite lookup_insert_eq. cbn [kind].
  rewrite lookup_insert_ne by (subst s e; lia). rewrite lookup_insert_eq.
  destruct (Z.eqb_spec s e) as [E|_]; [subst s e; lia|].
  cbn [watches existsb].
  destruct (Nat.leb_spec (watch_limit (boot w)) (length (@nil (Z * Z)))) as [Hle|_];
    [cbn [length] in Hle; lia|].
  run. change (0 =? -1) with false. cbv iota. f_equal.
  wnorm. cbn [files logged with_files errno boot with_kind flags kind app].
  unfold serving_files, startup_calls, socket_calls, epoll_file, listener_file.
  rewrite !insert_insert_eq. cbn [app]. reflexivity.
Qed.

(** X8.  A start-up in which every call succeeds: [main] enters the event
    loop with the listening socket non-blocking and holding the connections
    that wait, and the epoll instance watching that socket alone, for
    readability and edge-triggered; every other descriptor and [errno] are
    as the process found them, and the calls made are the nine of the
    start-up sequence, in order. *)
Theorem main_enters_the_event_loop (fuel : nat) (argv : list string) (w : world)
    (ai : addrinfo) (sn en : nat) :
  length argv = 2%nat ->
  resolve (boot w) (nth 1 argv "") = Some ai ->
  socket_res (boot w) = inl sn ->
  bind_res (boot w) = None ->
  listen_res (boot w) = None ->
  epoll_create_res (boot w) = inl en ->
  sn <> en ->
  (0 < watch_limit (boot w))%nat ->
  let s := Z.of_nat sn in
  let e := Z.of_nat en in
  let w0 := logged (with_files w (serving_files (boot w) s e (files w)))
              (startup_calls (nth 1 argv "") ai s e) in
  main fuel argv w = (event_loop fuel s e;; sys_close s;; ret EXIT_SUCCESS)%prog w0 /\
  files w0 !! s = Some (listener_file (inbound (boot w))) /\
  files w0 !! e
  = Some (epoll_file (watch_limit (boot w)) [(s, Z.lor EPOLLIN EPOLLET)] (wakeups (boot w))) /\
  (forall fd, fd <> s -> fd <> e -> files w0 !! fd = files w !! fd) /\
  errno w0 = errno w.
Proof.
  intros Hlen Hres Hsock Hbind Hlisten Hep Hne Hlim s e w0.
  split; [by apply main_startup|].
  subst w0. cbn [files errno logged with_files]. unfold serving_files.
  assert (s <> e) by (subst s e; lia).
  split; [by rewrite lookup_insert_ne, lookup_insert_eq|].
  split; [by rewrite lookup_insert_eq|].
  split; [|done]. intros fd H1 H2. by rewrite !lookup_insert_ne.
Qed.

Lemma main_enters_the_event_loop_witness :
  main 1 ["server"; "8080"] (fresh_process (boot_with [] 8 []))
  = (event_loop 1 3 4;; sys_close 3;; ret EXIT_SUCCESS)%prog
      (logged (with_files (fresh_process (boot_with [] 8 []))
                 (serving_files (boot_with [] 8 []) 3 4 ∅))
         (startup_calls "8080" inet_any 3 4)).
Proof.
  apply (proj1 (main_enters_the_event_loop 1 ["server"; "8080"]
                  (fresh_process (boot_with [] 8 []))
                  inet_any 3%nat 4%nat eq_refl eq_refl eq_refl eq_refl eq_refl eq_refl
                  ltac:(lia) ltac:(cbn; lia))).
Defined.

(** X9.  A start-up that fails after the socket exists.  When [listen],
    [epoll_create1] or the registration of the listening socket fails,
    [main] prints a diagnostic naming the call and throws the matching
    message; the event loop is never entered, and the descriptors opened so
    far (the socket, and the epoll instance once it exists) are left open. *)
Theorem main_startup_failures (fuel : nat) (argv : list string) (w : world)
    (ai : addrinfo) (sn : nat) :
  length argv = 2%nat ->
  resolve (boot w) (nth 1 argv "") = Some ai ->
  socket_res (boot w) = inl sn ->
  bind_res (boot w) = None ->
  let s := Z.of_nat sn in
  let port := nth 1 argv "" in
  (forall e,
     listen_res (boot w) = Some e ->
     main fuel argv w
     = Throw "call to listen failed"
         (logged (with_errno (with_files w (<[s := bound_socket]> (files w))) e)
            (socket_calls port ai s ++
             [Call (c_listen s SOMAXCONN) (-1); Stderr (Perror "listen" e)])))
  /\ (forall e,
        listen_res (boot w) = None ->
        epoll_create_res (boot w) = inr e ->
        main fuel argv w
        = Throw "call to epoll_create1 failed"
            (logged (with_errno
                       (with_files w (<[s := listener_file (inbound (boot w))]> (files w))) e)
               (socket_calls port ai s ++
                [Call (c_listen s SOMAXCONN) 0; Call c_epoll_create1 (-1);
                 Stderr (Perror "epoll_create1" e)])))
  /\ (forall en,
        listen_res (boot w) = None ->
        epoll_create_res (boot w) = inl en ->
        sn <> en ->
        watch_limit (boot w) = 0%nat ->
        let e := Z.of_nat en in
        main fuel argv w
        = Throw "call to epoll_ctl failed (attempted to add fd)"
            (logged (with_errno
                       (with_files w
                          (<[e := epoll_file 0 [] (wakeups (boot w))]>
                             (<[s := listener_file (inbound (boot w))]> (files w))))
                       ENOSPC)
               (socket_calls port ai s ++
                [Call (c_listen s SOMAXCONN) 0; Call c_epoll_create1 e;
                 Call (c_epoll_ctl_add e s (Z.lor EPOLLIN EPOLLET)) (-1);
                 Stderr (Perror "epoll_ctl" ENOSPC)]))).
Proof.
  intros Hlen Hres Hsock Hbind s port.
  assert (forall k : Z -> M Z,
            main fuel argv w
            = (let* r := sys_listen s SOMAXCONN in k r)%prog
                (logged (with_files w (<[s := bound_socket]> (files w)))
                   (socket_calls port ai s)) ->
            forall r w', 
              sys_listen s SOMAXCONN
                (logged (with_files w (<[s := bound_socket]> (files w)))
                   (socket_calls port ai s)) = Ret r w' ->
              main fuel argv w = k r w') as Hstep.
  { intros k -> r w' Hl. by rewrite (bind_Ret _ _ _ _ _ Hl). }
  pose proof (main_with_port fuel argv w Hlen) as Hmain.
  rewrite (bind_Ret _ _ _ _ _ (create_server_socket_ok _ w ai sn Hres Hsock Hbind))
    in Hmain.
  fold s port in Hmain.
  pose proof (listen_step (logged (with_files w (<[s := bound_socket]> (files w)))
                             (socket_calls port ai s)) s bound_socket true
                ltac:(cbn [files logged with_files]; apply lookup_insert_eq) eq_refl) as Hl.
  cbn [boot logged with_files] in Hl.
  split; [|split].
  - intros e Hlisten. rewrite Hlisten in Hl.
    rewrite (Hstep _ Hmain _ _ Hl). change (-1 =? -1) with true. run. by wnorm.
  - intros e Hlisten Hep. rewrite Hlisten in Hl.
    rewrite (Hstep _ Hmain _ _ Hl). change (0 =? -1) with false. cbv iota.
    unfold sys_epoll_create1. unfold bind at 1 2, get_boot. cbn [boot logged with_files].
    rewrite Hep. run. change (-1 =? -1) with true. run. wnorm.
    cbn [files logged with_files errno boot with_kind flags kind app bound_socket].
    unfold listener_file. by rewrite !insert_insert_eq.
  - intros en Hlisten Hep Hne Hlim e. rewrite Hlisten in Hl.
    rewrite (Hstep _ Hmain _ _ Hl). change (0 =? -1) with false. cbv iota.
    unfold sys_epoll_create1. unfold bind at 1 2, get_boot. cbn [boot logged with_files].
    rewrite Hep. run. fold e.
    destruct (Z.eqb_spec e (-1)) as [E|_]; [subst e; lia|].
    unfold sys_epoll_ctl_add. unfold bind at 1 2, get_files.
    cbn [files logged with_files]. rewrite lookup_insert_eq. cbn [kind].
    rewrite lookup_insert_ne by (subst s e; lia). rewrite lookup_insert_eq.
    destruct (Z.eqb_spec s e) as [E|_]; [subst s e; lia|].
    cbn [watches existsb]. rewrite Hlim. cbn [Nat.leb length]. run.
    change (-1 =? -1) with true. run. wnorm.
    cbn [files logged with_files errno boot with_kind flags kind app bound_socket].
    unfold listener_file, epoll_file. by rewrite !insert_insert_eq.
Qed.

Lemma main_startup_failures_witness :
  main 5 ["server"; "8080"] (fresh_process (boot_with [] 0 []))
  = Throw "call to epoll_ctl failed (attempted to add fd)"
      (logged (with_errno
                 (with_files (fresh_process (boot_with [] 0 []))
                    (<[4 := epoll_file 0 [] []]> (<[3 := listener_file []]> ∅)))
                 ENOSPC)
         (socket_calls "8080" inet_any 3 ++
          [Call (c_listen 3 SOMAXCONN) 0; Call c_epoll_create1 4;
           Call (c_epoll_ctl_add 4 3 (Z.lor EPOLLIN EPOLLET)) (-1);
           Stderr (Perror "epoll_ctl" ENOSPC)])).
Proof.
  apply (proj2 (proj2 (main_startup_failures 5 ["server"; "8080"]
                         (fresh_process (boot_with [] 0 [])) inet_any 3%nat
                         eq_refl eq_refl eq_refl eq_refl)) 4%nat);
    try reflexivity; lia.
Defined.

(** ** X10: how [main] can end *)

Lemma diagnosed_bind {A B} (m : M A) (k : A -> M B) w :
  diagnosed (m w) -> (forall a w', diagnosed (k a w')) -> diagnosed (bind m k w).
Proof. unfold bind. destruct (m w); cbn; auto. Qed.

Lemma diagnosed_plain {A} (m : M A) w : plain m -> diagnosed (m w).
Proof. intros H. specialize (H w). by destruct (m w). Qed.

Lemma diagnosed_throw {A} (tag what : string) w :
  In (tag, what) failure_messages ->
  diagnosed ((perror tag;; throw what)%prog w : result A).
Proof.
  intros Hin. run. unfold throw. cbn [diagnosed]. unfold announced. cbn [trace logged].
  by rewrite last_snoc.
Qed.

Lemma only_registration_diagnosed {A} efd sfd (r : result A) :
  only_registration_throws efd sfd r -> diagnosed r.
Proof.
  destruct r as [| what w | | |]; cbn [only_registration_throws diagnosed]; try done.
  intros (-> & pre & c & e & Ht). unfold announced.
  rewrite Ht, app_assoc, last_snoc. cbn. tauto.
Qed.

Ltac plainly :=
  intros w; cbv beta delta [bind get_files get_boot get_errno set_files set_errno
                            emit ok fail ret];
  repeat case_match; simplify_eq; exact I.

Lemma plain_getaddrinfo port : plain (sys_getaddrinfo port).
Proof. unfold sys_getaddrinfo. plainly. Qed.

Lemma plain_socket a b c : plain (sys_socket a b c).
Proof. unfold sys_socket. plainly. Qed.

Lemma plain_bind fd a : plain (sys_bind fd a).
Proof. unfold sys_bind. plainly. Qed.

Lemma plain_listen fd n : plain (sys_listen fd n).
Proof. unfold sys_listen. plainly. Qed.

Lemma plain_epoll_create1 : plain sys_epoll_create1.
Proof. unfold sys_epoll_create1. plainly. Qed.

Lemma plain_epoll_ctl_add efd fd ev : plain (sys_epoll_ctl_add efd fd ev).
Proof. unfold sys_epoll_ctl_add. plainly. Qed.

Lemma plain_close fd : plain (sys_close fd).
Proof. unfold sys_close. plainly. Qed.

Lemma plain_make_socket_non_blocking fd : plain (make_socket_non_blocking fd).
Proof.
  unfold make_socket_non_blocking, sys_fcntl_getfl, sys_fcntl_setfl. plainly.
Qed.

Lemma create_server_socket_diagnosed port w : diagnosed (create_server_socket port w).
Proof.
  unfold create_server_socket.
  apply diagnosed_bind; [apply diagnosed_plain, plain_getaddrinfo|].
  intros [rc res] w1. destruct (negb (rc =? 0)).
  { apply diagnosed_throw. cbn. tauto. }
  apply diagnosed_bind; [apply diagnosed_plain, plain_socket|].
  intros s w2. destruct (s =? -1).
  { apply diagnosed_throw. cbn. tauto. }
  apply diagnosed_bind; [apply diagnosed_plain, plain_bind|].
  intros r w3. destruct (r =? -1).
  { apply diagnosed_throw. cbn. tauto. }
  apply diagnosed_bind; [by apply diagnosed_plain; intros ?|].
  intros _ w4.
  apply diagnosed_bind; [apply diagnosed_plain, plain_make_socket_non_blocking|].
  by intros _ w5.
Qed.

Lemma main_diagnosed fuel argv w :
  length argv = 2%nat -> diagnosed (main fuel argv w).
Proof.
  intros Hlen. rewrite main_with_port by done.
  apply diagnosed_bind; [apply create_server_socket_diagnosed|].
  intros s w1.
  apply diagnosed_bind; [apply diagnosed_plain, plain_listen|].
  intros r w2. destruct (r =? -1).
  { apply diagnosed_throw. cbn. tauto. }
  apply diagnosed_bind; [apply diagnosed_plain, plain_epoll_create1|].
  intros e w3. destruct (e =? -1).
  { apply diagnosed_throw. cbn. tauto. }
  apply diagnosed_bind; [apply diagnosed_plain, plain_epoll_ctl_add|].
  intros r' w4. destruct (r' =? -1).
  { apply diagnosed_throw. cbn. tauto. }
  apply diagnosed_bind.
  { apply (only_registration_diagnosed e s). apply event_loop_outcome. }
  intros _ w5.
  apply diagnosed_bind; [apply diagnosed_plain, plain_close|].
  by intros _ w6.
Qed.

(** X10.  The ways [main] can end, whatever the environment does.  It exits
    only with status [EXIT_FAILURE], only when it was not given exactly one
    argument, and then it has done nothing but print the usage line.  Every
    exception it lets out carries one of seven messages, and the last thing
    written before it is the [perror] line of the call that failed.  It
    never returns: the [close] and [return EXIT_SUCCESS] after the event
    loop are not reached. *)
Theorem main_outcomes (fuel : nat) (argv : list string) (w : world) :
  match main fuel argv w with
  | Ret _ _ => False
  | Exit status w' =>
      status = EXIT_FAILURE /\ length argv <> 2%nat /\
      w' = logged w [Stderr (Usage (argv !! 0%nat))]
  | Throw what w' =>
      length argv = 2%nat /\
      exists tag e,
        last (trace w') = Some (Stderr (Perror tag e)) /\
        In (tag, what) failure_messages
  | Blocked _ | Running _ => length argv = 2%nat
  end.
Proof.
  destruct (decide (length argv = 2%nat)) as [Hlen|Hlen].
  - pose proof (main_diagnosed fuel argv w Hlen) as Hd.
    pose proof (main_never_returns fuel argv w) as Hn.
    destruct (main fuel argv w) as [| what w' | | |]; cbn in Hd, Hn; try done.
    split; [done|]. unfold announced in Hd.
    destruct (last (trace w')) as [[| |[tag e|]|]|]; try done.
    by exists tag, e.
  - unfold main. cbv zeta.
    destruct (Z.eqb_spec (Z.of_nat (length argv)) 2) as [E|_]; [lia|].
    cbn [negb]. run. done.
Qed.

(** ** X11: a pass of the acceptor over a whole queue *)

(** X11.  One pass of the acceptor over a queue of connections, when the
    listening socket is non-blocking, the descriptors the kernel hands out
    are new and the epoll instance has room for all of them: the pass
    returns with the queue empty; every connection has been accepted, in
    queue order, made non-blocking and registered for edge-triggered
    readability after the descriptors watched before; the data that came
    with a connection is still unread; no other descriptor is touched; and
    the only failed call is the final [accept], which leaves [errno] at
    EAGAIN. *)
Theorem accept_pass_takes_the_queue (efd sfd : Z) (w : world) (f g : file)
    (cs : list arrival) (lim : nat) (int : list (Z * Z)) (rdy : list wait_item) :
  files w !! sfd = Some f ->
  kind f = KListener (to_pending <$> cs) ->
  is_nonblocking f = true ->
  files w !! efd = Some g ->
  kind g = KEpoll lim int rdy ->
  efd <> sfd ->
  NoDup (arr_fd <$> cs) ->
  (forall c, c ∈ cs ->
     files w !! Z.of_nat (arr_fd c) = None /\ watches (Z.of_nat (arr_fd c)) int = false) ->
  (length int + length cs <= lim)%nat ->
  let r := accept_new_connections efd sfd w in
  r = Ret tt (world_of r) /\
  since w r = flat_map (accepted_effects efd sfd 0) (to_conn <$> cs)
              ++ [Call (c_accept sfd) (-1)] /\
  errno (world_of r) = EAGAIN /\
  files (world_of r) !! sfd = Some (with_kind f (KListener [])) /\
  files (world_of r) !! efd
  = Some (with_kind g (KEpoll lim (int ++ (to_watch <$> cs)) rdy)) /\
  (forall c, c ∈ cs ->
     files (world_of r) !! Z.of_nat (arr_fd c)
     = Some (stream_file (arr_rx c) (arr_fin c))) /\
  (forall fd, fd <> sfd -> fd <> efd -> (forall c, c ∈ cs -> fd <> Z.of_nat (arr_fd c)) ->
     files (world_of r) !! fd = files w !! fd).
Proof.
  intros Hf Hk Hnb Hg Hgk Hne Hnd Hfresh Hroom r.
  destruct (accept_pass_queue efd sfd lim rdy cs w f g int Hf Hk Hnb Hg Hgk Hne Hnd
              Hfresh Hroom) as (w' & Hr & Ht & Hrest).
  subst r. rewrite Hr. cbn [world_of]. split; [done|]. split; [|done].
  by apply since_app.
Qed.

Lemma accept_pass_takes_the_queue_witness :
  let r := accept_new_connections 4 3 queue_world in
  since queue_world r
  = flat_map (accepted_effects 4 3 0) [(5%nat, a_peer); (6%nat, None)]
    ++ [Call (c_accept 3) (-1)] /\
  files (world_of r) !! 4
  = Some (epoll_file 8 [(3, Z.lor EPOLLIN EPOLLET); (5, Z.lor EPOLLIN EPOLLET);
                        (6, Z.lor EPOLLIN EPOLLET)] []).
Proof.
  destruct (accept_pass_takes_the_queue 4 3 queue_world
              (listener_file (to_pending <$> two_arrivals))
              (epoll_file 8 [(3, Z.lor EPOLLIN EPOLLET)] [])
              two_arrivals 8 [(3, Z.lor EPOLLIN EPOLLET)] [])
    as (_ & Hs & _ & _ & He & _).
  - reflexivity.
  - reflexivity.
  - reflexivity.
  - reflexivity.
  - reflexivity.
  - lia.
  - cbn. apply NoDup_cons. split; [|apply NoDup_singleton].
    intros H%list_elem_of_singleton. lia.
  - intros c Hc. apply elem_of_cons in Hc as [->|Hc]; [split; reflexivity|].
    apply elem_of_cons in Hc as [->|Hc]; [split; reflexivity|].
    by apply elem_of_nil in Hc.
  - cbn. lia.
  - split; [exact Hs|exact He].
Defined.

(** ** X12-X13: waits that fail *)

Lemma epoll_wait_no_epoll efd buf w :
  is_epoll (files w) efd = false ->
  sys_epoll_wait efd buf MAX_EVENTS w
  = Ret (-1, buf) (logged (with_errno w (wait_errno (files w) efd))
                     [Call (c_epoll_wait efd MAX_EVENTS) (-1)]).
Proof.
  unfold is_epoll, wait_errno, sys_epoll_wait. unfold bind at 1, get_files.
  destruct (files w !! efd) as [f|]; [|by intros _; run].
  destruct (kind f); try done; intros _; by run.
Qed.

(** X12.  The event loop does not look at the result of [epoll_wait].  When
    its epoll descriptor is closed, or is no epoll instance, every wait fails
    at once and the loop calls it again: it makes one failing wait per
    iteration, handles no event, prints nothing, never blocks and never
    stops. *)
Theorem event_loop_spins_without_epoll (fuel : nat) (sfd efd : Z)
    (buf : list epoll_event) (w : world) :
  is_epoll (files w) efd = false ->
  exists w',
    event_loop_from fuel sfd efd buf w = Running w' /\
    trace w' = trace w ++ replicate fuel (Call (c_epoll_wait efd MAX_EVENTS) (-1)) /\
    files w' = files w /\
    ((0 < fuel)%nat -> errno w' = wait_errno (files w) efd).
Proof.
  revert w. induction fuel as [|fuel IH]; intros w Hno.
  { exists w. cbn [event_loop_from replicate]. rewrite app_nil_r.
    repeat split; try done. lia. }
  rewrite (event_loop_no_event fuel sfd efd buf w (-1) buf _
             (epoll_wait_no_epoll efd buf w Hno)) by lia.
  destruct (IH (logged (with_errno w (wait_errno (files w) efd))
                  [Call (c_epoll_wait efd MAX_EVENTS) (-1)]) Hno)
    as (w' & Hr & Ht & Hfs & He).
  exists w'. split; [done|]. split.
  { rewrite Ht. cbn [trace logged with_errno replicate]. by rewrite <- app_assoc. }
  split; [done|]. intros _.
  destruct fuel as [|fuel]; [|by apply He; lia].
  cbn [event_loop_from] in Hr. by injection Hr as <-.
Qed.

Lemma event_loop_spins_without_epoll_witness :
  exists w',
    event_loop_from 3 3 4 [] (world_with ∅) = Running w' /\
    trace w' = trace (world_with ∅) ++ replicate 3 (Call (c_epoll_wait 4 MAX_EVENTS) (-1)) /\
    files w' = files (world_with ∅) /\
    ((0 < 3)%nat -> errno w' = wait_errno (files (world_with ∅)) 4).
Proof. apply (event_loop_spins_without_epoll 3 3 4 [] (world_with ∅)). reflexivity. Defined.

Lemma last_any_default {X} (l : list X) : forall (x d1 d2 : X),
  List.last (x :: l) d1 = List.last (x :: l) d2.
Proof.
  induction l as [|y l IH]; intros x d1 d2; [reflexivity|].
  change (List.last (x :: y :: l) d1) with (List.last (y :: l) d1).
  change (List.last (x :: y :: l) d2) with (List.last (y :: l) d2).
  apply IH.
Qed.

Lemma last_cons_default {X} (x : X) (l : list X) (d : X) :
  List.last l x = List.last (x :: l) d.
Proof.
  destruct l as [|y l]; [reflexivity|].
  change (List.last (x :: y :: l) d) with (List.last (y :: l) d).
  apply last_any_default.
Qed.

(** X13.  Interrupted waits are retried, however many follow one another:
    when the next [length errs] waits fail and nothing is ready afterwards,
    the loop makes exactly those waits and one more, in which it stays
    blocked; it handles no event and prints nothing, and no descriptor but
    the epoll instance has changed. *)
Theorem interrupted_waits_are_retried (fuel : nat) (sfd efd : Z)
    (buf : list epoll_event) (w : world) (e : file) (lim : nat)
    (int : list (Z * Z)) (errs : list Z) :
  files w !! efd = Some e ->
  kind e = KEpoll lim int (Interrupted <$> errs) ->
  (length errs < fuel)%nat ->
  exists w',
    event_loop_from fuel sfd efd buf w = Blocked w' /\
    trace w' = trace w ++ replicate (length errs) (Call (c_epoll_wait efd MAX_EVENTS) (-1)) /\
    files w' = <[efd := with_kind e (KEpoll lim int [])]> (files w) /\
    errno w' = List.last errs (errno w).
Proof.
  revert fuel w e. induction errs as [|err errs IH]; intros fuel w e Hf Hk Hfuel.
  - destruct fuel as [|fuel]; [cbn in Hfuel; lia|].
    exists w. cbn [event_loop_from length replicate List.last]. rewrite app_nil_r.
    split.
    { unfold sys_epoll_wait. unfold bind at 1 2, get_files. rewrite Hf, Hk.
      change (MAX_EVENTS <=? 0) with false. reflexivity. }
    repeat split; try done.
    symmetry. apply insert_id. rewrite Hf. f_equal.
    destruct e as [fl k]. cbn in Hk. by subst k.
  - destruct fuel as [|fuel]; [cbn in Hfuel; lia|]. cbn [length] in Hfuel.
    rewrite fmap_cons in Hk.
    rewrite (event_loop_no_event fuel sfd efd buf w (-1) buf _
               (epoll_wait_interrupted efd buf w e lim int err _ Hf Hk)) by lia.
    match goal with |- context [event_loop_from fuel sfd efd buf ?w1] =>
      destruct (IH fuel w1 (with_kind e (KEpoll lim int (Interrupted <$> errs))))
        as (w' & Hr & Ht & Hfs & He) end.
    { cbn [files logged with_errno with_files]. apply lookup_insert_eq. }
    { reflexivity. }
    { lia. }
    exists w'. split; [done|]. split.
    { rewrite Ht. cbn [trace logged with_errno with_files length replicate].
      by rewrite <- app_assoc. }
    split.
    { rewrite Hfs. cbn [files logged with_errno with_files with_kind flags].
      apply insert_insert_eq. }
    rewrite He. cbn [errno logged with_errno with_files]. apply last_cons_default.
Qed.

Lemma interrupted_waits_are_retried_witness :
  exists w',
    event_loop_from 3 3 4 []
      (world_with {[ 4 := epoll_file 8 [] (Interrupted <$> [EINTR; EINTR]) ]}) = Blocked w' /\
    trace w' = replicate 2 (Call (c_epoll_wait 4 MAX_EVENTS) (-1)) /\
    errno w' = EINTR.
Proof.
  destruct (interrupted_waits_are_retried 3 3 4 []
              (world_with {[ 4 := epoll_file 8 [] (Interrupted <$> [EINTR; EINTR]) ]})
              (epoll_file 8 [] (Interrupted <$> [EINTR; EINTR])) 8 [] [EINTR; EINTR])
    as (w' & Hr & Ht & _ & He).
  - reflexivity.
  - reflexivity.
  - cbn. lia.
  - exists w'. split; [exact Hr|]. split; [exact Ht|exact He].
Defined.

(** ** X14-X15: where the server can sleep *)

Lemma post_bind {A B} (Q : A -> world -> Prop) (R : B -> world -> Prop) (Bl : world -> Prop)
    (m : M A) (k : A -> M B) w :
  post Q Bl (m w) ->
  (forall a w', Q a w' -> post R Bl (k a w')) ->
  post R Bl (bind m k w).
Proof. unfold bind. destruct (m w); cbn; auto. Qed.

Lemma post_weaken {A} (Q Q' : A -> world -> Prop) (Bl Bl' : world -> Prop) (r : result A) :
  post Q Bl r ->
  (forall a w, Q a w -> Q' a w) ->
  (forall w, Bl w -> Bl' w) ->
  post Q' Bl' r.
Proof. destruct r; cbn; auto. Qed.

Lemma post_silent {A} (P : gmap Z file -> Prop) (m : M A) w :
  silent m -> P (files w) ->
  post (fun _ w' => P (files w')) never (m w).
Proof. intros Hm HP. destruct (Hm w) as (a & w' & -> & E). cbn. by rewrite E. Qed.

Lemma silent_bind {A B} (m : M A) (k : A -> M B) :
  silent m -> (forall a, silent (k a)) -> silent (bind m k).
Proof.
  intros Hm Hk w. destruct (Hm w) as (a & w1 & E1 & F1).
  destruct (Hk a w1) as (b & w2 & E2 & F2).
  exists b, w2. unfold bind. rewrite E1, E2. split; [done|congruence].
Qed.

Lemma silent_ret {A} (a : A) : silent (ret a).
Proof. intros w. by exists a, w. Qed.

Lemma silent_emit e : silent (emit e).
Proof. intros w. by eexists tt, _. Qed.

Lemma silent_set_errno e : silent (set_errno e).
Proof. intros w. by eexists tt, _. Qed.

Lemma silent_get_errno : silent get_errno.
Proof. intros w. by eexists _, _. Qed.

Lemma silent_ok c r : silent (ok c r).
Proof. unfold ok. apply silent_bind; [apply silent_emit|intros _; apply silent_ret]. Qed.

Lemma silent_fail c e : silent (fail c e).
Proof.
  unfold fail. apply silent_bind; [apply silent_set_errno|intros _].
  apply silent_bind; [apply silent_emit|intros _; apply silent_ret].
Qed.

Lemma silent_perror tag : silent (perror tag).
Proof. unfold perror. apply silent_bind; [apply silent_get_errno|intros e; apply silent_emit]. Qed.

Lemma silent_print l : silent (print l).
Proof. apply silent_emit. Qed.

Lemma silent_getnameinfo a : silent (sys_getnameinfo a).
Proof.
  unfold sys_getnameinfo. destruct a as [[h s]|];
    (apply silent_bind; [apply silent_emit|intros _; apply silent_ret]).
Qed.

Lemma silent_getaddrinfo port : silent (sys_getaddrinfo port).
Proof.
  intros w. unfold sys_getaddrinfo, bind, get_boot.
  destruct (resolve _ _); [|destruct (gai_errno _ _)]; run; by eexists _, _.
Qed.

Lemma silent_fcntl_getfl fd : silent (sys_fcntl_getfl fd).
Proof.
  intros w. unfold sys_fcntl_getfl. unfold bind at 1, get_files.
  destruct (files w !! fd); run; by eexists _, _.
Qed.

Lemma silent_setsockopt fd : silent (sys_setsockopt_reuseport fd).
Proof.
  intros w. unfold sys_setsockopt_reuseport. unfold bind at 1, get_files.
  destruct (files w !! fd) as [f|]; [destruct (kind f)|]; run; by eexists _, _.
Qed.

Lemma silent_store_nul buf n : silent (store_nul buf n).
Proof.
  unfold store_nul. cbv zeta. destruct (_ <? _)%nat; [apply silent_ret|].
  apply silent_bind; [apply silent_emit|intros _; apply silent_ret].
Qed.

Lemma silent_emits l : silent (emits l).
Proof. intros w. by eexists tt, _. Qed.

Lemma silent_get_boot : silent get_boot.
Proof. intros w. by eexists _, _. Qed.

Lemma silent_string_of_buf buf : silent (string_of_buf buf).
Proof.
  unfold string_of_buf. destruct (c_str buf) as [s []]; try apply silent_ret.
  apply silent_bind; [apply silent_get_boot|intros b]. cbv zeta.
  apply silent_bind; [apply silent_emits|intros _; apply silent_ret].
Qed.

Lemma sockets_ok_weaken x fs : sockets_ok fs -> sockets_ok_but x fs.
Proof. intros H fd f Hf _. by apply (H fd f). Qed.

Lemma sockets_ok_insert fd f fs :
  may_block f = false -> sockets_ok fs -> sockets_ok (<[fd := f]> fs).
Proof. intros Hf H. by apply map_Forall_insert_2. Qed.

Lemma may_block_nonblocking f : is_nonblocking f = true -> may_block f = false.
Proof. unfold may_block. intros ->. by destruct (kind f). Qed.

Lemma may_block_with_kind f k :
  may_block f = false ->
  match kind f, k with
  | (KListener _ | KStream _ _), _ => True
  | _, (KListener _ | KStream _ _) => False
  | _, _ => True
  end ->
  may_block (with_kind f k) = false.
Proof.
  unfold may_block, with_kind, is_nonblocking. cbn [kind flags].
  destruct (kind f), k; try done.
Qed.

Lemma may_block_forget fd f : may_block (forget fd f) = may_block f.
Proof.
  unfold forget. destruct (kind f) eqn:E; try done.
  unfold may_block. cbn [kind with_kind]. by rewrite E.
Qed.

Lemma sys_read_post fd buf n w :
  sockets_ok (files w) ->
  post (fun _ w' => sockets_ok (files w')) never (sys_read fd buf n w).
Proof.
  intros H. unfold sys_read. unfold bind at 1, get_files.
  destruct (files w !! fd) as [f|] eqn:Hf; [|by run].
  pose proof (H fd f Hf) as Hb. cbn beta in Hb.
  assert (forall rx fin, kind f = KStream rx fin -> forall rx',
            sockets_ok (<[fd := with_kind f (KStream rx' fin)]> (files w))) as Hins.
  { intros rx fin Hk rx'. apply sockets_ok_insert; [|done].
    apply may_block_with_kind; [done|]. by rewrite Hk. }
  destruct (kind f) as [b|q|rx fin|lim int rdy] eqn:Hk; try by run.
  destruct rx as [|x rx].
  - destruct fin; try by run.
    unfold may_block in Hb. rewrite Hk in Hb.
    destruct (is_nonblocking f); [by run|done].
  - destruct fin; run; cbn [post files logged with_files]; by eapply Hins.
Qed.

Lemma sys_close_post fd w :
  sockets_ok (files w) ->
  post (fun _ w' => sockets_ok (files w')) never (sys_close fd w).
Proof.
  intros H. unfold sys_close. unfold bind at 1, get_files.
  destruct (files w !! fd) as [f|]; [|by run].
  run. try unfold ret. cbn [post files logged with_files].
  apply map_Forall_fmap. intros fd' f' Hf'. cbn. rewrite may_block_forget.
  apply lookup_delete_Some in Hf' as [_ Hf']. by apply (H fd' f').
Qed.

Lemma sys_accept_post sfd w :
  sockets_ok (files w) ->
  post (fun r w' => (r.1 = -1 -> sockets_ok (files w')) /\ sockets_ok_but r.1 (files w'))
       never (sys_accept sfd w).
Proof.
  intros H. unfold sys_accept. unfold bind at 1, get_files.
  destruct (files w !! sfd) as [f|] eqn:Hf.
  2:{ run. cbn. split; [done|by apply sockets_ok_weaken]. }
  pose proof (H sfd f Hf) as Hb. cbn beta in Hb.
  destruct (kind f) as [b|q|rx fin|lim int rdy] eqn:Hk;
    try (run; cbn; split; [done|by apply sockets_ok_weaken]).
  assert (forall q', sockets_ok (<[sfd := with_kind f (KListener q')]> (files w))) as Hins.
  { intros q'. apply sockets_ok_insert; [|done].
    apply may_block_with_kind; [done|]. by rewrite Hk. }
  destruct q as [|[n peer rx fin|e] q].
  - unfold may_block in Hb. rewrite Hk in Hb.
    destruct (is_nonblocking f); [|done].
    run. cbn. split; [done|by apply sockets_ok_weaken].
  - run. try unfold ret. cbn [post fst files logged with_files]. split; [intros ?; lia|].
    apply map_Forall_insert_2; [done|]. apply sockets_ok_weaken, Hins.
  - run. try unfold ret. cbn [post fst files logged with_files with_errno].
    split; [intros _; apply Hins|apply sockets_ok_weaken, Hins].
Qed.

Lemma sys_fcntl_setfl_post x fl w :
  sockets_ok_but x (files w) ->
  post (fun _ w' => sockets_ok (files w') /\ nonblocking_at x (files w')) never
       (sys_fcntl_setfl x (Z.lor fl O_NONBLOCK) w).
Proof.
  intros H. unfold sys_fcntl_setfl. unfold bind at 1, get_files.
  assert (forall k, is_nonblocking {| flags := Z.lor fl O_NONBLOCK; kind := k |} = true) as Hnb.
  { intros k. rewrite is_nonblocking_bit. cbn [flags]. rewrite lor_nonblock_bits.
    apply orb_true_r. }
  destruct (files w !! x) as [f|] eqn:Hf.
  - run. try unfold ret. cbn [post files logged with_files]. split.
    + intros fd f'. destruct (decide (fd = x)) as [->|Hne].
      * rewrite lookup_insert_eq. intros [= <-]. by apply may_block_nonblocking.
      * rewrite lookup_insert_ne by done. intros Hf'. by apply (H fd f').
    + intros f'. rewrite lookup_insert_eq. by intros [= <-].
  - run. try unfold ret. cbn [post files logged with_errno]. split.
    + intros fd f' Hf'. apply (H fd f' Hf'). intros ->. congruence.
    + intros f'. by rewrite Hf.
Qed.

Lemma sys_epoll_ctl_add_post efd fd ev w :
  sockets_ok (files w) ->
  post (fun _ w' => sockets_ok (files w')) never (sys_epoll_ctl_add efd fd ev w).
Proof.
  intros H. unfold sys_epoll_ctl_add. unfold bind at 1, get_files.
  destruct (files w !! efd) as [e|] eqn:He; [|by run].
  destruct (kind e) as [b|q|rx fin|lim int rdy] eqn:Hk; try by run.
  destruct (files w !! fd); [|by run].
  destruct (fd =? efd); [by run|]. destruct (watches fd int); [by run|].
  destruct (lim <=? length int)%nat; [by run|].
  run. try unfold ret. cbn [post files logged with_files]. apply sockets_ok_insert; [|done].
  unfold may_block. by cbn.
Qed.

Lemma sys_epoll_wait_post efd buf m w :
  sockets_ok (files w) ->
  post (fun _ w' => sockets_ok (files w')) (fun w' => idle efd (files w'))
       (sys_epoll_wait efd buf m w).
Proof.
  intros H. unfold sys_epoll_wait. unfold bind at 1, get_files.
  destruct (files w !! efd) as [e|] eqn:He; [|by run].
  destruct (kind e) as [b|q|rx fin|lim int rdy] eqn:Hk; try by run.
  destruct (m <=? 0); [by run|].
  destruct rdy as [|[evs|err] rest].
  - cbn. by exists e, lim, int.
  - run. try unfold ret. cbn [post files logged with_files]. apply sockets_ok_insert; [|done].
    unfold may_block. by cbn.
  - run. try unfold ret. cbn [post files logged with_files with_errno]. apply sockets_ok_insert; [|done].
    unfold may_block. by cbn.
Qed.

Lemma sys_socket_post a b c w :
  sockets_ok (files w) ->
  post (fun _ w' => sockets_ok (files w')) never (sys_socket a b c w).
Proof.
  intros H. unfold sys_socket. unfold bind at 1, get_boot.
  destruct (socket_res (boot w)); run; [|done].
  cbn [post files logged with_files]. by apply sockets_ok_insert.
Qed.

Lemma sys_bind_post fd a w :
  sockets_ok (files w) ->
  post (fun _ w' => sockets_ok (files w')) never (sys_bind fd a w).
Proof.
  intros H. unfold sys_bind. unfold bind at 1 2, get_boot, get_files.
  destruct (files w !! fd) as [f|] eqn:Hf; [|by run].
  destruct (kind f) as [[|]|q|rx fin|lim int rdy] eqn:Hk; try by run.
  destruct (bind_res (boot w)); [by run|].
  run. try unfold ret. cbn [post files logged with_files]. by apply sockets_ok_insert.
Qed.

Lemma sys_listen_post fd n w :
  sockets_ok (files w) -> nonblocking_at fd (files w) ->
  post (fun _ w' => sockets_ok (files w')) never (sys_listen fd n w).
Proof.
  intros H Hnb. unfold sys_listen. unfold bind at 1 2, get_boot, get_files.
  destruct (files w !! fd) as [f|] eqn:Hf; [|by run].
  destruct (kind f) as [b|q|rx fin|lim int rdy] eqn:Hk; try by run.
  destruct (listen_res (boot w)); [by run|].
  run. try unfold ret. cbn [post files logged with_files]. apply sockets_ok_insert; [|done].
  apply may_block_nonblocking. unfold is_nonblocking, with_kind. cbn [flags].
  by apply (Hnb f).
Qed.

Lemma sys_epoll_create1_post w :
  sockets_ok (files w) ->
  post (fun _ w' => sockets_ok (files w')) never (sys_epoll_create1 w).
Proof.
  intros H. unfold sys_epoll_create1. unfold bind at 1, get_boot.
  destruct (epoll_create_res (boot w)); [|by run].
  run. try unfold ret. cbn [post files logged with_files]. by apply sockets_ok_insert.
Qed.

(** Reading the flags and writing them back with [O_NONBLOCK], as both
    [make_socket_non_blocking] and the acceptor do. *)
Lemma set_nonblocking_post {A} x (k : M A) (R : A -> world -> Prop) (Bl : world -> Prop) w :
  sockets_ok_but x (files w) ->
  (forall w', sockets_ok (files w') -> nonblocking_at x (files w') -> post R Bl (k w')) ->
  post R Bl ((let* fl := sys_fcntl_getfl x in
              let fl := Z.lor fl O_NONBLOCK in
              sys_fcntl_setfl x fl;; k)%prog w).
Proof.
  intros H Hk. eapply post_bind.
  { eapply post_weaken; [apply (post_silent (sockets_ok_but x)), H; apply silent_fcntl_getfl
                        |intros a w' Hq; exact Hq|done]. }
  intros fl w1 H1. cbv zeta. eapply post_bind.
  { eapply post_weaken; [by apply sys_fcntl_setfl_post|intros a w' Hq; exact Hq|done]. }
  intros ? w2 [H2 H2']. by apply Hk.
Qed.

Lemma make_socket_non_blocking_post x w :
  sockets_ok (files w) ->
  post (fun _ w' => sockets_ok (files w') /\ nonblocking_at x (files w')) never
       (make_socket_non_blocking x w).
Proof.
  intros H. unfold make_socket_non_blocking.
  apply set_nonblocking_post; [by apply sockets_ok_weaken|].
  intros w' H1 H2. by cbn.
Qed.

Ltac step_silent P lem :=
  eapply post_bind;
  [ eapply post_weaken;
    [ apply (post_silent P); [apply lem|eassumption]
    | intros ? ? Hq; exact Hq
    | intros ? [] ]
  | ].

Ltac step_with lem :=
  eapply post_bind;
  [ eapply post_weaken;
    [ apply lem; eassumption
    | intros ? ? Hq; exact Hq
    | intros ? [] ]
  | ].

Lemma read_loop_post fuel fd : forall w,
  sockets_ok (files w) ->
  post (fun _ w' => sockets_ok (files w')) never (read_loop fuel fd w).
Proof.
  induction fuel as [|fuel IH]; intros w H; [exact I|].
  cbn [read_loop]. cbv zeta. step_with sys_read_post.
  intros [count buf] w1 H1. cbn beta iota.
  destruct (count =? -1).
  { step_silent sockets_ok silent_get_errno. intros e w2 H2.
    destruct (negb _); [|done].
    step_silent sockets_ok silent_perror. by intros ? w3 H3. }
  destruct (count =? 0); [done|].
  step_silent sockets_ok silent_store_nul. intros buf' w2 H2.
  step_silent sockets_ok silent_string_of_buf. intros text w3 H3.
  step_silent sockets_ok silent_print. intros ? w4 H4.
  by apply IH.
Qed.

Lemma read_input_data_post fd w :
  sockets_ok (files w) ->
  post (fun _ w' => sockets_ok (files w')) never (read_input_data fd w).
Proof.
  intros H. unfold read_input_data. step_with read_loop_post.
  intros [|] w1 H1; [|done].
  step_silent sockets_ok silent_print. intros ? w2 H2.
  step_with sys_close_post. by intros ? w3 H3.
Qed.

Lemma accept_loop_post fuel efd sfd : forall w,
  sockets_ok (files w) ->
  post (fun _ w' => sockets_ok (files w')) never (accept_loop fuel efd sfd w).
Proof.
  induction fuel as [|fuel IH]; intros w H; [exact I|].
  cbn [accept_loop]. step_with sys_accept_post.
  intros [infd addr] w1 [Hfail Hbut]. cbn [fst] in Hfail, Hbut. cbn beta iota.
  destruct (Z.eqb_spec infd (-1)) as [E|_].
  { specialize (Hfail E).
    step_silent sockets_ok silent_get_errno. intros e w2 H2.
    destruct (_ || _); [done|].
    step_silent sockets_ok silent_perror. by intros ? w3 H3. }
  step_silent (sockets_ok_but infd) silent_setsockopt. intros ? w2 H2.
  step_silent (sockets_ok_but infd) silent_getnameinfo. intros [[code h] s] w3 H3.
  eapply post_bind.
  { eapply post_weaken;
      [apply (post_silent (sockets_ok_but infd)), H3;
       destruct (code =? 0); [apply silent_print|apply silent_ret]
      |intros ? ? Hq; exact Hq|done]. }
  intros ? w4 H4. apply set_nonblocking_post; [done|].
  intros w5 H5 _. step_with sys_epoll_ctl_add_post.
  intros status w6 H6. destruct (status =? -1); [|by apply IH].
  step_silent sockets_ok silent_perror. by intros ? w7 H7.
Qed.

Lemma accept_new_connections_post efd sfd w :
  sockets_ok (files w) ->
  post (fun _ w' => sockets_ok (files w')) never (accept_new_connections efd sfd w).
Proof. apply accept_loop_post. Qed.

Lemma handle_event_post sfd efd ev w :
  sockets_ok (files w) ->
  post (fun _ w' => sockets_ok (files w')) never (handle_event sfd efd ev w).
Proof.
  intros H. unfold handle_event. destruct (abnormal _).
  { step_silent sockets_ok silent_perror. intros ? w1 H1.
    step_with sys_close_post. by intros ? w2 H2. }
  destruct (sfd =? data_fd ev);
    [by apply accept_new_connections_post|by apply read_input_data_post].
Qed.

Lemma for_events_post sfd efd buf todo : forall i w,
  sockets_ok (files w) ->
  post (fun _ w' => sockets_ok (files w')) never (for_events todo i sfd efd buf w).
Proof.
  induction todo as [|todo IH]; intros i w H; [done|].
  cbn [for_events]. step_with handle_event_post. intros ? w1 H1. by apply IH.
Qed.

Lemma event_loop_post sfd efd fuel : forall buf w,
  sockets_ok (files w) ->
  post (fun (_ : unit) _ => False) (fun w' => idle efd (files w'))
       (event_loop_from fuel sfd efd buf w).
Proof.
  induction fuel as [|fuel IH]; intros buf w H; [exact I|].
  cbn [event_loop_from]. eapply post_bind; [by apply sys_epoll_wait_post|].
  intros [n buf'] w1 H1. cbn beta iota. eapply post_bind.
  { eapply post_weaken; [by apply for_events_post|intros ? ? Hq; exact Hq|intros ? []]. }
  intros ? w2 H2. by apply IH.
Qed.

Lemma create_server_socket_post port w :
  sockets_ok (files w) ->
  post (fun s w' => sockets_ok (files w') /\ nonblocking_at s (files w')) never
       (create_server_socket port w).
Proof.
  intros H. unfold create_server_socket.
  step_silent sockets_ok silent_getaddrinfo. intros [rc res] w1 H1. cbn beta iota.
  destruct (negb _).
  { step_silent sockets_ok silent_perror. by intros ? w2 H2. }
  step_with sys_socket_post. intros s w2 H2. destruct (s =? -1).
  { step_silent sockets_ok silent_perror. by intros ? w3 H3. }
  step_with sys_bind_post. intros r w3 H3. destruct (r =? -1).
  { step_silent sockets_ok silent_perror. by intros ? w4 H4. }
  step_silent sockets_ok silent_emit. intros ? w4 H4.
  step_with make_socket_non_blocking_post. intros ? w5 H5. exact H5.
Qed.

Lemma main_post fuel argv w :
  sockets_ok (files w) ->
  post (fun _ _ => False) (fun w' => exists efd, idle efd (files w')) (main fuel argv w).
Proof.
  intros H. unfold main. cbv zeta. destruct (negb _).
  { step_silent sockets_ok silent_emit. by intros ? w1 H1. }
  step_with create_server_socket_post. intros s w1 [H1 Hnb].
  eapply post_bind.
  { eapply post_weaken; [by apply sys_listen_post|intros ? ? Hq; exact Hq|intros ? []]. }
  intros r w2 H2. destruct (r =? -1).
  { step_silent sockets_ok silent_perror. by intros ? w3 H3. }
  step_with sys_epoll_create1_post. intros e w3 H3. destruct (e =? -1).
  { step_silent sockets_ok silent_perror. by intros ? w4 H4. }
  step_with sys_epoll_ctl_add_post. intros r' w4 H4. destruct (r' =? -1).
  { step_silent sockets_ok silent_perror. by intros ? w5 H5. }
  eapply post_bind.
  { eapply post_weaken; [by apply (event_loop_post s e)|intros ? ? Hq; exact Hq|].
    intros w' Hi. by exists e. }
  by intros ? w5 [].
Qed.

Lemma handle_all_post sfd efd evs : forall w,
  sockets_ok (files w) ->
  post (fun _ w' => sockets_ok (files w')) never (handle_all sfd efd evs w).
Proof.
  induction evs as [|ev evs IH]; intros w H; [done|].
  cbn [handle_all]. step_with handle_event_post. intros ? w1 H1. by apply IH.
Qed.

(** X14.  Handling events never puts the process to sleep.  When every
    listening and every connected socket of the descriptor table is
    non-blocking, no [accept] and no [read] made while a batch of events is
    handled blocks, whatever the events are; and when the batch has been
    handled the sockets of the table, the newly accepted ones among them,
    are again all non-blocking. *)
Theorem events_are_handled_without_blocking (sfd efd : Z) (evs : list epoll_event)
    (w : world) :
  sockets_ok (files w) ->
  (forall w', handle_all sfd efd evs w <> Blocked w') /\
  (forall w', handle_all sfd efd evs w = Ret tt w' -> sockets_ok (files w')).
Proof.
  intros H. pose proof (handle_all_post sfd efd evs w H) as Hp.
  split; intros w' E; rewrite E in Hp; exact Hp.
Qed.

Lemma events_are_handled_without_blocking_witness :
  sockets_ok (files (serving_world [Pending 6 a_peer [] RxOpen] [])) /\
  forall w', handle_all 3 4 [readable 3; readable 5; readable 6]
               (serving_world [Pending 6 a_peer [] RxOpen] []) <> Blocked w'.
Proof.
  assert (sockets_ok (files (serving_world [Pending 6 a_peer [] RxOpen] []))) as H.
  { unfold serving_world, world_with. cbn [files].
    repeat (apply map_Forall_insert_2; [reflexivity|]).
    apply map_Forall_empty. }
  split; [exact H|].
  apply (events_are_handled_without_blocking 3 4 [readable 3; readable 5; readable 6]
           (serving_world [Pending 6 a_peer [] RxOpen] []) H).
Defined.

(** X15.  The server sleeps only in [epoll_wait].  Started with a
    descriptor table in which every listening and every connected socket is
    non-blocking (the empty table of a new process, for one), [main] can be
    blocked only with an epoll instance on which nothing is ready; so can
    the event loop, and then the instance is its own.  Neither returns. *)
Theorem server_sleeps_only_in_wait :
  (forall fuel sfd efd buf w,
     sockets_ok (files w) ->
     match event_loop_from fuel sfd efd buf w with
     | Blocked w' => idle efd (files w')
     | Ret _ _ => False
     | _ => True
     end)
  /\ (forall fuel argv w,
        sockets_ok (files w) ->
        match main fuel argv w with
        | Blocked w' => exists efd, idle efd (files w')
        | Ret _ _ => False
        | _ => True
        end).
Proof.
  split.
  - intros fuel sfd efd buf w H.
    pose proof (event_loop_post sfd efd fuel buf w H) as Hp.
    by destruct (event_loop_from fuel sfd efd buf w).
  - intros fuel argv w H. pose proof (main_post fuel argv w H) as Hp.
    by destruct (main fuel argv w).
Qed.

Lemma server_sleeps_only_in_wait_witness :
  let w := fresh_process (boot_with [Pending 5 a_peer ["h"%byte] RxOpen] 8
                            [Batch [readable 3]; Batch [readable 5]]) in
  sockets_ok (files w) /\
  match main 3 ["server"; "8080"] w with
  | Blocked w' => exists efd, idle efd (files w')
  | Ret _ _ => False
  | _ => True
  end.
Proof.
  intros w.
  assert (sockets_ok (files w)) as H by apply map_Forall_empty.
  split; [exact H|].
  exact (proj2 server_sleeps_only_in_wait 3%nat ["server"; "8080"] w H).
Defined.

(** ** X16: the constants of the calls *)

Lemma setfl_expected fd fl r :
  unexpected (Call (c_fcntl_setfl fd (Z.lor fl O_NONBLOCK)) r) = false.
Proof.
  unfold unexpected, expected. rewrite lor_nonblock_bits.
  by rewrite orb_true_r.
Qed.

Ltac usual := quiet ltac:(first [reflexivity | apply setfl_expected]).

Lemma usual_scan_loads n : occurrences unexpected (scan_loads BUF_SIZE n) = 0%nat.
Proof.
  unfold scan_loads. induction (seq 0 (S n)) as [|i l IH]; [done|].
  rewrite fmap_cons. cbn [occurrences]. rewrite IH.
  unfold unexpected, expected.
  replace (512 <=? BUF_SIZE + i)%nat with true
    by (symmetry; apply Nat.leb_le; unfold BUF_SIZE; lia).
  reflexivity.
Qed.

Lemma usual_chunk b fd c :
  (0 < length c <= BUF_SIZE)%nat ->
  occurrences unexpected (chunk_effects b fd c) = 0%nat.
Proof.
  intros Hc. unfold chunk_effects, overrun. cbn [occurrences].
  rewrite occurrences_app. cbn [occurrences].
  change (unexpected (Call (c_read fd BUF_SIZE) (Z.of_nat (length c)))) with false.
  change (unexpected (Stdout (Incoming fd (logged_text b c)))) with false.
  destruct (Nat.ltb_spec (length c) BUF_SIZE) as [_|Hge]; [done|].
  replace (length c) with BUF_SIZE by lia. cbn [occurrences].
  change (unexpected (OutOfBounds (Store BUF_SIZE) BUF_SIZE)) with false.
  destruct (has_nul c); [done|]. by rewrite usual_scan_loads.
Qed.

Lemma usual_chunks b fd chunks :
  Forall (fun c => (0 < length c <= BUF_SIZE)%nat) chunks ->
  occurrences unexpected (flat_map (chunk_effects b fd) chunks) = 0%nat.
Proof.
  induction 1 as [|c chunks Hc _ IH]; [done|].
  cbn [flat_map]. by rewrite occurrences_app, usual_chunk, IH.
Qed.

Lemma usual_read_input_data fd : at_most unexpected 0 (read_input_data fd).
Proof.
  intros w.
  destruct (read_then_close (read_budget fd w) fd w (le_n _))
    as (chunks & o & r & w' & Hr & Ht & Hall & _).
  exists (flat_map (chunk_effects (boot w) fd) chunks ++ last_read fd o ++ closing fd o r).
  rewrite read_input_data_unfold, Hr.
  replace (world_of (drain_result o w')) with w' by (by destruct o).
  split; [exact Ht|].
  rewrite !occurrences_app, usual_chunks by done.
  unfold closing. by destruct o.
Qed.

Lemma usual_accept_loop efd sfd fuel : at_most unexpected 0 (accept_loop fuel efd sfd).
Proof.
  induction fuel as [|fuel IH]; cbn [accept_loop]; [usual|].
  eapply (at_most_bind _ 0 0 0); [unfold sys_accept; cbv zeta; usual| |lia].
  intros [infd addr]. destruct (infd =? -1); [usual|].
  eapply (at_most_bind _ 0 0 0); [unfold sys_setsockopt_reuseport; cbv zeta; usual| |lia].
  intros _.
  eapply (at_most_bind _ 0 0 0); [unfold sys_getnameinfo; usual| |lia].
  intros [[rc h] s].
  eapply (at_most_bind _ 0 0 0); [destruct (rc =? 0); usual| |lia]. intros _.
  eapply (at_most_bind _ 0 0 0); [unfold sys_fcntl_getfl; usual| |lia]. intros fl.
  cbv zeta.
  eapply (at_most_bind _ 0 0 0); [unfold sys_fcntl_setfl; usual| |lia]. intros _.
  eapply (at_most_bind _ 0 0 0); [unfold sys_epoll_ctl_add; cbv zeta; usual| |lia].
  intros status. destruct (status =? -1); [usual|apply IH].
Qed.

Lemma usual_accept_new_connections efd sfd :
  at_most unexpected 0 (accept_new_connections efd sfd).
Proof.
  apply (at_most_pointwise _ 0 _ (fun w0 => accept_loop (accept_budget sfd w0) efd sfd)).
  { reflexivity. }
  intros w0. apply usual_accept_loop.
Qed.

Lemma usual_close fd : at_most unexpected 0 (sys_close fd).
Proof. unfold sys_close. usual. Qed.

Lemma usual_handle_event sfd efd ev : at_most unexpected 0 (handle_event sfd efd ev).
Proof.
  unfold handle_event. destruct (abnormal (events ev)).
  - eapply (at_most_bind _ 0 0 0); [usual| |lia]. intros _.
    eapply (at_most_bind _ 0 0 0); [apply usual_close| |lia]. intros _. usual.
  - destruct (sfd =? data_fd ev);
      [apply usual_accept_new_connections | apply usual_read_input_data].
Qed.

Lemma usual_for_events sfd efd buf todo : forall i,
  at_most unexpected 0 (for_events todo i sfd efd buf).
Proof.
  induction todo as [|todo IH]; intros i; cbn [for_events]; [usual|]. cbv zeta.
  eapply (at_most_bind _ 0 0 0); [apply usual_handle_event| |lia]. intros _. apply IH.
Qed.

Lemma usual_event_loop_from sfd efd fuel : forall buf,
  at_most unexpected 0 (event_loop_from fuel sfd efd buf).
Proof.
  induction fuel as [|fuel IH]; intros buf; cbn [event_loop_from]; [usual|].
  eapply (at_most_bind _ 0 0 0); [unfold sys_epoll_wait; cbv zeta; usual| |lia].
  intros [n buf'].
  eapply (at_most_bind _ 0 0 0); [apply usual_for_events| |lia]. intros _. apply IH.
Qed.

Lemma usual_make_socket_non_blocking fd : at_most unexpected 0 (make_socket_non_blocking fd).
Proof.
  unfold make_socket_non_blocking.
  eapply (at_most_bind _ 0 0 0); [unfold sys_fcntl_getfl; usual| |lia]. intros fl.
  cbv zeta.
  eapply (at_most_bind _ 0 0 0); [unfold sys_fcntl_setfl; usual| |lia]. intros _. usual.
Qed.

Lemma usual_create_server_socket port : at_most unexpected 0 (create_server_socket port).
Proof.
  unfold create_server_socket.
  eapply (at_most_bind _ 0 0 0); [unfold sys_getaddrinfo; usual| |lia].
  intros [rc res]. destruct (negb _); [usual|].
  eapply (at_most_bind _ 0 0 0); [unfold sys_socket; cbv zeta; usual| |lia].
  intros s. destruct (s =? -1); [usual|].
  eapply (at_most_bind _ 0 0 0); [unfold sys_bind; cbv zeta; usual| |lia].
  intros r. destruct (r =? -1); [usual|].
  eapply (at_most_bind _ 0 0 0); [unfold sys_freeaddrinfo; usual| |lia]. intros _.
  eapply (at_most_bind _ 0 0 0); [apply usual_make_socket_non_blocking| |lia].
  intros _. usual.
Qed.

Lemma usual_main fuel argv : at_most unexpected 0 (main fuel argv).
Proof.
  unfold main. cbv zeta. destruct (negb _); [usual|].
  eapply (at_most_bind _ 0 0 0); [apply usual_create_server_socket| |lia]. intros s.
  eapply (at_most_bind _ 0 0 0); [unfold sys_listen; cbv zeta; usual| |lia].
  intros r. destruct (r =? -1); [usual|].
  eapply (at_most_bind _ 0 0 0); [unfold sys_epoll_create1; usual| |lia].
  intros e. destruct (e =? -1); [usual|].
  eapply (at_most_bind _ 0 0 0); [unfold sys_epoll_ctl_add; cbv zeta; usual| |lia].
  intros r'. destruct (r' =? -1); [usual|].
  eapply (at_most_bind _ 0 0 0); [apply usual_event_loop_from| |lia]. intros _.
  eapply (at_most_bind _ 0 0 0); [apply usual_close| |lia]. intros _. usual.
Qed.

Lemma none_unexpected l : occurrences unexpected l = 0%nat -> forallb expected l = true.
Proof.
  induction l as [|e l IH]; [done|]. cbn [occurrences forallb]. unfold unexpected at 1.
  destruct (expected e); cbn [negb andb]; [apply IH|lia].
Qed.

(** X16.  Whatever the environment does and however long the program runs,
    every call it makes carries the constants of the source: each [read]
    asks for 512 bytes and each wait for 128 events, [listen] is given 4096
    ([SOMAXCONN]), every registration with the epoll instance is for
    2147483649 ([EPOLLIN | EPOLLET]), and every [F_SETFL] writes flags with
    bit 11 ([O_NONBLOCK]) set.  The only store outside the chunk buffer is
    at index 512 of its 512 cells, one past the end, and no load outside it
    is below that index. *)
Theorem calls_carry_the_constants (fuel : nat) (argv : list string) (w : world) :
  forallb expected (since w (main fuel argv w)) = true.
Proof.
  destruct (usual_main fuel argv w) as (l & Ht & Hc).
  rewrite (since_app _ _ _ Ht). apply none_unexpected. lia.
Qed.

(** ** X17: a client from connection to close *)











